(** * ImageToBitmap: the conversion engine

    A shallow embedding of the two converters of the repository,
    [convert_image_to_bitmap] (Source/imagetobitmap.py) and the command
    line script's [main] (Command Line Version/imgtobmp.py), and the
    properties of the module text they write.

    Python integers are [Z]; image sizes, which Pillow keeps non-negative,
    are [nat]; Python strings are [string].  What Pillow computes (the
    decoder, the luminance, the palette conversion, the adaptive
    quantizer), pathlib's reading of a path string and the permission to
    read a file are parameters of the section [Engine]; pathlib's
    [suffix] and [with_suffix] are written out after CPython's. *)

From Stdlib Require Import ZArith Lia List Bool Ascii String.
From Stdlib Require Import DecimalString.
From stdpp Require Import base option list strings gmap.

Local Open Scope string_scope.
Local Open Scope Z_scope.

(** ** Python built-ins *)

Module Py.

(** [range(start, stop, step)] for a non-zero [step]; empty for [step = 0]
    (Python raises there, and no call site passes it). *)
Definition range_len (start stop step : Z) : Z :=
  if 0 <? step then (stop - start + step - 1) / step
  else if step <? 0 then (start - stop - step - 1) / (- step)
  else 0.

Definition range3 (start stop step : Z) : list Z :=
  map (fun i => start + Z.of_nat i * step)
      (seq 0 (Z.to_nat (range_len start stop step))).

(** [range(stop)] *)
Definition range (stop : Z) : list Z := range3 0 stop 1.

(** [len(s)] *)
Definition len (s : string) : Z := Z.of_nat (String.length s).

(** [s[i:j]] for [0 <= i <= j]. *)
Definition slice (s : string) (i j : Z) : string :=
  substring (Z.to_nat i) (Z.to_nat (j - i)) s.

(** [int(s, 2)] on a plain digit string: [None] stands for the
    [ValueError] Python raises on an empty string or a foreign character. *)
Fixpoint int2_acc (acc : Z) (s : string) : option Z :=
  match s with
  | EmptyString => Some acc
  | String c r =>
      if Ascii.eqb c "0" then int2_acc (2 * acc) r
      else if Ascii.eqb c "1" then int2_acc (2 * acc + 1) r
      else None
  end.

Definition int2 (s : string) : option Z :=
  match s with
  | EmptyString => None
  | _ => int2_acc 0 s
  end.

(** [str(n)] and [f'{n}'] for a non-negative integer. *)
Definition str (n : Z) : string := NilZero.string_of_int (Z.to_int n).

Definition hex_digit (d : Z) : string :=
  String (nth (Z.to_nat d)
              (list_ascii_of_string "0123456789abcdef") "?"%char) "".

Fixpoint hex_go (fuel : nat) (n : Z) : string :=
  match fuel with
  | O => ""
  | S f => if n <? 16 then hex_digit n
           else hex_go f (n / 16) +:+ hex_digit (n mod 16)
  end.

(** [f'{n:x}'] for [0 <= n]. *)
Definition hex (n : Z) : string := hex_go (S (Z.to_nat (Z.log2 n))) n.

Fixpoint zeros (k : nat) : string :=
  match k with O => "" | S k' => String "0" (zeros k') end.

(** [f'{n:0wx}']: lower-case hexadecimal, zero-filled to [w] characters. *)
Definition format_0x (w : nat) (n : Z) : string :=
  let h := hex n in zeros (w - String.length h) +:+ h.

(** [sep.join(l)] *)
Fixpoint join (sep : string) (l : list string) : string :=
  match l with
  | [] => ""
  | [a] => a
  | a :: r => a +:+ sep +:+ join sep r
  end.

End Py.

(** ** Color Packer *)

(** The RGB565 word of one palette entry, before the byte swap. *)
Definition color565 (r g b : Z) : Z :=
  Z.lor (Z.lor (Z.shiftl (Z.land r 0xF8) 8) (Z.shiftl (Z.land g 0xFC) 3))
        (Z.shiftr b 3).

(** [((color565 & 0xff) << 8) + ((color565 & 0xff00) >> 8)] *)
Definition swap_bytes (c : Z) : Z :=
  Z.shiftl (Z.land c 0xff) 8 + Z.shiftr (Z.land c 0xff00) 8.

(** [palette[i]]: [None] stands for [IndexError]. *)
Definition palette_at (palette : list Z) (i : Z) : option Z :=
  palette !! Z.to_nat i.

(** One turn of the loop [for color in range(1 << bits)]. *)
Definition pack_color (palette : list Z) (color : Z) : option string :=
  r ← palette_at palette (color * 3);
  g ← palette_at palette (color * 3 + 1);
  b ← palette_at palette (color * 3 + 2);
  Some ("0x" +:+ Py.format_0x 4 (swap_bytes (color565 r g b))).

(** The loop itself: [colors] grows by one entry per turn and the first
    failing lookup aborts it. *)
Fixpoint pack_colors_from (palette : list Z) (todo : list Z)
    (colors : list string) : option (list string) :=
  match todo with
  | [] => Some colors
  | color :: rest =>
      c ← pack_color palette color;
      pack_colors_from palette rest (colors ++ [c])
  end.

Definition pack_colors (palette : list Z) (bits : Z) : option (list string) :=
  pack_colors_from palette (Py.range (Z.shiftl 1 bits)) [].

(** ** Images

    A Pillow image, as far as the engine looks at it: its size, the value
    [getpixel] returns at the coordinates inside it, and the flat palette
    [getpalette] returns (three entries per color). *)

Record Image (A : Type) := mkImage {
  width : nat;
  height : nat;
  getpixel : Z * Z -> A;
  getpalette : list Z
}.
Arguments mkImage {A}.
Arguments width {A}.
Arguments height {A}.
Arguments getpixel {A}.
Arguments getpalette {A}.

Definition rgb : Type := Z * Z * Z.

(** [img.point(f, mode)] and the per-pixel conversions: every pixel goes
    through [f], the size stays. *)
Definition point {A B} (f : A -> B) (img : Image A) : Image B :=
  mkImage (width img) (height img) (fun xy => f (getpixel img xy))
          (getpalette img).

(** [img.putpalette(data)] *)
Definition putpalette {A} (img : Image A) (data : list Z) : Image A :=
  mkImage (width img) (height img) (getpixel img) data.

(** [lambda p: 255 if p > 127 else 0] *)
Definition threshold (p : Z) : Z := if p >? 127 then 255 else 0.

(** [[0, 0, 0, 255, 255, 255] + [0, 0, 0] * 254] *)
Definition bw_palette : list Z :=
  [0; 0; 0; 255; 255; 255] ++ concat (repeat [0; 0; 0] 254).

(** ** Bit Packer *)

(** ['1' if (pixel & (1 << bit-1)) else '0'] *)
Definition bit_char (pixel bit : Z) : string :=
  if Z.land pixel (Z.shiftl 1 (bit - 1)) =? 0 then "0" else "1".

(** [for bit in range(bits, 0, -1): image_bitstring += ...] *)
Definition add_pixel (bits pixel : Z) (image_bitstring : string) : string :=
  fold_left (fun s bit => s +:+ bit_char pixel bit)
            (Py.range3 bits 0 (-1)) image_bitstring.

(** [for x in range(img.width): ...] *)
Definition add_row (img : Image Z) (bits y : Z) (image_bitstring : string)
    : string :=
  fold_left (fun s x => add_pixel bits (getpixel img (x, y)) s)
            (Py.range (Z.of_nat (width img))) image_bitstring.

(** [for y in range(img.height): ...], from the empty string. *)
Definition image_bitstring (img : Image Z) (bits : Z) : string :=
  fold_left (fun s y => add_row img bits y s)
            (Py.range (Z.of_nat (height img))) "".

(** ** Paths (pathlib)

    A path is the list of its components; [[]] is the current directory.
    [suffix] and [with_suffix] follow pathlib's definitions on the last
    component. *)

Abbreviation path := (list string).

Module Pathlib.

Definition name (p : path) : string := List.last p "".

Definition parent (p : path) : path := removelast p.

Definition with_name (p : path) (n : string) : path :=
  (removelast p ++ [n])%list.

(** [s.rfind('.')]: the index of the last dot, [-1] without one. *)
Fixpoint rfind_dot (s : string) : Z :=
  match s with
  | EmptyString => -1
  | String c r =>
      let i := rfind_dot r in
      if 0 <=? i then i + 1
      else if Ascii.eqb c "." then 0 else -1
  end.

(** [p.suffix]: [name[i:]] when [0 < i < len(name) - 1], else empty. *)
Definition suffix (p : path) : string :=
  let n := name p in
  let i := rfind_dot n in
  if (0 <? i) && (i <? Py.len n - 1) then Py.slice n i (Py.len n) else "".

(** [p.with_suffix(s)] for a well-formed [s]; [None] stands for the
    [ValueError] of a path with an empty name. *)
Definition with_suffix (p : path) (s : string) : option path :=
  let n := name p in
  if String.eqb n "" then None
  else
    let old := suffix p in
    if String.eqb old "" then Some (with_name p (n +:+ s))
    else Some (with_name p (Py.slice n 0 (Py.len n - Py.len old) +:+ s)).

(** [str.lower] on ASCII letters. *)
Definition lower_char (c : ascii) : ascii :=
  let n := nat_of_ascii c in
  if ((65 <=? n) && (n <=? 90))%nat then ascii_of_nat (n + 32) else c.

Fixpoint lower (s : string) : string :=
  match s with
  | EmptyString => EmptyString
  | String c r => String (lower_char c) (lower r)
  end.

(** [str(p)] *)
Definition to_str (p : path) : string :=
  match p with [] => "." | _ => Py.join "/" p end.

End Pathlib.

(** ** The world: file system and calls made

    The file system maps a path to a directory or to a regular file with
    its text; the current directory [[]] always exists.  [calls] records
    the library calls with an effect, latest last. *)

Inductive node := Dir | File (content : string).

Inductive event :=
  | EvImageOpen (p : path)
  | EvMkdir (p : path)
  | EvOpenW (p : path)
  | EvWrite (p : path) (text : string)
  | EvPrint (text : string).

Record world := mkWorld {
  fs : gmap path node;
  calls : list event
}.

Inductive exn :=
  | ValueError (msg : string)
  | FileNotFoundError (msg : string)
  | IndexError
  | IsADirectoryError
  | NotADirectoryError
  | FileExistsError
  | UnidentifiedImageError
  | PermissionError
  | SystemExit (code : Z).

Inductive outcome (A : Type) :=
  | Return (a : A)
  | Raise (e : exn).
Arguments Return {A}.
Arguments Raise {A}.

(** A computation reads and updates the world and returns or raises; the
    world a raising computation leaves behind is kept. *)
Definition M (A : Type) : Type := world -> outcome A * world.

Definition ret {A} (a : A) : M A := fun w => (Return a, w).

Definition raise {A} (e : exn) : M A := fun w => (Raise e, w).

Definition bind {A B} (m : M A) (k : A -> M B) : M B :=
  fun w => match m w with
           | (Return a, w') => k a w'
           | (Raise e, w') => (Raise e, w')
           end.

#[global] Instance M_ret : MRet M := @ret.
#[global] Instance M_bind : MBind M := fun A B k m => bind m k.

(** A pure step that may raise [e]. *)
Definition lift {A} (e : exn) (o : option A) : M A :=
  match o with Some a => ret a | None => raise e end.

Definition log (e : event) : M unit :=
  fun w => (Return tt, mkWorld (fs w) (calls w ++ [e])).

(** [for x in l: body(x)] *)
Fixpoint for_each {A} (l : list A) (body : A -> M unit) : M unit :=
  match l with
  | [] => ret tt
  | x :: r => body x;; for_each r body
  end.

(** [p.is_file()] *)
Definition is_file (p : path) : M bool :=
  fun w =>
    (Return (match fs w !! p with Some (File _) => true | _ => false end),
     w).

Definition is_dir_in (m : gmap path node) (p : path) : bool :=
  match p with
  | [] => true
  | _ => match m !! p with Some Dir => true | _ => false end
  end.

(** The prefixes of [p] but the empty one, shortest first. *)
Definition ancestors (p : path) : list path :=
  map (fun k => firstn k p) (seq 1 (length p)).

(** One level of [mkdir]: an existing directory is kept ([exist_ok]), a
    missing one is made, a regular file in the way raises. *)
Definition mkdir_one (target q : path) : M unit :=
  fun w => match fs w !! q with
           | Some Dir => (Return tt, w)
           | Some (File _) =>
               (Raise (if decide (q = target) then FileExistsError
                       else NotADirectoryError), w)
           | None => (Return tt, mkWorld (<[q := Dir]> (fs w)) (calls w))
           end.

(** [p.mkdir(parents=True, exist_ok=True)] *)
Definition mkdir_parents (p : path) : M unit :=
  log (EvMkdir p);; for_each (ancestors p) (mkdir_one p).

(** [open(p, "w")]: the file is created or truncated; its directory must
    exist.  The handle is the path. *)
Definition create (p : path) : M path :=
  fun w =>
    match p with
    | [] => (Raise IsADirectoryError, w)
    | _ =>
      if is_dir_in (fs w) (Pathlib.parent p) then
        match fs w !! p with
        | Some Dir => (Raise IsADirectoryError, w)
        | _ => (Return p, mkWorld (<[p := File ""]> (fs w)) (calls w))
        end
      else
        match fs w !! Pathlib.parent p with
        | Some (File _) => (Raise NotADirectoryError, w)
        | _ => (Raise (FileNotFoundError (Pathlib.to_str p)), w)
        end
    end.

Definition open_w (p : path) : M path := log (EvOpenW p);; create p.

(** [f.write(text)] on a handle [open_w] returned.  A device that
    fails under the write ([OSError]) is not part of the world. *)
Definition write (f : path) (text : string) : M unit :=
  fun w =>
    match fs w !! f with
    | Some (File c) =>
        (Return tt,
         mkWorld (<[f := File (c +:+ text)]> (fs w))
                 (calls w ++ [EvWrite f text]))
    | _ => (Raise (ValueError "I/O operation on closed file"), w)
    end.

(** [print(text)] *)
Definition print (text : string) : M unit := log (EvPrint text).

(** ** Module Emitter *)

Definition nl : string := String "010" "".

(** The loop over the bit string, eight characters a turn. *)
Definition write_bitmap (f : path) (image_bitstring : string)
    (bitmap_bits : Z) : M unit :=
  for_each (Py.range3 0 bitmap_bits 8) (fun i =>
    (if negb (i =? 0) && (i mod (16 * 8) =? 0)
     then write f ("'\" +:+ nl +:+ "b'") else ret tt);;
    let value := Py.slice image_bitstring i (i + 8) in
    color ← lift (ValueError "invalid literal for int() with base 2")
                 (Py.int2 value);
    write f ("\x" +:+ Py.format_0x 2 color)).

(** The body of the [with] block, the same in both converters. *)
Definition write_module (f : path) (img : Image Z) (bits : Z)
    (colors : list string) (image_bitstring : string) (bitmap_bits : Z)
    : M unit :=
  write f ("HEIGHT = " +:+ Py.str (Z.of_nat (height img)) +:+ nl);;
  write f ("WIDTH = " +:+ Py.str (Z.of_nat (width img)) +:+ nl);;
  write f ("COLORS = " +:+ Py.str (Z.shiftl 1 bits) +:+ nl);;
  write f ("BITS = " +:+ Py.str bitmap_bits +:+ nl);;
  write f ("BPP = " +:+ Py.str bits +:+ nl);;
  write f "PALETTE = [";;
  write f (Py.join "," colors);;
  write f ("]" +:+ nl +:+ nl);;
  write f ("_bitmap = \" +:+ nl);;
  write f "b'";;
  write_bitmap f image_bitstring bitmap_bits;;
  write f ("'" +:+ nl);;
  write f ("BITMAP = memoryview(_bitmap)" +:+ nl).

(** ** The two converters *)

(** The [ValueError] of [with_suffix] on a path without a name. *)
Definition empty_name : exn := ValueError "path has an empty name".

Section Engine.

(** pathlib's [Path(text)]. *)
Variable Path : string -> path.

(** Whether the process may open the file at a path for reading,
    [os.access(p, os.R_OK)]; the converters change no permission. *)
Variable readable : path -> bool.

(** Pillow's decoder on the text of a file; [None] when no plugin
    identifies an image in it. *)
Variable decode : string -> option (Image rgb).

(** The luminance [convert("L")] gives a pixel. *)
Variable luma : rgb -> Z.

(** The palette index [convert("P")] gives a stored bilevel value. *)
Variable to_P : Z -> Z.

(** Pillow's adaptive quantizer: the palette it chooses and the index it
    assigns at each coordinate. *)
Variable quantize : Image rgb -> Z -> list Z * (Z * Z -> Z).

(** Pillow accepts from its plugins no image with a dimension of zero:
    [ImageFile.__init__] refuses a size of which either part is [<= 0],
    and [Image.open] then goes on as for a file no plugin identifies. *)
Definition zero_size (img : Image rgb) : bool :=
  ((width img =? 0) || (height img =? 0))%nat.

(** [Image.open(p)] followed by the load the first conversion forces:
    the file is opened for reading, which needs the permission, and then
    identified. *)
Definition Image_open (p : path) : M (Image rgb) :=
  log (EvImageOpen p);;
  w ← (fun w => (Return w, w)) : M world;
  match fs w !! p with
  | Some (File c) =>
      if negb (readable p) then raise PermissionError
      else match decode c with
           | Some img => if zero_size img then raise UnidentifiedImageError
                         else ret img
           | None => raise UnidentifiedImageError
           end
  | Some Dir => raise IsADirectoryError
  | None => raise (FileNotFoundError (Pathlib.to_str p))
  end.

Definition convert_L (img : Image rgb) : Image Z := point luma img.

Definition convert_P (img : Image Z) : Image Z := point to_P img.

(** [img.convert("P", palette=Image.ADAPTIVE, colors=n)] *)
Definition convert_adaptive (img : Image rgb) (n : Z) : Image Z :=
  let '(palette, index) := quantize img n in
  mkImage (width img) (height img) index palette.

(** The branch on [bits == 1], the same in both converters. *)
Definition to_indexed (img : Image rgb) (bits : Z) : Image Z :=
  if bits =? 1 then
    let img := convert_L img in
    let img := point threshold img in
    let img := convert_P img in
    putpalette img bw_palette
  else convert_adaptive img (2 ^ bits).

(** [Path(output) if output else img_path.with_suffix(".py")]; an empty
    string is as good as no output.  [None] stands for the [ValueError]
    of [with_suffix]. *)
Definition default_out_path (img_path : path) (output : option string)
    : option path :=
  match output with
  | Some o => if String.eqb o "" then Pathlib.with_suffix img_path ".py"
              else Some (Path o)
  | None => Pathlib.with_suffix img_path ".py"
  end.

(** [if out_path.suffix.lower() != ".py":
        out_path = out_path.with_suffix(".py")] *)
Definition ensure_py (out_path : path) : option path :=
  if negb (String.eqb (Pathlib.lower (Pathlib.suffix out_path)) ".py")
  then Pathlib.with_suffix out_path ".py"
  else Some out_path.

(** Source/imagetobitmap.py *)
Definition convert_image_to_bitmap (image_file : string)
    (bits_per_pixel : Z) (output : option string) : M path :=
  if (bits_per_pixel <? 1) || (bits_per_pixel >? 8) then
    raise (ValueError "bits_per_pixel must be between 1 and 8")
  else
    let img_path := Path image_file in
    found ← is_file img_path;
    if negb found then
      raise (FileNotFoundError
               ("Image file not found: " +:+ Pathlib.to_str img_path))
    else
      out_path ← lift empty_name (default_out_path img_path output);
      out_path ← lift empty_name (ensure_py out_path);
      img ← Image_open img_path;
      let bits := bits_per_pixel in
      let img := to_indexed img bits in
      let palette := getpalette img in
      colors ← lift IndexError (pack_colors palette bits);
      let image_bitstring := image_bitstring img bits in
      let bitmap_bits := Py.len image_bitstring in
      mkdir_parents (Pathlib.parent out_path);;
      f ← open_w out_path;
      write_module f img bits colors image_bitstring bitmap_bits;;
      mret out_path.

(** Command Line Version/imgtobmp.py; the arguments are those argparse
    hands over, [bits_per_pixel] already read as an integer.  A value
    outside [choices] ends the script with exit status 2. *)
Definition main (image_file : string) (bits_per_pixel : Z)
    (output : option string) : M unit :=
  if negb (existsb (Z.eqb bits_per_pixel) (Py.range3 1 9 1)) then
    raise (SystemExit 2)
  else
    let bits := bits_per_pixel in
    let img_path := Path image_file in
    out_path ← lift empty_name (default_out_path img_path output);
    img ← Image_open img_path;
    let img := to_indexed img bits in
    let palette := getpalette img in
    colors ← lift IndexError (pack_colors palette bits);
    let image_bitstring := image_bitstring img bits in
    let bitmap_bits := Py.len image_bitstring in
    f ← open_w out_path;
    write_module f img bits colors image_bitstring bitmap_bits;;
    print ("Wrote " +:+ Pathlib.to_str out_path).

(** ** The converters up to the open file

    The lines of [convert_image_to_bitmap] from its first down to
    [out_path.open("w")] (imagetobitmap.py 52-111), handing over what
    the [with] block uses: the out path, the handle, the indexed image
    and the palette entries. *)
Definition convert_until_open (image_file : string)
    (bits_per_pixel : Z) (output : option string)
    : M (path * path * Image Z * list string) :=
  if (bits_per_pixel <? 1) || (bits_per_pixel >? 8) then
    raise (ValueError "bits_per_pixel must be between 1 and 8")
  else
    let img_path := Path image_file in
    found ← is_file img_path;
    if negb found then
      raise (FileNotFoundError
               ("Image file not found: " +:+ Pathlib.to_str img_path))
    else
      out_path ← lift empty_name (default_out_path img_path output);
      out_path ← lift empty_name (ensure_py out_path);
      img ← Image_open img_path;
      let bits := bits_per_pixel in
      let img := to_indexed img bits in
      let palette := getpalette img in
      colors ← lift IndexError (pack_colors palette bits);
      mkdir_parents (Pathlib.parent out_path);;
      f ← open_w out_path;
      mret (out_path, f, img, colors).

(** The lines of the script's [main] from [parse_args] down to
    [open(out_path, "w")] (imgtobmp.py 35-81). *)
Definition main_until_open (image_file : string) (bits_per_pixel : Z)
    (output : option string) : M (path * path * Image Z * list string) :=
  if negb (existsb (Z.eqb bits_per_pixel) (Py.range3 1 9 1)) then
    raise (SystemExit 2)
  else
    let bits := bits_per_pixel in
    let img_path := Path image_file in
    out_path ← lift empty_name (default_out_path img_path output);
    img ← Image_open img_path;
    let img := to_indexed img bits in
    let palette := getpalette img in
    colors ← lift IndexError (pack_colors palette bits);
    f ← open_w out_path;
    mret (out_path, f, img, colors).

(** The [with] block of [convert_image_to_bitmap] and its [return]
    (imagetobitmap.py 112-134). *)
Definition convert_after_open (bits : Z)
    (opened : path * path * Image Z * list string) : M path :=
  let '(out_path, f, img, colors) := opened in
  let image_bitstring := image_bitstring img bits in
  let bitmap_bits := Py.len image_bitstring in
  write_module f img bits colors image_bitstring bitmap_bits;;
  mret out_path.

(** The [with] block of [main] and its [print] (imgtobmp.py 83-107). *)
Definition main_after_open (bits : Z)
    (opened : path * path * Image Z * list string) : M unit :=
  let '(out_path, f, img, colors) := opened in
  let image_bitstring := image_bitstring img bits in
  let bitmap_bits := Py.len image_bitstring in
  write_module f img bits colors image_bitstring bitmap_bits;;
  print ("Wrote " +:+ Pathlib.to_str out_path).

End Engine.

(** ** The front end (Source/imagetobitmap.py)

    The window [main] builds holds two text inputs, the slider and the
    read-only log, each under its tag; [get_value] and [set_value] on a
    tag read and write the field of that name. *)

Record items := mkItems {
  image_path_input : string;
  output_path_input : string;
  bpp_slider : Z;
  status_log : string
}.

(** [dpg.set_value("image_path_input", v)] and its like. *)
Definition set_image_path (v : string) (it : items) : items :=
  mkItems v (output_path_input it) (bpp_slider it) (status_log it).

Definition set_output_path (v : string) (it : items) : items :=
  mkItems (image_path_input it) v (bpp_slider it) (status_log it).

Definition set_status_log (v : string) (it : items) : items :=
  mkItems (image_path_input it) (output_path_input it) (bpp_slider it) v.

(** [append_log(message)] *)
Definition append_log (message : string) (it : items) : items :=
  let previous := status_log it in
  let new_text :=
    if negb (String.eqb previous "") then previous +:+ nl +:+ message
    else message in
  set_status_log new_text it.

(** [type(e).__name__] *)
Definition exn_name (e : exn) : string :=
  match e with
  | ValueError _ => "ValueError"
  | FileNotFoundError _ => "FileNotFoundError"
  | IndexError => "IndexError"
  | IsADirectoryError => "IsADirectoryError"
  | NotADirectoryError => "NotADirectoryError"
  | FileExistsError => "FileExistsError"
  | UnidentifiedImageError => "UnidentifiedImageError"
  | PermissionError => "PermissionError"
  | SystemExit _ => "SystemExit"
  end.

(** The window together with the file system behind it. *)
Record gui := mkGui {
  window : items;
  disk : world
}.

Section FrontEnd.

Variable Path : string -> path.
Variable readable : path -> bool.
Variable decode : string -> option (Image rgb).
Variable luma : rgb -> Z.
Variable to_P : Z -> Z.
Variable quantize : Image rgb -> Z -> list Z * (Z * Z -> Z).

(** Python's [str.strip()]. *)
Variable strip : string -> string.

(** Python's [str(e)] of an exception. *)
Variable exn_text : exn -> string.

(** The lines both file choosers share once a path is known:
    [set_value("image_path_input", path)], then the suggestion
    [str(Path(path).with_suffix(".py"))], set only into an empty output
    field.  [with_suffix] raises on a path without a name, after the
    image path has been set. *)
Definition take_path (p : string) (it : items) : outcome unit * items :=
  let it := set_image_path p it in
  match Pathlib.with_suffix (Path p) ".py" with
  | None => (Raise empty_name, it)
  | Some suggested =>
      let out_path := Pathlib.to_str suggested in
      if String.eqb (output_path_input it) "" then
        (Return tt, set_output_path out_path it)
      else (Return tt, it)
  end.

(** [file_dialog_callback(sender, app_data)]:
    [path = app_data.get("file_path_name")], nothing done without one. *)
Definition file_dialog_callback (app_data : gmap string string) (it : items)
    : outcome unit * items :=
  match app_data !! "file_path_name" with
  | Some p => if String.eqb p "" then (Return tt, it) else take_path p it
  | None => (Return tt, it)
  end.

(** [open_system_file_picker()], from the answer [file_path] of
    [askopenfilename], the empty string when the dialog is cancelled. *)
Definition open_system_file_picker (file_path : string) (it : items)
    : outcome unit * items :=
  if String.eqb file_path "" then (Return tt, it) else take_path file_path it.

(** The two [except] clauses of [convert_button_callback]: a
    [FileNotFoundError] is logged bare, any other [Exception] with its
    type name; [SystemExit] is no [Exception] and passes through. *)
Definition log_failure (e : exn) (it : items) : outcome unit * items :=
  match e with
  | FileNotFoundError _ => (Return tt, append_log ("ERROR: " +:+ exn_text e) it)
  | SystemExit _ => (Raise e, it)
  | _ => (Return tt,
          append_log ("ERROR: " +:+ exn_name e +:+ ": " +:+ exn_text e) it)
  end.

(** [convert_button_callback(sender, app_data)] *)
Definition convert_button_callback (g : gui) : outcome unit * gui :=
  let image_path := strip (image_path_input (window g)) in
  let output_path := strip (output_path_input (window g)) in
  let bpp := bpp_slider (window g) in
  let it := set_status_log "" (window g) in
  if String.eqb image_path "" then
    (Return tt,
     mkGui (append_log "ERROR: Please select an image file first." it)
           (disk g))
  else
    let it := append_log ("Converting:" +:+ nl +:+ "  Image: " +:+ image_path
                          +:+ nl +:+ "  BPP: " +:+ Py.str bpp) it in
    let it := if negb (String.eqb output_path "")
              then append_log ("  Output: " +:+ output_path) it
              else append_log "  Output: <image>.py (auto)" it in
    match convert_image_to_bitmap Path readable decode luma to_P quantize
            image_path bpp
            (if negb (String.eqb output_path "") then Some output_path
             else None)
            (disk g) with
    | (Return out_path, w') =>
        (Return tt,
         mkGui (append_log ("SUCCESS: Wrote " +:+ Pathlib.to_str out_path) it)
               w')
    | (Raise e, w') =>
        let '(r, it') := log_failure e it in (r, mkGui it' w')
    end.

End FrontEnd.

(** * Specification

    The spec's words as definitions, and the vocabulary of the proofs. *)

(** ** Bit stream *)

Definition str_concat (l : list string) : string :=
  fold_right String.append "" l.

(** The group of one pixel as the spec words it: its [bits]-bit index,
    most significant bit first. *)
Definition pixel_group (bits pixel : Z) : string :=
  str_concat (map (fun i => if Z.testbit pixel (bits - 1 - Z.of_nat i)
                            then "1" else "0")
                  (seq 0 (Z.to_nat bits))).

(** The pixels in row-major order: row 0 left to right, then row 1, ... *)
Definition pixels_row_major (img : Image Z) : list Z :=
  concat (map (fun y => map (fun x => getpixel img (Z.of_nat x, Z.of_nat y))
                            (seq 0 (width img)))
              (seq 0 (height img))).

(** The logical bit stream as the spec words it. *)
Definition bitstream (img : Image Z) (bits : Z) : string :=
  str_concat (map (pixel_group bits) (pixels_row_major img)).

(** ** Output artifact *)

(** The value of a string of binary digits, first digit most significant. *)
Definition bits_value (s : string) : Z :=
  fold_left (fun acc c => 2 * acc + (if Ascii.eqb c "1" then 1 else 0))
            (list_ascii_of_string s) 0.

(** The bytes of the literal: one per started group of eight characters of
    the bit string, each the value [int(..., 2)] of its group. *)
Definition bitmap_bytes (s : string) : list Z :=
  map (fun i => bits_value (Py.slice s i (i + 8))) (Py.range3 0 (Py.len s) 8).

(** The text between the quotes of the literal as the spec words it:
    every byte as [\xHH], a new quoted segment before every 16th byte. *)
Fixpoint literal_from (j : nat) (bytes : list Z) : string :=
  match bytes with
  | [] => ""
  | b :: r =>
      (if negb (j =? 0)%nat && (j mod 16 =? 0)%nat
       then "'\" +:+ nl +:+ "b'" else "")
      +:+ ("\x" +:+ Py.format_0x 2 b) +:+ literal_from (S j) r
  end.

Definition literal_text (bytes : list Z) : string := literal_from 0 bytes.

(** The output artifact as the grammar of the spec has it. *)
Definition artifact (HEIGHT WIDTH COLORS BITS BPP : Z)
    (PALETTE : list string) (bitmap : list Z) : string :=
  "HEIGHT = " +:+ Py.str HEIGHT +:+ nl +:+
  "WIDTH = " +:+ Py.str WIDTH +:+ nl +:+
  "COLORS = " +:+ Py.str COLORS +:+ nl +:+
  "BITS = " +:+ Py.str BITS +:+ nl +:+
  "BPP = " +:+ Py.str BPP +:+ nl +:+
  "PALETTE = [" +:+ Py.join "," PALETTE +:+ "]" +:+ nl +:+ nl +:+
  "_bitmap = \" +:+ nl +:+
  "b'" +:+ literal_text bitmap +:+ "'" +:+ nl +:+
  "BITMAP = memoryview(_bitmap)" +:+ nl.

(** A string of the characters 0 and 1. *)
Definition bit_string (s : string) : Prop :=
  Forall (fun c => c = "0"%char \/ c = "1"%char) (list_ascii_of_string s).

(** [m] appends the [texts], one [write] each, to the open file [f] and
    does nothing else. *)
Definition writes (f : path) (texts : list string) (m : M unit) : Prop :=
  forall w c, fs w !! f = Some (File c) ->
    m w = (Return tt,
           mkWorld (<[f := File (c +:+ str_concat texts)]> (fs w))
                   (calls w ++ map (EvWrite f) texts)).

(** The texts one turn of the loop writes at offset [i]. *)
Definition turn_texts (s : string) (i : Z) : list string :=
  (if negb (i =? 0) && (i mod (16 * 8) =? 0)
   then ["'\" +:+ nl +:+ "b'"] else [])
  ++ ["\x" +:+ Py.format_0x 2 (bits_value (Py.slice s i (i + 8)))].

(** The texts [write_module] writes, in order. *)
Definition module_texts (img : Image Z) (bits : Z) (colors : list string)
    (s : string) : list string :=
  ["HEIGHT = " +:+ Py.str (Z.of_nat (height img)) +:+ nl] ++
  ["WIDTH = " +:+ Py.str (Z.of_nat (width img)) +:+ nl] ++
  ["COLORS = " +:+ Py.str (Z.shiftl 1 bits) +:+ nl] ++
  ["BITS = " +:+ Py.str (Py.len s) +:+ nl] ++
  ["BPP = " +:+ Py.str bits +:+ nl] ++
  ["PALETTE = ["] ++
  [Py.join "," colors] ++
  ["]" +:+ nl +:+ nl] ++
  ["_bitmap = \" +:+ nl] ++
  ["b'"] ++
  concat (map (turn_texts s) (Py.range3 0 (Py.len s) 8)) ++
  ["'" +:+ nl] ++
  ["BITMAP = memoryview(_bitmap)" +:+ nl].

(** ** Reading the artifact back *)

(** The bit string a reader recovers from the bytes and BITS: eight
    digits a byte, the last byte giving as many digits as are left, taken
    from its low end. *)
Fixpoint unpack (remaining : nat) (bytes : list Z) : string :=
  match bytes with
  | [] => ""
  | b :: r =>
      pixel_group (Z.of_nat (Nat.min 8 remaining)) b
      +:+ unpack (remaining - 8) r
  end.

(** The channels a reader recovers from an emitted palette word: the
    bytes swapped back, then the three fields scaled to eight bits. *)
Definition unpack565 (word : Z) : rgb :=
  let c := swap_bytes word in
  (c / 2048 * 8, c / 32 mod 64 * 4, c mod 32 * 8).

(** [l] cut into runs of [n], the last one shorter when [n] does not
    divide the length. *)
Fixpoint chunks_go {A} (fuel n : nat) (l : list A) : list (list A) :=
  match fuel, l with
  | _, [] => []
  | O, _ => []
  | S f, _ => firstn n l :: chunks_go f n (skipn n l)
  end.

Definition chunks {A} (n : nat) (l : list A) : list (list A) :=
  chunks_go (length l) n l.

(** One quoted segment of the literal, and the text between segments. *)
Definition segment_text (bytes : list Z) : string :=
  str_concat (map (fun b => "\x" +:+ Py.format_0x 2 b) bytes).

Definition segment_break : string := "'\" +:+ nl +:+ "b'".

(** Two file systems with the same regular files, text for text. *)
Definition same_files (m m' : gmap path node) : Prop :=
  forall p c, m' !! p = Some (File c) <-> m !! p = Some (File c).

(** [m] changes no regular file, however it ends; [m] changes none when
    it raises. *)
Definition keeps_files {A} (m : M A) : Prop :=
  forall w r w', m w = (r, w') -> same_files (fs w) (fs w').

Definition fails_clean {A} (m : M A) : Prop :=
  forall w e w', m w = (Raise e, w') -> same_files (fs w) (fs w').

(** ** Effects *)

(** The file system [mkdir(parents=True, exist_ok=True)] leaves: every
    listed path that was missing is now a directory. *)
Definition make_dirs (qs : list path) (m : gmap path node) : gmap path node :=
  fold_left (fun m q => match m !! q with
                        | None => <[q := Dir]> m
                        | Some _ => m
                        end) qs m.

(** The world after a conversion that wrote [out]. *)
Definition converted (w : world) (log_before : list event) (out : path)
    (img : Image Z) (bits : Z) (colors : list string) (dirs : list path)
    : world :=
  let s := image_bitstring img bits in
  mkWorld
    (<[out := File (artifact (Z.of_nat (height img)) (Z.of_nat (width img))
                             (Z.shiftl 1 bits) (Py.len s) bits colors
                             (bitmap_bytes s))]>
       (make_dirs dirs (fs w)))
    (calls w ++ log_before ++ [EvOpenW out]
     ++ map (EvWrite out) (module_texts img bits colors s)).

(** The out path [convert_image_to_bitmap] settles on. *)
Definition gui_out_path (Path : string -> path) (image_file : string)
    (output : option string) : option path :=
  default_out_path Path (Path image_file) output ≫= ensure_py.

(** ** Failures *)

(** The spec's names for the two exceptions of the entry checks. *)
Definition InvalidParameter : exn :=
  ValueError "bits_per_pixel must be between 1 and 8".

Definition SourceNotFound (img_path : path) : exn :=
  FileNotFoundError ("Image file not found: " +:+ Pathlib.to_str img_path).

(** The exceptions the steps after the two entry checks can raise. *)
Inductive late_exn : exn -> Prop :=
  | late_not_found msg : late_exn (FileNotFoundError msg)
  | late_empty_name : late_exn empty_name
  | late_closed : late_exn (ValueError "I/O operation on closed file")
  | late_literal : late_exn (ValueError "invalid literal for int() with base 2")
  | late_index : late_exn IndexError
  | late_is_dir : late_exn IsADirectoryError
  | late_not_dir : late_exn NotADirectoryError
  | late_exists : late_exn FileExistsError
  | late_unidentified : late_exn UnidentifiedImageError
  | late_permission : late_exn PermissionError.

(** [m] raises nothing but exceptions in [P]. *)
Definition raises_only {A} (P : exn -> Prop) (m : M A) : Prop :=
  forall w e w', m w = (Raise e, w') -> P e.

(** ** The log of a run

    What the window's log is expected to hold after the Convert button:
    two lines naming the run, then one line for its outcome. *)

Definition run_header (image_path : string) (bpp : Z) (output_path : string)
    : list string :=
  [ "Converting:" +:+ nl +:+ "  Image: " +:+ image_path
      +:+ nl +:+ "  BPP: " +:+ Py.str bpp;
    if String.eqb output_path "" then "  Output: <image>.py (auto)"
    else "  Output: " +:+ output_path ].

Definition error_line (exn_text : exn -> string) (e : exn) : string :=
  match e with
  | FileNotFoundError _ => "ERROR: " +:+ exn_text e
  | _ => "ERROR: " +:+ exn_name e +:+ ": " +:+ exn_text e
  end.

Definition outcome_line (exn_text : exn -> string) (r : outcome path)
    : string :=
  match r with
  | Return out => "SUCCESS: Wrote " +:+ Pathlib.to_str out
  | Raise e => error_line exn_text e
  end.

(** * A concrete setting for the examples *)

(** Splitting at slashes, empty and [.] components dropped. *)
Fixpoint split_path_go (cur : string) (s : string) : list string :=
  match s with
  | EmptyString => [cur]
  | String c r =>
      if Ascii.eqb c "/" then cur :: split_path_go "" r
      else split_path_go (cur +:+ String c "") r
  end.

Definition split_path (s : string) : path :=
  filter (fun c => c <> "" /\ c <> ".") (split_path_go "" s).

(** One row of grey pixels. *)
Definition grey_row (px : list Z) : Image rgb :=
  mkImage (length px) (if (length px =? 0)%nat then 0%nat else 1%nat)
          (fun xy => let v := nth (Z.to_nat (fst xy)) px 0 in (v, v, v))
          [].

(** A toy decoder: the text of the file is one row of grey pixels, one
    character a pixel, its code the three channels. *)
Definition toy_decode (c : string) : option (Image rgb) :=
  Some (grey_row (map (fun a => Z.of_nat (nat_of_ascii a))
                      (list_ascii_of_string c))).

(** Pillow's integer form of the ITU-R 601-2 luma transform. *)
Definition luma601 (p : rgb) : Z :=
  let '(r, g, b) := p in
  Z.shiftr (r * 19595 + g * 38470 + b * 7471 + 0x8000) 16.

(** A stand-in quantizer: a grey ramp of [n] colors. *)
Definition ramp_quantize (img : Image rgb) (n : Z) : list Z * (Z * Z -> Z) :=
  (concat (map (fun i => let v := i * 255 / Z.max 1 (n - 1) in [v; v; v])
               (Py.range n)),
   fun xy => luma601 (getpixel img xy) * n / 256).

Definition toy_world : world :=
  mkWorld {[ ["img"] := Dir; ["img"; "a.png"] := File "AzB" ]} [].

(** The converters in this setting. *)
Definition all_readable (p : path) : bool := true.

Definition toy_setting {A} (run : (string -> path) -> (path -> bool) ->
    (string -> option (Image rgb)) -> (rgb -> Z) -> (Z -> Z) ->
    (Image rgb -> Z -> list Z * (Z * Z -> Z)) -> A) : A :=
  run split_path all_readable toy_decode luma601 (fun v => v) ramp_quantize.



Definition toy_world_old : world :=
  mkWorld {[ ["img"] := Dir; ["img"; "a.png"] := File "AzB";
             ["img"; "a.py"] := File "old" ]} [].

(** An indexed image given by its rows. *)
Definition image_of_rows (rows : list (list Z)) (palette : list Z) : Image Z :=
  mkImage (length (hd [] rows)) (length rows)
          (fun xy => nth (Z.to_nat (fst xy))
                         (nth (Z.to_nat (snd xy)) rows []) 0)
          palette.

Definition one_row_123 : Image Z := image_of_rows [[1; 2; 3]] [].

Definition open_literal : world := mkWorld {[ ["o.py"] := File "b'" ]} [].

(** Stripping blanks, tabs and line ends, for the examples. *)
Definition is_blank (c : ascii) : bool :=
  let n := nat_of_ascii c in
  ((n =? 32) || ((9 <=? n) && (n <=? 13)))%nat.

Fixpoint lstrip (l : list ascii) : list ascii :=
  match l with
  | c :: r => if is_blank c then lstrip r else l
  | [] => []
  end.

Definition toy_strip (s : string) : string :=
  string_of_list_ascii
    (rev (lstrip (rev (lstrip (list_ascii_of_string s))))).

(** The message of an exception, for the examples. *)
Definition toy_text (e : exn) : string :=
  match e with
  | ValueError msg | FileNotFoundError msg => msg
  | _ => exn_name e
  end.

Definition toy_items : items := mkItems "" "" 4 "".

(** A window whose fields carry blanks around the text and an old log. *)
Definition toy_window : items := mkItems " img/a.png " "" 4 "old".

Definition toy_gui (it : items) (w : world) : outcome unit * gui :=
  toy_setting convert_button_callback toy_strip toy_text (mkGui it w).

(** * Properties *)

(** ** Strings *)

Section StringFacts.

Lemma str_app_cons (c : ascii) (a b : string) :
  String c a +:+ b = String c (a +:+ b).
Proof. reflexivity. Qed.

Lemma str_app_nil_l (b : string) : "" +:+ b = b.
Proof. reflexivity. Qed.

Lemma str_app_nil_r (s : string) : s +:+ "" = s.
Proof.
  induction s as [|c s IH]; [reflexivity|].
  now rewrite str_app_cons, IH.
Qed.

Lemma str_app_assoc (a b c : string) : (a +:+ b) +:+ c = a +:+ (b +:+ c).
Proof.
  induction a as [|x a IH]; [reflexivity|].
  now rewrite !str_app_cons, IH.
Qed.

Lemma str_length_app (a b : string) :
  String.length (a +:+ b) = (String.length a + String.length b)%nat.
Proof.
  induction a as [|x a IH]; [reflexivity|].
  rewrite str_app_cons. simpl. now rewrite IH.
Qed.

Lemma str_get_app_l (a b : string) (n : nat) :
  (n < String.length a)%nat -> String.get n (a +:+ b) = String.get n a.
Proof. intros H. symmetry. now apply append_correct1. Qed.

Lemma str_get_app_r (a b : string) (n : nat) :
  (String.length a <= n)%nat ->
  String.get n (a +:+ b) = String.get (n - String.length a) b.
Proof.
  intros H.
  rewrite (append_correct2 a b (n - String.length a)).
  f_equal. lia.
Qed.

Lemma substring_app_l (a b : string) (n m : nat) :
  (n + m <= String.length a)%nat -> substring n m (a +:+ b) = substring n m a.
Proof.
  revert n m. induction a as [|x a IH]; intros n m H.
  - simpl in H. assert (n = 0%nat) by lia. assert (m = 0%nat) by lia. subst.
    rewrite str_app_nil_l. destruct b; reflexivity.
  - rewrite str_app_cons. simpl in H. destruct n as [|n].
    + destruct m as [|m]; [reflexivity|]. simpl. f_equal. apply IH. lia.
    + simpl. apply IH. lia.
Qed.

Lemma substring_app_r (a b : string) (n m : nat) :
  (String.length a <= n)%nat ->
  substring n m (a +:+ b) = substring (n - String.length a) m b.
Proof.
  revert n. induction a as [|x a IH]; intros n H.
  - rewrite str_app_nil_l. simpl. now rewrite Nat.sub_0_r.
  - rewrite str_app_cons. simpl in H. destruct n as [|n]; [lia|].
    simpl. apply IH. lia.
Qed.

Lemma substring_all (a : string) (m : nat) :
  (String.length a <= m)%nat -> substring 0 m a = a.
Proof.
  revert m. induction a as [|x a IH]; intros m H; simpl in *.
  - destruct m; reflexivity.
  - destruct m as [|m]; [lia|]. f_equal. apply IH. lia.
Qed.

Lemma substring_length (a : string) (n m : nat) :
  String.length (substring n m a) = Nat.min m (String.length a - n).
Proof.
  revert n m. induction a as [|x a IH]; intros n m; simpl.
  - destruct n, m; reflexivity.
  - destruct n as [|n].
    + destruct m as [|m]; [reflexivity|]. simpl. rewrite IH.
      now rewrite Nat.sub_0_r.
    + rewrite IH. reflexivity.
Qed.

End StringFacts.

(** ** Ranges *)

Section RangeFacts.

Lemma range_len_up (stop : Z) : 0 <= stop -> Py.range_len 0 stop 1 = stop.
Proof.
  intros H. unfold Py.range_len. simpl.
  replace (stop - 0 + 1 - 1) with stop by lia. apply Z.div_1_r.
Qed.


Lemma range_nat (n : nat) : Py.range (Z.of_nat n) = map Z.of_nat (seq 0 n).
Proof.
  unfold Py.range, Py.range3. rewrite range_len_up by lia.
  rewrite Nat2Z.id. apply map_ext. intros i. lia.
Qed.

Lemma in_range (stop i : Z) : In i (Py.range stop) <-> 0 <= i < stop.
Proof.
  unfold Py.range, Py.range3. rewrite in_map_iff. split.
  - intros (k & <- & Hk). apply in_seq in Hk.
    destruct (Z.le_gt_cases 0 stop) as [Hs|Hs].
    + rewrite range_len_up in Hk by assumption. lia.
    + unfold Py.range_len in Hk. simpl in Hk.
      replace (stop - 0 + 1 - 1) with stop in Hk by lia.
      rewrite Z.div_1_r in Hk. lia.
  - intros Hi. exists (Z.to_nat i). split; [lia|].
    apply in_seq. rewrite range_len_up by lia. lia.
Qed.

(** A property checked on every element of [range(n)] holds below [n]. *)
Lemma range_forallb (n : Z) (P : Z -> bool) :
  forallb P (Py.range n) = true -> forall i, 0 <= i < n -> P i = true.
Proof.
  intros H i Hi. rewrite forallb_forall in H. apply H. now apply in_range.
Qed.

(** [range(bits, 0, -1)] is [bits, bits - 1, ..., 1]. *)
Lemma range_down (bits : Z) :
  0 <= bits ->
  Py.range3 bits 0 (-1) = map (fun i => bits - Z.of_nat i) (seq 0 (Z.to_nat bits)).
Proof.
  intros H. unfold Py.range3, Py.range_len. simpl.
  replace (bits - 0 - -1 - 1) with bits by lia. rewrite Z.div_1_r.
  apply map_ext. intros i. lia.
Qed.

(** [range(0, n, 8)] is [0, 8, ...], one entry per started group of 8. *)
Lemma range_by_8 (n : Z) :
  0 <= n ->
  Py.range3 0 n 8 = map (fun i => Z.of_nat i * 8) (seq 0 (Z.to_nat ((n + 7) / 8))).
Proof.
  intros H. unfold Py.range3, Py.range_len. simpl.
  replace (n - 0 + 8 - 1) with (n + 7) by lia. reflexivity.
Qed.

End RangeFacts.

(** ** Color Packer *)

Section ColorPacker.

Lemma channel_red (r : Z) :
  0 <= r < 256 -> Z.shiftl (Z.land r 0xF8) 8 = r / 8 * 2048.
Proof.
  intros H.
  apply Z.eqb_eq.
  apply (range_forallb 256
           (fun r => Z.shiftl (Z.land r 0xF8) 8 =? r / 8 * 2048));
    [vm_compute; reflexivity | assumption].
Qed.

Lemma channel_green (g : Z) :
  0 <= g < 256 -> Z.shiftl (Z.land g 0xFC) 3 = g / 4 * 32.
Proof.
  intros H.
  apply Z.eqb_eq.
  apply (range_forallb 256
           (fun g => Z.shiftl (Z.land g 0xFC) 3 =? g / 4 * 32));
    [vm_compute; reflexivity | assumption].
Qed.

Lemma channel_blue (b : Z) : Z.shiftr b 3 = b / 8.
Proof. now rewrite Z.shiftr_div_pow2 by lia. Qed.

(** Fields that do not overlap are joined by [|] as by [+]. *)
Lemma lor_fields (hi lo k : Z) :
  0 <= k -> 0 <= lo < 2 ^ k -> 0 <= hi ->
  Z.lor (hi * 2 ^ k) lo = hi * 2 ^ k + lo.
Proof.
  intros Hk Hlo Hhi.
  rewrite <- Z.add_lor_land.
  assert (E : Z.land (hi * 2 ^ k) lo = 0).
  { apply Z.bits_inj'. intros n Hn.
    rewrite Z.land_spec, Z.bits_0.
    destruct (Z.lt_ge_cases n k) as [Hlt|Hge].
    - rewrite Z.mul_pow2_bits_low by lia. reflexivity.
    - destruct (Z.eq_dec lo 0) as [->|Hne].
      + rewrite Z.bits_0. apply andb_false_r.
      + rewrite (Z.bits_above_log2 lo n); [apply andb_false_r | lia |].
        apply Z.log2_lt_pow2; [lia|].
        apply Z.lt_le_trans with (2 ^ k); [lia|].
        apply Z.pow_le_mono_r; lia. }
  rewrite E. lia.
Qed.

Lemma color565_fields (r g b : Z) :
  0 <= r < 256 -> 0 <= g < 256 -> 0 <= b < 256 ->
  color565 r g b = r / 8 * 2048 + g / 4 * 32 + b / 8.
Proof.
  intros Hr Hg Hb. unfold color565.
  rewrite channel_red, channel_green, channel_blue by assumption.
  assert (0 <= r / 8 < 32) by (split; [apply Z.div_pos | apply Z.div_lt_upper_bound]; lia).
  assert (0 <= g / 4 < 64) by (split; [apply Z.div_pos | apply Z.div_lt_upper_bound]; lia).
  assert (0 <= b / 8 < 32) by (split; [apply Z.div_pos | apply Z.div_lt_upper_bound]; lia).
  change 2048 with (2 ^ 11).
  rewrite (lor_fields (r / 8) (g / 4 * 32) 11) by lia.
  replace ((r / 8) * 2 ^ 11 + g / 4 * 32)
    with (((r / 8) * 64 + g / 4) * 2 ^ 5) by lia.
  rewrite (lor_fields _ (b / 8) 5) by lia.
  lia.
Qed.

Lemma swap_bytes_word (c : Z) :
  0 <= c < 65536 -> swap_bytes c = c mod 256 * 256 + c / 256.
Proof.
  intros H. unfold swap_bytes.
  rewrite Z.shiftr_land.
  change (Z.shiftr 0xff00 8) with (Z.ones 8).
  change 0xff with (Z.ones 8).
  rewrite !Z.land_ones by lia.
  rewrite Z.shiftl_mul_pow2, Z.shiftr_div_pow2 by lia.
  change (2 ^ 8) with 256.
  rewrite (Z.mod_small (c / 256)); [reflexivity|].
  split; [apply Z.div_pos | apply Z.div_lt_upper_bound]; lia.
Qed.

End ColorPacker.

(** ** Bit Packer *)

Section BitPacker.

Lemma fold_left_append {A} (f : A -> string) (l : list A) (s : string) :
  fold_left (fun s a => s +:+ f a) l s = s +:+ str_concat (map f l).
Proof.
  revert s. induction l as [|a l IH]; intros s; simpl.
  - now rewrite str_app_nil_r.
  - rewrite IH. apply str_app_assoc.
Qed.

Lemma str_concat_app (l1 l2 : list string) :
  str_concat (l1 ++ l2) = str_concat l1 +:+ str_concat l2.
Proof.
  induction l1 as [|a l1 IH]; simpl; [reflexivity|].
  now rewrite IH, str_app_assoc.
Qed.

Lemma str_concat_concat (ll : list (list string)) :
  str_concat (concat ll) = str_concat (map str_concat ll).
Proof.
  induction ll as [|l ll IH]; simpl; [reflexivity|].
  now rewrite str_concat_app, IH.
Qed.

(** [pixel & (1 << n)] is zero exactly when bit [n] of [pixel] is clear. *)
Lemma land_bit_zero (pixel n : Z) :
  0 <= n -> (Z.land pixel (Z.shiftl 1 n) =? 0) = negb (Z.testbit pixel n).
Proof.
  intros Hn. rewrite Z.shiftl_1_l.
  destruct (Z.testbit pixel n) eqn:E; simpl.
  - apply Z.eqb_neq. intros H0.
    assert (T : Z.testbit (Z.land pixel (2 ^ n)) n = true).
    { rewrite Z.land_spec, E, Z.pow2_bits_true; [reflexivity | assumption]. }
    rewrite H0, Z.bits_0 in T. discriminate.
  - apply Z.eqb_eq. apply Z.bits_inj'. intros m Hm.
    rewrite Z.land_spec, Z.bits_0, Z.pow2_bits_eqb by assumption.
    destruct (Z.eqb_spec n m) as [->|]; [now rewrite E | apply andb_false_r].
Qed.

Lemma bit_char_testbit (pixel bit : Z) :
  1 <= bit ->
  bit_char pixel bit = if Z.testbit pixel (bit - 1) then "1" else "0".
Proof.
  intros H. unfold bit_char. rewrite land_bit_zero by lia.
  destruct (Z.testbit pixel (bit - 1)); reflexivity.
Qed.

(** The inner loop appends the group of the pixel. *)
Lemma add_pixel_group (bits pixel : Z) (s : string) :
  0 <= bits -> add_pixel bits pixel s = s +:+ pixel_group bits pixel.
Proof.
  intros H. unfold add_pixel, pixel_group.
  rewrite fold_left_append, range_down by assumption.
  rewrite map_map. do 2 f_equal.
  apply map_ext_in. intros i Hi. apply in_seq in Hi.
  rewrite bit_char_testbit by lia.
  now replace (bits - Z.of_nat i - 1) with (bits - 1 - Z.of_nat i) by lia.
Qed.

Lemma fold_left_groups {A} (g : A -> string -> string) (f : A -> string)
    (l : list A) (s : string) :
  (forall a s, g a s = s +:+ f a) ->
  fold_left (fun s a => g a s) l s = s +:+ str_concat (map f l).
Proof.
  intros H. rewrite <- fold_left_append.
  revert s. induction l as [|a l IH]; intros s; simpl; [reflexivity|].
  now rewrite H, IH.
Qed.

(** The three nested loops build the bit stream of the spec. *)
Lemma image_bitstring_bitstream (img : Image Z) (bits : Z) :
  0 <= bits -> image_bitstring img bits = bitstream img bits.
Proof.
  intros H. unfold image_bitstring, bitstream, pixels_row_major.
  rewrite (fold_left_groups (fun y s => add_row img bits y s)
             (fun y => str_concat (map (fun x => pixel_group bits (getpixel img (x, y)))
                                       (Py.range (Z.of_nat (width img)))))).
  - rewrite str_app_nil_l, !range_nat, concat_map, str_concat_concat, !map_map.
    f_equal. apply map_ext. intros y.
    rewrite !map_map. reflexivity.
  - intros y s. unfold add_row.
    apply (fold_left_groups (fun x s => add_pixel bits (getpixel img (x, y)) s)).
    intros x s'. now apply add_pixel_group.
Qed.

End BitPacker.

(** ** Positions in the bit stream *)

Section Positions.

Lemma chars_app (a b : string) :
  list_ascii_of_string (a +:+ b)
  = (list_ascii_of_string a ++ list_ascii_of_string b)%list.
Proof.
  induction a as [|c a IH]; [reflexivity|].
  rewrite str_app_cons. simpl. now rewrite IH.
Qed.

Lemma chars_concat (l : list string) :
  list_ascii_of_string (str_concat l) = concat (map list_ascii_of_string l).
Proof.
  induction l as [|a l IH]; simpl; [reflexivity|].
  now rewrite chars_app, IH.
Qed.

Lemma chars_length (s : string) :
  length (list_ascii_of_string s) = String.length s.
Proof. induction s as [|c s IH]; simpl; [reflexivity | now rewrite IH]. Qed.

Lemma get_chars (s : string) (k : nat) :
  String.get k s = nth_error (list_ascii_of_string s) k.
Proof.
  revert k. induction s as [|c s IH]; intros [|k]; simpl; try reflexivity.
  apply IH.
Qed.

(** In a concatenation of blocks of [n] elements, position [k] is position
    [k mod n] of block [k / n]. *)
Lemma nth_error_concat_blocks {A} (blocks : list (list A)) (n k : nat) :
  (forall b, In b blocks -> length b = n) -> n <> 0%nat ->
  nth_error (concat blocks) k
  = match nth_error blocks (k / n) with
    | Some b => nth_error b (k mod n)
    | None => None
    end.
Proof.
  intros Hlen Hn. revert k.
  assert (Hnil : forall B (i : nat), nth_error (@nil B) i = None)
    by (intros B [|i]; reflexivity).
  induction blocks as [|b blocks IH]; intros k; simpl.
  - now rewrite !Hnil.
  - assert (Hb : length b = n) by (apply Hlen; now left).
    destruct (Nat.lt_ge_cases k n) as [Hk|Hk].
    + rewrite Nat.div_small, Nat.mod_small by assumption. simpl.
      apply nth_error_app1. lia.
    + rewrite nth_error_app2 by lia.
      rewrite IH by (intros b' Hb'; apply Hlen; now right).
      assert (E : k = ((k - n) + 1 * n)%nat) by lia.
      assert (E1 : (k / n)%nat = S ((k - n) / n))
        by (rewrite E at 1; rewrite Nat.div_add by assumption; lia).
      assert (E2 : (k mod n)%nat = ((k - n) mod n)%nat)
        by (rewrite E at 1; apply Nat.Div0.mod_add).
      rewrite E1, E2, Hb. reflexivity.
Qed.

Lemma concat_blocks_length {A} (blocks : list (list A)) (n : nat) :
  (forall b, In b blocks -> length b = n) ->
  length (concat blocks) = (length blocks * n)%nat.
Proof.
  intros Hlen. induction blocks as [|b blocks IH]; simpl; [reflexivity|].
  rewrite length_app, IH by (intros b' Hb'; apply Hlen; now right).
  rewrite (Hlen b) by now left. reflexivity.
Qed.

Lemma pixel_group_chars (bits pixel : Z) :
  list_ascii_of_string (pixel_group bits pixel)
  = map (fun i => if Z.testbit pixel (bits - 1 - Z.of_nat i)
                  then "1"%char else "0"%char)
        (seq 0 (Z.to_nat bits)).
Proof.
  unfold pixel_group. rewrite chars_concat, map_map.
  induction (seq 0 (Z.to_nat bits)) as [|i l IH]; simpl; [reflexivity|].
  rewrite IH. now destruct (Z.testbit pixel (bits - 1 - Z.of_nat i)).
Qed.

Lemma pixel_group_length (bits pixel : Z) :
  String.length (pixel_group bits pixel) = Z.to_nat bits.
Proof.
  now rewrite <- chars_length, pixel_group_chars, length_map, length_seq.
Qed.

Lemma pixels_row_major_length (img : Image Z) :
  length (pixels_row_major img) = (height img * width img)%nat.
Proof.
  unfold pixels_row_major.
  rewrite (concat_blocks_length _ (width img)).
  - now rewrite length_map, length_seq.
  - intros b Hb. apply in_map_iff in Hb as (y & <- & _).
    now rewrite length_map, length_seq.
Qed.

(** Pixel number [p] of the row-major order sits in column [p mod W] of
    row [p / W]. *)
Lemma pixels_row_major_nth (img : Image Z) (p : nat) :
  (p < height img * width img)%nat ->
  nth_error (pixels_row_major img) p
  = Some (getpixel img (Z.of_nat (p mod width img), Z.of_nat (p / width img))).
Proof.
  intros Hp. unfold pixels_row_major.
  assert (Hw : width img <> 0%nat) by (intros E; rewrite E in Hp; lia).
  rewrite (nth_error_concat_blocks _ (width img)); [| |assumption].
  - assert (Hy : (p / width img < height img)%nat)
      by (apply Nat.Div0.div_lt_upper_bound; lia).
    rewrite nth_error_map, nth_error_seq.
    rewrite (proj2 (Nat.ltb_lt _ _) Hy). simpl.
    rewrite nth_error_map, nth_error_seq.
    assert (Hx : (p mod width img < width img)%nat)
      by (apply Nat.mod_upper_bound; assumption).
    rewrite (proj2 (Nat.ltb_lt _ _) Hx). reflexivity.
  - intros b Hb. apply in_map_iff in Hb as (y & <- & _).
    now rewrite length_map, length_seq.
Qed.

Lemma bitstream_length (img : Image Z) (bits : Z) :
  String.length (bitstream img bits)
  = (height img * width img * Z.to_nat bits)%nat.
Proof.
  unfold bitstream.
  rewrite <- chars_length, chars_concat, map_map.
  rewrite (concat_blocks_length _ (Z.to_nat bits)).
  - now rewrite length_map, pixels_row_major_length.
  - intros b Hb. apply in_map_iff in Hb as (px & <- & _).
    rewrite chars_length. apply pixel_group_length.
Qed.

Lemma bitstream_get (img : Image Z) (bits : Z) (k : nat) :
  0 < bits ->
  (k < height img * width img * Z.to_nat bits)%nat ->
  let p := (k / Z.to_nat bits)%nat in
  String.get k (bitstream img bits)
  = Some (if Z.testbit
               (getpixel img (Z.of_nat (p mod width img), Z.of_nat (p / width img)))
               (bits - 1 - Z.of_nat (k mod Z.to_nat bits))
          then "1"%char else "0"%char).
Proof.
  intros Hbits Hk p. unfold bitstream.
  rewrite get_chars, chars_concat, map_map.
  assert (Hn : Z.to_nat bits <> 0%nat) by lia.
  rewrite (nth_error_concat_blocks _ (Z.to_nat bits)); [| |assumption].
  - assert (Hp : (p < height img * width img)%nat)
      by (apply Nat.Div0.div_lt_upper_bound; lia).
    rewrite nth_error_map. fold p.
    rewrite (pixels_row_major_nth img p Hp). simpl.
    rewrite pixel_group_chars, nth_error_map, nth_error_seq.
    assert (Hj : (k mod Z.to_nat bits < Z.to_nat bits)%nat)
      by (apply Nat.mod_upper_bound; assumption).
    rewrite (proj2 (Nat.ltb_lt _ _) Hj). reflexivity.
  - intros b Hb. apply in_map_iff in Hb as (px & <- & _).
    rewrite chars_length. apply pixel_group_length.
Qed.

(** The length of the bit string and the bit at each of its positions. *)
Lemma image_bitstring_len (img : Image Z) (bits : Z) :
  0 <= bits ->
  Py.len (image_bitstring img bits)
  = Z.of_nat (width img) * Z.of_nat (height img) * bits.
Proof.
  intros Hbits. rewrite image_bitstring_bitstream by assumption.
  unfold Py.len. rewrite bitstream_length. lia.
Qed.

Lemma image_bitstring_get (img : Image Z) (bits k : Z) :
  0 < bits ->
  0 <= k < Z.of_nat (width img) * Z.of_nat (height img) * bits ->
  String.get (Z.to_nat k) (image_bitstring img bits)
  = Some (if Z.testbit (getpixel img ((k / bits) mod Z.of_nat (width img),
                                      k / bits / Z.of_nat (width img)))
                       (bits - 1 - k mod bits)
          then "1"%char else "0"%char).
Proof.
  intros Hbits Hk. rewrite image_bitstring_bitstream by lia.
  assert (Hn : (Z.to_nat k < height img * width img * Z.to_nat bits)%nat)
    by lia.
  rewrite (bitstream_get img bits (Z.to_nat k)) by (lia || assumption).
  cbv zeta.
  rewrite !Nat2Z.inj_mod, !Nat2Z.inj_div, !Z2Nat.id by lia.
  reflexivity.
Qed.

End Positions.

(** C2. For a bit depth in 1..8 the bit string the loops build is the
    concatenation of the pixels' groups in row-major order (row 0 left to
    right, then row 1, ...), each group the pixel's index on [bits] bits,
    most significant bit first: it has [W * H * bits] characters, and
    character [k] is bit [bits - 1 - k mod bits] of the pixel in column
    [(k / bits) mod W] of row [(k / bits) / W]. *)
Theorem bitstream_row_major_msb_first (img : Image Z) (bits : Z) :
  1 <= bits <= 8 ->
  let W := Z.of_nat (width img) in
  let H := Z.of_nat (height img) in
  image_bitstring img bits = bitstream img bits /\
  Py.len (image_bitstring img bits) = W * H * bits /\
  forall k, 0 <= k < W * H * bits ->
    String.get (Z.to_nat k) (image_bitstring img bits)
    = Some (if Z.testbit (getpixel img ((k / bits) mod W, k / bits / W))
                         (bits - 1 - k mod bits)
            then "1"%char else "0"%char).
Proof.
  intros Hbits W H. split; [|split].
  - apply image_bitstring_bitstream. lia.
  - apply image_bitstring_len. lia.
  - intros k Hk. apply image_bitstring_get; [lia | assumption].
Qed.

Lemma bitstream_row_major_msb_first_witness :
  let img := image_of_rows [[1; 2; 3]; [4; 5; 6]] [] in
  image_bitstring img 4 = "000100100011010001010110" /\
  String.get 13 (image_bitstring img 4) = Some "1"%char.
Proof.
  destruct (bitstream_row_major_msb_first
              (image_of_rows [[1; 2; 3]; [4; 5; 6]] []) 4 ltac:(lia))
    as (E & _ & G).
  split; [rewrite E; reflexivity|].
  apply (G 13). simpl. lia.
Defined.

(** C3. The color packer is a function of the three channels alone: for
    channels in 0..255 the word is [(R & 0xF8) << 8 | (G & 0xFC) << 3 |
    (B >> 3)], that is R's five, G's six and B's five leading bits side
    by side in 16 bits; the loop then always swaps its two bytes, low
    byte first, before rendering it.  (248,252,255) gives 0xFFFF before
    and after the swap, (248,0,0) gives 0xF800 before and 0x00F8 after. *)
Theorem color_packer_rgb565 (r g b : Z) :
  0 <= r < 256 -> 0 <= g < 256 -> 0 <= b < 256 ->
  let word := color565 r g b in
  word = Z.lor (Z.lor (Z.shiftl (Z.land r 0xF8) 8) (Z.shiftl (Z.land g 0xFC) 3))
               (Z.shiftr b 3) /\
  word = r / 8 * 2048 + g / 4 * 32 + b / 8 /\
  0 <= word < 65536 /\
  swap_bytes word = word mod 256 * 256 + word / 256 /\
  (forall palette color,
     palette_at palette (color * 3) = Some r ->
     palette_at palette (color * 3 + 1) = Some g ->
     palette_at palette (color * 3 + 2) = Some b ->
     pack_color palette color
     = Some ("0x" +:+ Py.format_0x 4 (swap_bytes word))) /\
  (color565 248 252 255 = 0xFFFF /\ swap_bytes 0xFFFF = 0xFFFF) /\
  (color565 248 0 0 = 0xF800 /\ swap_bytes 0xF800 = 0x00F8).
Proof.
  intros Hr Hg Hb word.
  assert (Hw : word = r / 8 * 2048 + g / 4 * 32 + b / 8)
    by now apply color565_fields.
  assert (Hrange : 0 <= word < 65536).
  { assert (0 <= r / 8 < 32)
      by (split; [apply Z.div_pos | apply Z.div_lt_upper_bound]; lia).
    assert (0 <= g / 4 < 64)
      by (split; [apply Z.div_pos | apply Z.div_lt_upper_bound]; lia).
    assert (0 <= b / 8 < 32)
      by (split; [apply Z.div_pos | apply Z.div_lt_upper_bound]; lia).
    lia. }
  repeat split; try reflexivity; try lia.
  - now apply swap_bytes_word.
  - intros palette color Er Eg Eb. unfold pack_color.
    rewrite Er, Eg, Eb. reflexivity.
Qed.

Lemma color_packer_rgb565_witness :
  color565 200 100 50 = 200 / 8 * 2048 + 100 / 4 * 32 + 50 / 8 /\
  pack_color [200; 100; 50] 0 = Some "0x26cb".
Proof.
  destruct (color_packer_rgb565 200 100 50 ltac:(lia) ltac:(lia) ltac:(lia))
    as (_ & E & _ & _ & P & _).
  split; [exact E|].
  rewrite (P [200; 100; 50] 0); reflexivity.
Defined.

(** ** The threshold path *)

Section Threshold.

Lemma pixel_group_one (pixel : Z) :
  pixel_group 1 pixel = if Z.land pixel 1 =? 0 then "0" else "1".
Proof.
  unfold pixel_group. change (Z.to_nat 1) with 1%nat.
  cbn [seq map str_concat fold_right]. rewrite str_app_nil_r.
  change (1 - 1 - Z.of_nat 0) with 0.
  pose proof (land_bit_zero pixel 0 ltac:(lia)) as B.
  change (Z.shiftl 1 0) with 1 in B. rewrite B.
  now destruct (Z.testbit pixel 0).
Qed.

Lemma pixels_row_major_in (img : Image Z) (px : Z) :
  In px (pixels_row_major img) -> exists xy, px = getpixel img xy.
Proof.
  unfold pixels_row_major. intros H.
  apply in_concat in H as (row & Hrow & Hpx).
  apply in_map_iff in Hrow as (y & <- & _).
  apply in_map_iff in Hpx as (x & <- & _).
  now eexists.
Qed.

(** A stream of one-bit groups that are all [c] is [c] repeated. *)
Lemma bitstream_constant (img : Image Z) (c : string) :
  (forall xy, pixel_group 1 (getpixel img xy) = c) ->
  bitstream img 1 = str_concat (repeat c (height img * width img)).
Proof.
  intros H. unfold bitstream.
  rewrite <- pixels_row_major_length, <- map_const. f_equal.
  apply map_ext_in. intros px Hpx.
  apply pixels_row_major_in in Hpx as (xy & ->). apply H.
Qed.

End Threshold.

(** C4. With [bits == 1] quantization is a fixed threshold on the
    luminance L that [convert("L")] gives a pixel: the palette is forced
    to index 0 = (0,0,0), index 1 = (255,255,255) (emitted as 0x0000 and
    0xffff), and the one-bit index packed for a pixel is 1 when L > 127
    and 0 when L <= 127.  So 127 gives 0 and 128 gives 1, a solid white
    image gives a stream of 1s and a solid black one a stream of 0s.
    [convert("P")] is Pillow's; all that is used of it is that a set
    bilevel value (255) gets an odd index and a clear one (0) an even
    index. *)
Theorem one_bit_threshold (luma : rgb -> Z) (to_P : Z -> Z)
    (quantize : Image rgb -> Z -> list Z * (Z * Z -> Z)) (src : Image rgb) :
  Z.land (to_P 255) 1 = 1 -> Z.land (to_P 0) 1 = 0 ->
  let img := to_indexed luma to_P quantize src 1 in
  let L := fun xy => luma (getpixel src xy) in
  let W := Z.of_nat (width src) in
  let H := Z.of_nat (height src) in
  (getpalette img = bw_palette /\
   firstn 6 bw_palette = [0; 0; 0; 255; 255; 255] /\
   pack_colors (getpalette img) 1 = Some ["0x0000"; "0xffff"]) /\
  (forall xy, Z.land (getpixel img xy) 1 = if L xy >? 127 then 1 else 0) /\
  (forall xy s, add_pixel 1 (getpixel img xy) s
                = s +:+ (if L xy >? 127 then "1" else "0")) /\
  (Py.len (image_bitstring img 1) = W * H /\
   forall k, 0 <= k < W * H ->
     String.get (Z.to_nat k) (image_bitstring img 1)
     = Some (if L (k mod W, k / W) >? 127 then "1"%char else "0"%char)) /\
  ((forall xy, L xy = 255) ->
   image_bitstring img 1 = str_concat (repeat "1" (height src * width src))) /\
  ((forall xy, L xy = 0) ->
   image_bitstring img 1 = str_concat (repeat "0" (height src * width src))) /\
  (forall xy, L xy = 127 -> Z.land (getpixel img xy) 1 = 0) /\
  (forall xy, L xy = 128 -> Z.land (getpixel img xy) 1 = 1).
Proof.
  intros Hset Hclear img L W H.
  assert (Hpix : forall xy, Z.land (getpixel img xy) 1 = if L xy >? 127 then 1 else 0).
  { intros xy. subst img L. unfold to_indexed. simpl.
    unfold threshold. destruct (luma (getpixel src xy) >? 127); assumption. }
  assert (Hgroup : forall xy, pixel_group 1 (getpixel img xy)
                              = if L xy >? 127 then "1" else "0").
  { intros xy. rewrite pixel_group_one, Hpix. now destruct (L xy >? 127). }
  assert (Hdim : width img = width src /\ height img = height src)
    by (split; reflexivity).
  destruct Hdim as [Hw Hh].
  split; [repeat split|].
  split; [exact Hpix|].
  split; [intros xy s; rewrite add_pixel_group by lia; now rewrite Hgroup|].
  split; [split|].
  - rewrite image_bitstring_len, Hw, Hh by lia. subst W H. lia.
  - intros k Hk.
    rewrite image_bitstring_get by (rewrite ?Hw, ?Hh; subst W H; lia).
    rewrite Z.div_1_r, Z.mod_1_r, Hw. change (1 - 1 - 0) with 0.
    subst W. set (xy := (k mod Z.of_nat (width src), k / Z.of_nat (width src))).
    specialize (Hpix xy).
    pose proof (land_bit_zero (getpixel img xy) 0 ltac:(lia)) as B.
    change (Z.shiftl 1 0) with 1 in B. rewrite Hpix in B.
    destruct (L xy >? 127), (Z.testbit (getpixel img xy) 0); simpl in B;
      (reflexivity || discriminate).
  - split; [|split; [|split]].
    + intros Hwhite. rewrite image_bitstring_bitstream by lia.
      rewrite <- Hw, <- Hh. apply bitstream_constant.
      intros xy. now rewrite Hgroup, Hwhite.
    + intros Hblack. rewrite image_bitstring_bitstream by lia.
      rewrite <- Hw, <- Hh. apply bitstream_constant.
      intros xy. now rewrite Hgroup, Hblack.
    + intros xy E. now rewrite Hpix, E.
    + intros xy E. now rewrite Hpix, E.
Qed.

Lemma one_bit_threshold_witness :
  let src := grey_row [127; 128; 255; 0] in
  let img := to_indexed luma601 (fun v => v) ramp_quantize src 1 in
  Z.land (getpixel img (1, 0)) 1
  = (if luma601 (getpixel src (1, 0)) >? 127 then 1 else 0) /\
  image_bitstring img 1 = "0110".
Proof.
  destruct (one_bit_threshold luma601 (fun v => v) ramp_quantize
              (grey_row [127; 128; 255; 0]) eq_refl eq_refl)
    as (_ & Hpix & _).
  split; [exact (Hpix (1, 0)) | reflexivity].
Defined.

(** ** Module Emitter *)

Section Emitter.

Lemma writes_ret (f : path) : writes f [] (mret tt).
Proof.
  intros [m l] c H. simpl in *. unfold mret, M_ret, ret. f_equal.
  rewrite str_app_nil_r, app_nil_r. f_equal. symmetry. now apply insert_id.
Qed.

Lemma writes_write (f : path) (t : string) : writes f [t] (write f t).
Proof.
  intros w c H. unfold write. rewrite H. simpl. now rewrite str_app_nil_r.
Qed.

Lemma writes_bind (f : path) (l1 l2 : list string) (m k : M unit) :
  writes f l1 m -> writes f l2 k -> writes f (l1 ++ l2) (m;; k).
Proof.
  intros Hm Hk w c H. unfold mbind, M_bind, bind.
  rewrite (Hm w c H).
  rewrite (Hk _ (c +:+ str_concat l1)) by (simpl; apply lookup_insert_eq).
  simpl. f_equal.
  rewrite insert_insert_eq, str_concat_app, str_app_assoc, map_app, app_assoc.
  reflexivity.
Qed.

Lemma writes_for_each {A} (f : path) (l : list A) (body : A -> M unit)
    (texts : A -> list string) :
  (forall a, In a l -> writes f (texts a) (body a)) ->
  writes f (concat (map texts l)) (for_each l body).
Proof.
  induction l as [|a l IH]; intros H; simpl.
  - apply writes_ret.
  - apply writes_bind; [apply H; now left|].
    apply IH. intros a' Ha'. apply H. now right.
Qed.

End Emitter.

Section BitmapLiteral.

(** The value of [r] binary digits is below [2 ^ r]: a group shorter than
    eight digits fills the low end of its byte. *)
Lemma bits_value_bound (s : string) :
  0 <= bits_value s < 2 ^ Z.of_nat (String.length s).
Proof.
  unfold bits_value. rewrite <- chars_length.
  assert (G : forall l acc, 0 <= acc ->
            let v := fold_left
                       (fun acc c => 2 * acc + (if Ascii.eqb c "1" then 1 else 0))
                       l acc in
            acc * 2 ^ Z.of_nat (length l) <= v
            < (acc + 1) * 2 ^ Z.of_nat (length l)).
  { induction l as [|c l IH]; intros acc Hacc; cbn [fold_left length].
    - cbv zeta. change (2 ^ Z.of_nat 0) with 1. lia.
    - cbv zeta. rewrite Nat2Z.inj_succ, Z.pow_succ_r by lia.
      specialize (IH (2 * acc + (if Ascii.eqb c "1" then 1 else 0))).
      cbv zeta in IH.
      assert (0 <= 2 ^ Z.of_nat (length l)) by (apply Z.pow_nonneg; lia).
      destruct (Ascii.eqb c "1"); specialize (IH ltac:(lia)); nia. }
  specialize (G (list_ascii_of_string s) 0 ltac:(lia)). cbv zeta in G. lia.
Qed.

Lemma chars_substring (s : string) (n m : nat) :
  list_ascii_of_string (substring n m s)
  = firstn m (skipn n (list_ascii_of_string s)).
Proof.
  revert n m. induction s as [|c s IH]; intros n m; simpl.
  - destruct n, m; reflexivity.
  - destruct n as [|n].
    + destruct m as [|m]; [reflexivity|]. simpl. f_equal.
      rewrite IH. reflexivity.
    + rewrite IH. reflexivity.
Qed.

Lemma bit_string_substring (s : string) (n m : nat) :
  bit_string s -> bit_string (substring n m s).
Proof.
  unfold bit_string. intros H. rewrite chars_substring.
  apply Forall_take, Forall_drop, H.
Qed.

Lemma bit_string_pixel_group (bits pixel : Z) :
  bit_string (pixel_group bits pixel).
Proof.
  unfold bit_string. rewrite pixel_group_chars.
  apply List.Forall_forall. intros c Hc.
  apply in_map_iff in Hc as (i & <- & _).
  destruct (Z.testbit _ _); [now right | now left].
Qed.

Lemma bit_string_bitstream (img : Image Z) (bits : Z) :
  bit_string (bitstream img bits).
Proof.
  unfold bit_string, bitstream. rewrite chars_concat, map_map.
  apply List.Forall_forall. intros c Hc.
  apply in_concat in Hc as (g & Hg & Hc).
  apply in_map_iff in Hg as (px & <- & _).
  pose proof (bit_string_pixel_group bits px) as B.
  unfold bit_string in B. rewrite List.Forall_forall in B. now apply B.
Qed.

Lemma int2_acc_bits (s : string) (acc : Z) :
  bit_string s ->
  Py.int2_acc acc s
  = Some (fold_left (fun acc c => 2 * acc + (if Ascii.eqb c "1" then 1 else 0))
                    (list_ascii_of_string s) acc).
Proof.
  unfold bit_string. revert acc.
  induction s as [|c s IH]; intros acc H; simpl; [reflexivity|].
  inversion H as [|? ? Hc Hs]; subst.
  destruct Hc as [-> | ->]; simpl; rewrite IH by assumption;
    do 2 f_equal; lia.
Qed.

(** [int(value, 2)] succeeds on a non-empty string of binary digits. *)
Lemma int2_bits (s : string) :
  bit_string s -> s <> "" -> Py.int2 s = Some (bits_value s).
Proof.
  intros H Hne. destruct s as [|c s]; [congruence|].
  unfold Py.int2. now apply int2_acc_bits.
Qed.

Lemma slice_nonempty (s : string) (i : Z) :
  0 <= i < Py.len s -> Py.slice s i (i + 8) <> "".
Proof.
  unfold Py.len, Py.slice. intros H E.
  apply (f_equal String.length) in E.
  rewrite substring_length in E. simpl in E. lia.
Qed.

Lemma in_range_by_8 (n i : Z) :
  In i (Py.range3 0 n 8) -> 0 <= i < n.
Proof.
  intros H. destruct (Z.le_gt_cases 0 n) as [Hn|Hn].
  - rewrite range_by_8 in H by assumption.
    apply in_map_iff in H as (j & <- & Hj). apply in_seq in Hj.
    assert (Z.of_nat j < (n + 7) / 8) by lia.
    assert (Z.of_nat j * 8 + 8 <= (n + 7) / 8 * 8) by lia.
    pose proof (Z.mul_div_le (n + 7) 8 ltac:(lia)). lia.
  - unfold Py.range3, Py.range_len in H. simpl in H.
    replace (n - 0 + 8 - 1) with (n + 7) in H by lia.
    assert ((n + 7) / 8 < 1) by (apply Z.div_lt_upper_bound; lia).
    replace (Z.to_nat ((n + 7) / 8)) with 0%nat in H by lia.
    destruct H.
Qed.

Lemma write_bitmap_writes (f : path) (s : string) :
  bit_string s ->
  writes f (concat (map (turn_texts s) (Py.range3 0 (Py.len s) 8)))
         (write_bitmap f s (Py.len s)).
Proof.
  intros Hs. unfold write_bitmap. apply writes_for_each.
  intros i Hi. apply in_range_by_8 in Hi.
  unfold turn_texts. apply writes_bind.
  - destruct (negb (i =? 0) && (i mod (16 * 8) =? 0));
      [apply writes_write | apply writes_ret].
  - rewrite int2_bits;
      [| now apply bit_string_substring | now apply slice_nonempty].
    apply writes_write.
Qed.

Lemma literal_turns (s : string) (a n : nat) :
  str_concat (concat (map (turn_texts s)
                          (map (fun j => Z.of_nat j * 8) (seq a n))))
  = literal_from a (map (fun j => bits_value (Py.slice s (Z.of_nat j * 8)
                                                       (Z.of_nat j * 8 + 8)))
                        (seq a n)).
Proof.
  revert a. induction n as [|n IH]; intros a; [reflexivity|].
  change (seq a (S n)) with (a :: seq (S a) n).
  cbn [map concat literal_from].
  rewrite str_concat_app, IH. unfold turn_texts at 1.
  rewrite str_concat_app.
  assert (E0 : (Z.of_nat a * 8 =? 0) = (a =? 0)%nat).
  { destruct (Nat.eqb_spec a 0) as [->|Hne]; [reflexivity|].
    apply Z.eqb_neq. lia. }
  assert (E16 : (Z.of_nat a * 8 mod (16 * 8) =? 0) = (a mod 16 =? 0)%nat).
  { rewrite Z.mul_mod_distr_r by lia.
    change 16 with (Z.of_nat 16). rewrite <- Nat2Z.inj_mod.
    destruct (Nat.eqb_spec (a mod 16) 0) as [->|Hne]; [reflexivity|].
    apply Z.eqb_neq. lia. }
  rewrite E0, E16.
  destruct (negb (a =? 0)%nat && (a mod 16 =? 0)%nat);
    cbn [str_concat fold_right];
    now rewrite ?str_app_nil_r, ?str_app_nil_l, ?str_app_assoc.
Qed.

(** All the loop writes is the literal of the bytes of the bit string. *)
Lemma bitmap_texts_literal (s : string) :
  str_concat (concat (map (turn_texts s) (Py.range3 0 (Py.len s) 8)))
  = literal_text (bitmap_bytes s).
Proof.
  unfold literal_text, bitmap_bytes.
  rewrite range_by_8 by (unfold Py.len; lia).
  rewrite literal_turns, map_map. reflexivity.
Qed.

(** One byte per started group of eight bits. *)
Lemma bitmap_bytes_length (s : string) :
  Z.of_nat (length (bitmap_bytes s)) = (Py.len s + 7) / 8.
Proof.
  unfold bitmap_bytes.
  rewrite range_by_8 by (unfold Py.len; lia).
  rewrite !length_map, length_seq.
  apply Z2Nat.id. apply Z.div_pos; unfold Py.len; lia.
Qed.

(** Every byte of the literal is a value of at most eight binary digits. *)
Lemma bitmap_bytes_range (s : string) :
  List.Forall (fun b => 0 <= b < 256) (bitmap_bytes s).
Proof.
  apply List.Forall_forall. intros b Hb. unfold bitmap_bytes in Hb.
  apply in_map_iff in Hb as (i & <- & _).
  pose proof (bits_value_bound (Py.slice s i (i + 8))) as B.
  assert (L : (String.length (Py.slice s i (i + 8)) <= 8)%nat).
  { unfold Py.slice. rewrite substring_length.
    replace (Z.to_nat (i + 8 - i)) with 8%nat by lia. lia. }
  assert (2 ^ Z.of_nat (String.length (Py.slice s i (i + 8))) <= 2 ^ 8)
    by (apply Z.pow_le_mono_r; lia).
  lia.
Qed.

(** A byte is rendered in four characters, [\xHH]. *)
Lemma byte_text_length (b : Z) :
  0 <= b < 256 -> String.length ("\x" +:+ Py.format_0x 2 b) = 4%nat.
Proof.
  intros H. apply Nat.eqb_eq.
  apply (range_forallb 256
           (fun b => (String.length ("\x" +:+ Py.format_0x 2 b) =? 4)%nat));
    [vm_compute; reflexivity | assumption].
Qed.

End BitmapLiteral.

Section ModuleText.

Lemma write_module_writes (f : path) (img : Image Z) (bits : Z)
    (colors : list string) (s : string) :
  bit_string s ->
  writes f (module_texts img bits colors s)
         (write_module f img bits colors s (Py.len s)).
Proof.
  intros Hs. unfold write_module, module_texts.
  repeat (apply writes_bind; [first [apply writes_write
                                    | now apply write_bitmap_writes]|]).
  apply writes_write.
Qed.

Lemma module_texts_artifact (img : Image Z) (bits : Z)
    (colors : list string) (s : string) :
  str_concat (module_texts img bits colors s)
  = artifact (Z.of_nat (height img)) (Z.of_nat (width img)) (Z.shiftl 1 bits)
             (Py.len s) bits colors (bitmap_bytes s).
Proof.
  unfold module_texts, artifact.
  rewrite !str_concat_app, bitmap_texts_literal.
  cbn [str_concat fold_right].
  now rewrite ?str_app_nil_r, ?str_app_assoc.
Qed.

End ModuleText.

(** ** The palette loop *)

Section PaletteLoop.



Lemma pack_color_some (palette : list Z) (c : Z) :
  0 <= c -> 3 * c + 2 < Z.of_nat (length palette) ->
  is_Some (pack_color palette c).
Proof.
  intros Hc Hlen. unfold pack_color, palette_at.
  destruct (lookup_lt_is_Some_2 palette (Z.to_nat (c * 3)) ltac:(lia)) as [r ->].
  destruct (lookup_lt_is_Some_2 palette (Z.to_nat (c * 3 + 1)) ltac:(lia)) as [g ->].
  destruct (lookup_lt_is_Some_2 palette (Z.to_nat (c * 3 + 2)) ltac:(lia)) as [b ->].
  simpl. eauto.
Qed.

Lemma pack_colors_from_some (palette : list Z) (todo : list Z)
    (acc : list string) :
  (forall c, In c todo -> 0 <= c /\ 3 * c + 2 < Z.of_nat (length palette)) ->
  is_Some (pack_colors_from palette todo acc).
Proof.
  revert acc. induction todo as [|c todo IH]; intros acc H; simpl.
  - eauto.
  - destruct (pack_color_some palette c) as [x ->];
      [apply H; now left .. |].
    simpl. apply IH. intros c' Hc'. apply H. now right.
Qed.

(** A palette of at least [2 ^ bits] colors carries the loop through. *)
Lemma pack_colors_some (palette : list Z) (bits : Z) :
  0 <= bits -> 3 * 2 ^ bits <= Z.of_nat (length palette) ->
  is_Some (pack_colors palette bits).
Proof.
  intros Hb Hlen. apply pack_colors_from_some.
  intros c Hc. apply in_range in Hc. rewrite Z.shiftl_1_l in Hc. lia.
Qed.

End PaletteLoop.

(** ** Running computations *)

Section Runs.

Lemma bind_run {A B} (m : M A) (k : A -> M B) (w w1 : world) (a : A) :
  m w = (Return a, w1) -> (m ≫= k) w = k a w1.
Proof. intros H. unfold mbind, M_bind, bind. now rewrite H. Qed.

Lemma bind_raise {A B} (m : M A) (k : A -> M B) (w w1 : world) (e : exn) :
  m w = (Raise e, w1) -> (m ≫= k) w = (Raise e, w1).
Proof. intros H. unfold mbind, M_bind, bind. now rewrite H. Qed.

Lemma bind_return {A B} (m : M A) (k : A -> M B) (w w' : world) (b : B) :
  (m ≫= k) w = (Return b, w') ->
  exists a w1, m w = (Return a, w1) /\ k a w1 = (Return b, w').
Proof.
  unfold mbind, M_bind, bind. destruct (m w) as [[a|e] w1]; intros H.
  - now exists a, w1.
  - discriminate.
Qed.

Lemma lift_return {A} (e : exn) (o : option A) (w w' : world) (a : A) :
  lift e o w = (Return a, w') -> o = Some a /\ w' = w.
Proof.
  destruct o as [x|]; unfold lift, ret, raise; intros H;
    [injection H as -> -> | discriminate]. now split.
Qed.

Lemma world_eta (w : world) : mkWorld (fs w) (calls w) = w.
Proof. now destruct w. Qed.

Lemma make_dirs_keeps (qs : list path) (m : gmap path node) (p : path) (n : node) :
  m !! p = Some n -> make_dirs qs m !! p = Some n.
Proof.
  revert m. induction qs as [|q qs IH]; intros m H; simpl; [assumption|].
  apply IH. destruct (m !! q) eqn:E; [assumption|].
  rewrite lookup_insert_ne; [assumption | congruence].
Qed.

Lemma make_dirs_other (qs : list path) (m : gmap path node) (p : path) :
  ~ In p qs -> make_dirs qs m !! p = m !! p.
Proof.
  revert m. induction qs as [|q qs IH]; intros m H; simpl; [reflexivity|].
  rewrite IH by (intros Hin; apply H; now right).
  destruct (m !! q); [reflexivity|].
  apply lookup_insert_ne. intros ->. apply H. now left.
Qed.

Lemma make_dirs_made (qs : list path) (m : gmap path node) (q : path) :
  In q qs -> (forall c, m !! q <> Some (File c)) ->
  make_dirs qs m !! q = Some Dir.
Proof.
  revert m. induction qs as [|q' qs IH]; intros m Hin Hfile; simpl;
    [destruct Hin|].
  destruct (decide (q' = q)) as [->|Hne].
  - apply make_dirs_keeps. destruct (m !! q) as [[|c]|] eqn:E.
    + assumption.
    + now destruct (Hfile c).
    + apply lookup_insert_eq.
  - destruct Hin as [->|Hin]; [congruence|].
    apply IH; [assumption|]. intros c.
    destruct (m !! q'); [apply Hfile|].
    rewrite lookup_insert_ne by assumption. apply Hfile.
Qed.

(** With no regular file in the way the directories are made. *)
Lemma for_each_mkdir_run (target : path) (qs : list path) (w : world) :
  (forall q c, In q qs -> fs w !! q <> Some (File c)) ->
  for_each qs (mkdir_one target) w
  = (Return tt, mkWorld (make_dirs qs (fs w)) (calls w)).
Proof.
  revert w. induction qs as [|q qs IH]; intros w H; simpl.
  - unfold mret, M_ret, ret. now rewrite world_eta.
  - unfold mbind, M_bind, bind, mkdir_one at 1.
    destruct (fs w !! q) as [[|c]|] eqn:E.
    + rewrite IH by (intros q' c' Hq'; apply H; now right). reflexivity.
    + exfalso. apply (H q c); [now left | assumption].
    + rewrite IH; [reflexivity|]. simpl. intros q' c' Hq'.
      destruct (decide (q = q')) as [->|Hne].
      * now rewrite lookup_insert_eq.
      * rewrite lookup_insert_ne by assumption. apply H. now right.
Qed.

Lemma mkdir_parents_run (p : path) (w : world) :
  (forall q c, In q (ancestors p) -> fs w !! q <> Some (File c)) ->
  mkdir_parents p w
  = (Return tt, mkWorld (make_dirs (ancestors p) (fs w))
                        (calls w ++ [EvMkdir p])).
Proof.
  intros H. unfold mkdir_parents.
  rewrite (bind_run _ _ w (mkWorld (fs w) (calls w ++ [EvMkdir p])) tt)
    by reflexivity.
  now rewrite for_each_mkdir_run.
Qed.

Lemma in_ancestors (p q : path) :
  In q (ancestors p) <-> exists k, (1 <= k <= length p)%nat /\ q = firstn k p.
Proof.
  unfold ancestors. rewrite in_map_iff. split.
  - intros (k & <- & Hk). apply in_seq in Hk. exists k. split; [lia | reflexivity].
  - intros (k & Hk & ->). exists k. split; [reflexivity|]. apply in_seq. lia.
Qed.

Lemma in_ancestors_self (p : path) : p <> [] -> In p (ancestors p).
Proof.
  intros H. apply in_ancestors. exists (length p). split.
  - destruct p; [congruence | simpl; lia].
  - symmetry. apply firstn_all.
Qed.

Lemma parent_length (p : path) : length (Pathlib.parent p) = (length p - 1)%nat.
Proof.
  unfold Pathlib.parent. induction p as [|a [|b p] IH]; simpl in *; try lia.
Qed.

Lemma not_in_ancestors_parent (p : path) :
  p <> [] -> ~ In p (ancestors (Pathlib.parent p)).
Proof.
  intros Hne Hin. apply in_ancestors in Hin as (k & Hk & E).
  apply (f_equal (@length string)) in E.
  rewrite length_firstn, parent_length in E.
  destruct p; [congruence | simpl in *; lia].
Qed.

(** After [mkdir] the directory is there. *)
Lemma make_dirs_is_dir (p : path) (m : gmap path node) :
  (forall q c, In q (ancestors p) -> m !! q <> Some (File c)) ->
  is_dir_in (make_dirs (ancestors p) m) p = true.
Proof.
  intros H. destruct p as [|a p]; [reflexivity|].
  unfold is_dir_in.
  rewrite make_dirs_made; [reflexivity | now apply in_ancestors_self |].
  intros c. apply H. now apply in_ancestors_self.
Qed.

Lemma open_w_run (p : path) (w : world) :
  p <> [] -> is_dir_in (fs w) (Pathlib.parent p) = true ->
  fs w !! p <> Some Dir ->
  open_w p w
  = (Return p, mkWorld (<[p := File ""]> (fs w)) (calls w ++ [EvOpenW p])).
Proof.
  intros Hne Hdir Hp. unfold open_w.
  rewrite (bind_run _ _ w (mkWorld (fs w) (calls w ++ [EvOpenW p])) tt)
    by reflexivity.
  destruct p as [|a p]; [congruence|].
  unfold create. cbn [fs calls]. rewrite Hdir.
  destruct (fs w !! (a :: p)) as [[|c]|]; [congruence | reflexivity ..].
Qed.

Lemma open_w_return (p f : path) (w w' : world) :
  open_w p w = (Return f, w') ->
  f = p /\ p <> [] /\ is_dir_in (fs w) (Pathlib.parent p) = true /\
  fs w !! p <> Some Dir.
Proof.
  unfold open_w. intros H.
  apply bind_return in H as (u & w1 & H1 & H2).
  unfold log in H1. injection H1 as _ <-.
  unfold create in H2. cbn [fs calls] in H2.
  destruct p as [|a p]; [discriminate|].
  destruct (is_dir_in _ _).
  - destruct (fs w !! (a :: p)) as [[|c]|] eqn:E;
      [discriminate | injection H2 as <- _ ..];
      repeat split; congruence.
  - destruct (fs w !! Pathlib.parent (a :: p)) as [[|c]|]; discriminate.
Qed.

Lemma for_each_mkdir_return (target : path) (qs : list path) (w w' : world) :
  for_each qs (mkdir_one target) w = (Return tt, w') ->
  forall q c, In q qs -> fs w !! q <> Some (File c).
Proof.
  revert w. induction qs as [|q0 qs IH]; intros w H q c Hin; [destruct Hin|].
  simpl in H. apply bind_return in H as (u & w1 & H1 & H2).
  specialize (IH _ H2).
  unfold mkdir_one in H1.
  destruct (fs w !! q0) as [[|c0]|] eqn:E; try discriminate.
  - injection H1 as _ <-. destruct Hin as [<-|Hin]; [congruence | now apply IH].
  - injection H1 as _ <-. destruct Hin as [<-|Hin]; [congruence|].
    destruct (decide (q0 = q)) as [<-|Hne]; [congruence|].
    specialize (IH q c Hin). cbn [fs] in IH.
    now rewrite lookup_insert_ne in IH.
Qed.

Lemma mkdir_parents_return (p : path) (w w' : world) :
  mkdir_parents p w = (Return tt, w') ->
  forall q c, In q (ancestors p) -> fs w !! q <> Some (File c).
Proof.
  unfold mkdir_parents. intros H.
  apply bind_return in H as (u & w1 & H1 & H2).
  unfold log in H1. injection H1 as _ <-.
  exact (for_each_mkdir_return _ _ _ _ H2).
Qed.

End Runs.

(** ** The converters, end to end *)

Section EndToEnd.

Variable Path : string -> path.
Variable readable : path -> bool.
Variable decode : string -> option (Image rgb).
Variable luma : rgb -> Z.
Variable to_P : Z -> Z.
Variable quantize : Image rgb -> Z -> list Z * (Z * Z -> Z).

Lemma lift_run {A} (e : exn) (o : option A) (a : A) (w : world) :
  o = Some a -> lift e o w = (Return a, w).
Proof. now intros ->. Qed.

Lemma is_file_run (p : path) (w : world) :
  is_file p w
  = (Return (match fs w !! p with Some (File _) => true | _ => false end), w).
Proof. reflexivity. Qed.

Lemma Image_open_run (p : path) (w : world) (c : string) (src : Image rgb) :
  fs w !! p = Some (File c) -> decode c = Some src ->
  readable p = true -> zero_size src = false ->
  Image_open readable decode p w
  = (Return src, mkWorld (fs w) (calls w ++ [EvImageOpen p])).
Proof.
  intros Hf Hd Hr Hz. unfold Image_open.
  rewrite (bind_run _ _ w (mkWorld (fs w) (calls w ++ [EvImageOpen p])) tt)
    by reflexivity.
  erewrite bind_run by reflexivity.
  cbn [fs]. now rewrite Hf, Hr, Hd, Hz.
Qed.

Lemma Image_open_return (p : path) (w w' : world) (src : Image rgb) :
  Image_open readable decode p w = (Return src, w') ->
  exists c, fs w !! p = Some (File c) /\ decode c = Some src /\
            w' = mkWorld (fs w) (calls w ++ [EvImageOpen p]) /\
            readable p = true /\ zero_size src = false.
Proof.
  unfold Image_open. intros H.
  apply bind_return in H as (u & w1 & H1 & H).
  unfold log in H1. injection H1 as _ <-.
  apply bind_return in H as (w2 & w3 & H2 & H).
  injection H2 as <- <-. cbn [fs] in H.
  destruct (fs w !! p) as [[|c]|]; try discriminate.
  destruct (readable p); [|discriminate]. cbn [negb] in H.
  destruct (decode c) as [img|] eqn:Hd; [|discriminate].
  destruct (zero_size img) eqn:Hz; [discriminate|].
  injection H as <- <-. now exists c.
Qed.

Lemma with_suffix_nonempty (p out : path) (s : string) :
  Pathlib.with_suffix p s = Some out -> out <> [].
Proof.
  unfold Pathlib.with_suffix, Pathlib.with_name.
  destruct (String.eqb _ ""); [discriminate|].
  destruct (String.eqb _ ""); intros H; injection H as <-;
    now destruct (removelast p).
Qed.

Lemma ensure_py_nonempty (p out : path) : ensure_py p = Some out -> out <> [].
Proof.
  unfold ensure_py.
  destruct (negb _) eqn:E; [apply with_suffix_nonempty|].
  intros H. injection H as <-. intros ->. discriminate.
Qed.

(** Opening [out] and writing the module, from a world where the
    directory of [out] exists. *)
Lemma open_and_write (out : path) (img : Image Z) (bits : Z)
    (colors : list string) (w : world) {A} (k : M A) :
  out <> [] -> is_dir_in (fs w) (Pathlib.parent out) = true ->
  fs w !! out <> Some Dir ->
  let s := image_bitstring img bits in
  0 <= bits ->
  (f ← open_w out; write_module f img bits colors s (Py.len s);; k) w
  = k (mkWorld
         (<[out := File (artifact (Z.of_nat (height img)) (Z.of_nat (width img))
                                  (Z.shiftl 1 bits) (Py.len s) bits colors
                                  (bitmap_bytes s))]> (fs w))
         (calls w ++ [EvOpenW out]
          ++ map (EvWrite out) (module_texts img bits colors s))).
Proof.
  intros Hne Hdir Hout s Hbits.
  erewrite bind_run by (now apply open_w_run).
  erewrite bind_run.
  2: { apply write_module_writes with (c := "").
       - subst s. rewrite image_bitstring_bitstream by assumption.
         apply bit_string_bitstream.
       - cbn [fs]. apply lookup_insert_eq. }
  cbn [fs calls].
  rewrite insert_insert_eq, str_app_nil_l, module_texts_artifact, <- app_assoc.
  reflexivity.
Qed.

Lemma bits_test (bits : Z) :
  (bits <? 1) || (bits >? 8) = false <-> 1 <= bits <= 8.
Proof.
  rewrite orb_false_iff, Z.gtb_ltb, !Z.ltb_ge. lia.
Qed.

Lemma choices_test (bits : Z) :
  existsb (Z.eqb bits) (Py.range3 1 9 1) = true <-> 1 <= bits <= 8.
Proof.
  change (Py.range3 1 9 1) with [1; 2; 3; 4; 5; 6; 7; 8].
  rewrite existsb_exists. split.
  - intros (x & Hx & E). apply Z.eqb_eq in E. subst x. simpl in Hx. lia.
  - intros H. exists bits. split; [simpl; lia | apply Z.eqb_refl].
Qed.

(** [convert_image_to_bitmap] returns, and what it leaves, when the bit
    depth is valid, the source is a file Pillow decodes, the palette is
    long enough for the loop, the out path has a name, no regular file
    stands where a directory is needed, and the out path is no directory. *)
Lemma convert_runs (image_file : string) (bits : Z) (output : option string)
    (w : world) (c : string) (src : Image rgb) (out : path)
    (colors : list string) :
  1 <= bits <= 8 ->
  fs w !! Path image_file = Some (File c) ->
  decode c = Some src ->
  readable (Path image_file) = true -> zero_size src = false ->
  gui_out_path Path image_file output = Some out ->
  pack_colors (getpalette (to_indexed luma to_P quantize src bits)) bits = Some colors ->
  (forall q t, In q (ancestors (Pathlib.parent out)) ->
               fs w !! q <> Some (File t)) ->
  fs w !! out <> Some Dir ->
  convert_image_to_bitmap Path readable decode luma to_P quantize image_file bits output w
  = (Return out,
     converted w [EvImageOpen (Path image_file); EvMkdir (Pathlib.parent out)]
               out (to_indexed luma to_P quantize src bits) bits colors
               (ancestors (Pathlib.parent out))).
Proof.
  intros Hbits Hfile Hdec Hread Hsize Hout Hcolors Hdirs Hnodir.
  unfold convert_image_to_bitmap.
  rewrite (proj2 (bits_test bits) Hbits).
  erewrite bind_run by apply is_file_run. rewrite Hfile. cbn [negb].
  unfold gui_out_path in Hout.
  destruct (default_out_path Path (Path image_file) output) as [o1|] eqn:E1;
    [|discriminate].
  cbn in Hout.
  erewrite bind_run by (now apply lift_run).
  erewrite bind_run by (apply lift_run; exact Hout).
  erewrite bind_run by (eapply Image_open_run; eassumption).
  erewrite bind_run by (apply lift_run; exact Hcolors).
  erewrite bind_run by (apply mkdir_parents_run; exact Hdirs).
  assert (Hne : out <> []) by (eapply ensure_py_nonempty; eassumption).
  rewrite open_and_write; cbn [fs calls]; try lia; try assumption.
  - unfold converted, mret, M_ret, ret. cbn [fs calls].
    rewrite <- !app_assoc. reflexivity.
  - now apply make_dirs_is_dir.
  - rewrite make_dirs_other by now apply not_in_ancestors_parent.
    assumption.
Qed.

(** [main] returns, and what it leaves, under the same conditions but
    that the directory of the out path must be there already. *)
Lemma main_runs (image_file : string) (bits : Z) (output : option string)
    (w : world) (c : string) (src : Image rgb) (out : path)
    (colors : list string) :
  1 <= bits <= 8 ->
  fs w !! Path image_file = Some (File c) ->
  decode c = Some src ->
  readable (Path image_file) = true -> zero_size src = false ->
  default_out_path Path (Path image_file) output = Some out ->
  pack_colors (getpalette (to_indexed luma to_P quantize src bits)) bits = Some colors ->
  out <> [] ->
  is_dir_in (fs w) (Pathlib.parent out) = true ->
  fs w !! out <> Some Dir ->
  main Path readable decode luma to_P quantize image_file bits output w
  = (Return tt,
     let w' := converted w [EvImageOpen (Path image_file)]
                         out (to_indexed luma to_P quantize src bits) bits colors [] in
     mkWorld (fs w') (calls w' ++ [EvPrint ("Wrote " +:+ Pathlib.to_str out)])).
Proof.
  intros Hbits Hfile Hdec Hread Hsize Hout Hcolors Hne Hdir Hnodir.
  unfold main.
  rewrite (proj2 (choices_test bits) Hbits). cbn [negb].
  erewrite bind_run by (apply lift_run; exact Hout).
  erewrite bind_run by (eapply Image_open_run; eassumption).
  erewrite bind_run by (apply lift_run; exact Hcolors).
  rewrite open_and_write; cbn [fs calls]; try lia; try assumption.
  unfold converted, print, log. cbn [fs calls make_dirs fold_left].
  rewrite <- !app_assoc. reflexivity.
Qed.

(** A conversion that returns met the conditions of [convert_runs]. *)
Lemma convert_returns (image_file : string) (bits : Z) (output : option string)
    (w w' : world) (out : path) :
  convert_image_to_bitmap Path readable decode luma to_P quantize image_file bits output w
  = (Return out, w') ->
  exists c src colors,
    1 <= bits <= 8 /\
    fs w !! Path image_file = Some (File c) /\
    decode c = Some src /\
    readable (Path image_file) = true /\ zero_size src = false /\
    gui_out_path Path image_file output = Some out /\
    pack_colors (getpalette (to_indexed luma to_P quantize src bits)) bits = Some colors /\
    (forall q t, In q (ancestors (Pathlib.parent out)) ->
                 fs w !! q <> Some (File t)) /\
    fs w !! out <> Some Dir.
Proof.
  unfold convert_image_to_bitmap. intros H.
  destruct ((bits <? 1) || (bits >? 8)) eqn:Hb; [discriminate|].
  apply bits_test in Hb.
  apply bind_return in H as (found & w1 & H1 & H).
  rewrite is_file_run in H1. injection H1 as <- <-.
  destruct (fs w !! Path image_file) as [[|c]|] eqn:Hfile; try discriminate.
  cbn [negb] in H.
  apply bind_return in H as (o1 & w1 & H1 & H).
  apply lift_return in H1 as [E1 ->].
  apply bind_return in H as (o2 & w1 & H1 & H).
  apply lift_return in H1 as [E2 ->].
  apply bind_return in H as (src & w1 & H1 & H).
  apply Image_open_return in H1 as (c' & Hc' & Hdec & -> & Hread & Hsize).
  rewrite Hfile in Hc'. injection Hc' as <-.
  apply bind_return in H as (colors & w1 & H1 & H).
  apply lift_return in H1 as [Hcol ->].
  apply bind_return in H as ([] & w1 & H1 & H).
  pose proof (mkdir_parents_return _ _ _ H1) as Hdirs. cbn [fs] in Hdirs.
  rewrite mkdir_parents_run in H1 by exact Hdirs. injection H1 as <-.
  apply bind_return in H as (f & w2 & H1 & H).
  apply open_w_return in H1 as (-> & Hne & Hdir & Hnodir).
  apply bind_return in H as (u' & w3 & H1 & H).
  injection H as <- _.
  exists c, src, colors. repeat split; try lia; try assumption.
  - unfold gui_out_path. rewrite E1. exact E2.
  - cbn [fs] in Hnodir.
    now rewrite make_dirs_other in Hnodir by now apply not_in_ancestors_parent.
Qed.

(** A run of [main] that returns met the conditions of [main_runs]. *)
Lemma main_returns (image_file : string) (bits : Z) (output : option string)
    (w w' : world) :
  main Path readable decode luma to_P quantize image_file bits output w
  = (Return tt, w') ->
  exists c src colors out,
    1 <= bits <= 8 /\
    fs w !! Path image_file = Some (File c) /\
    decode c = Some src /\
    readable (Path image_file) = true /\ zero_size src = false /\
    default_out_path Path (Path image_file) output = Some out /\
    pack_colors (getpalette (to_indexed luma to_P quantize src bits)) bits = Some colors /\
    out <> [] /\
    is_dir_in (fs w) (Pathlib.parent out) = true /\
    fs w !! out <> Some Dir.
Proof.
  unfold main. intros H.
  destruct (existsb (Z.eqb bits) (Py.range3 1 9 1)) eqn:Hb; [|discriminate].
  apply choices_test in Hb. cbn [negb] in H.
  apply bind_return in H as (out & w1 & H1 & H).
  apply lift_return in H1 as [E1 ->].
  apply bind_return in H as (src & w1 & H1 & H).
  apply Image_open_return in H1 as (c & Hc & Hdec & -> & Hread & Hsize).
  apply bind_return in H as (colors & w1 & H1 & H).
  apply lift_return in H1 as [Hcol ->].
  apply bind_return in H as (f & w2 & H1 & H).
  apply open_w_return in H1 as (-> & Hne & Hdir & Hnodir).
  exists c, src, colors, out. repeat split; try lia; assumption.
Qed.

End EndToEnd.

Section Artifact.

Variable Path : string -> path.
Variable readable : path -> bool.
Variable decode : string -> option (Image rgb).
Variable luma : rgb -> Z.
Variable to_P : Z -> Z.
Variable quantize : Image rgb -> Z -> list Z * (Z * Z -> Z).



End Artifact.



Lemma empty_bitstring (img : Image Z) (bits : Z) :
  height img = 0%nat -> image_bitstring img bits = "".
Proof. intros H. unfold image_bitstring. now rewrite H. Qed.


Section ZeroSize.

Variable Path : string -> path.
Variable readable : path -> bool.
Variable decode : string -> option (Image rgb).
Variable luma : rgb -> Z.
Variable to_P : Z -> Z.
Variable quantize : Image rgb -> Z -> list Z * (Z * Z -> Z).



End ZeroSize.




(** C1, at the failing input.  For the 3x1 image with indices 1, 2, 3 at
    4 bits a pixel the bit string is 0001 0010 0011; the last group of
    the loop is the four characters 0011, [int(value, 2)] reads them as
    3, and the literal ends in \x03: the third pixel's index sits in the
    low nibble under a zero high nibble, not in the high nibble.  Through
    either converter the 3x1 sample image, quantized to the indices 4, 7,
    4, comes out as \x47\x04. *)
Theorem final_byte_right_aligned :
  let s := image_bitstring one_row_123 4 in
  let colors :=
    default [] (pack_colors (fst (ramp_quantize (grey_row [65; 122; 66]) 16)) 4) in
  let text := artifact 1 3 16 12 4 colors [0x47; 0x04] in
  s = "000100100011" /\
  Py.slice s 8 (8 + 8) = "0011" /\
  Py.int2 (Py.slice s 8 (8 + 8)) = Some 0x03 /\
  bitmap_bytes s = [0x12; 0x03] /\
  bitmap_bytes s <> [0x12; 0x30] /\
  write_bitmap ["o.py"] s (Py.len s) open_literal
  = (Return tt,
     mkWorld {[ ["o.py"] := File "b'\x12\x03" ]}
             [EvWrite ["o.py"] "\x12"; EvWrite ["o.py"] "\x03"]) /\
  fs (snd (toy_setting convert_image_to_bitmap "img/a.png" 4 None toy_world))
    !! ["img"; "a.py"] = Some (File text) /\
  fs (snd (toy_setting main "img/a.png" 4 None toy_world))
    !! ["img"; "a.py"] = Some (File text).
Proof.
  cbv zeta. repeat split; try (vm_compute; reflexivity).
  vm_compute. discriminate.
Qed.

(** ** Failures *)

Create HintDb late.

Section Failures.

#[local] Hint Constructors late_exn : late.

Lemma raises_only_ret {A} (P : exn -> Prop) (a : A) : raises_only P (mret a).
Proof. intros w e w' H. discriminate. Qed.

Lemma raises_only_raise {A} (P : exn -> Prop) (e : exn) :
  P e -> raises_only P (@raise A e).
Proof. intros He w e' w' H. injection H as <- _. exact He. Qed.

Lemma raises_only_lift {A} (P : exn -> Prop) (e : exn) (o : option A) :
  P e -> raises_only P (lift e o).
Proof.
  intros He. destruct o; [apply raises_only_ret | now apply raises_only_raise].
Qed.

Lemma raises_only_bind {A B} (P : exn -> Prop) (m : M A) (k : A -> M B) :
  raises_only P m -> (forall a, raises_only P (k a)) ->
  raises_only P (m ≫= k).
Proof.
  intros Hm Hk w e w' H. unfold mbind, M_bind, bind in H.
  destruct (m w) as [[a|e0] w1] eqn:E.
  - now apply (Hk a w1 e w').
  - injection H as <- <-. now apply (Hm w e0 w1).
Qed.

Lemma raises_only_log (P : exn -> Prop) (ev : event) : raises_only P (log ev).
Proof. intros w e w' H. discriminate. Qed.

Lemma raises_only_for_each {A} (P : exn -> Prop) (l : list A)
    (body : A -> M unit) :
  (forall a, raises_only P (body a)) -> raises_only P (for_each l body).
Proof.
  intros H. induction l as [|a l IH]; simpl.
  - apply raises_only_ret.
  - apply raises_only_bind; [apply H | intros _; exact IH].
Qed.

Lemma raises_only_write (f : path) (t : string) :
  raises_only late_exn (write f t).
Proof.
  intros w e w' H. unfold write in H.
  destruct (fs w !! f) as [[|c]|]; try discriminate;
    injection H as <- _; auto with late.
Qed.

Lemma raises_only_is_file (p : path) : raises_only late_exn (is_file p).
Proof. intros w e w' H. discriminate. Qed.

Lemma raises_only_mkdir_parents (p : path) :
  raises_only late_exn (mkdir_parents p).
Proof.
  unfold mkdir_parents.
  apply raises_only_bind; [apply raises_only_log | intros _].
  apply raises_only_for_each. intros q w e w' H. unfold mkdir_one in H.
  destruct (fs w !! q) as [[|c]|]; try discriminate.
  injection H as <- _. destruct (decide (q = p)); auto with late.
Qed.

Lemma raises_only_open_w (p : path) : raises_only late_exn (open_w p).
Proof.
  unfold open_w.
  apply raises_only_bind; [apply raises_only_log | intros _].
  intros w e w' H. unfold create in H.
  destruct p as [|a p]; [injection H as <- _; auto with late|].
  destruct (is_dir_in _ _).
  - destruct (fs w !! (a :: p)) as [[|c]|]; try discriminate.
    injection H as <- _; auto with late.
  - destruct (fs w !! Pathlib.parent (a :: p)) as [[|c]|];
      injection H as <- _; auto with late.
Qed.

Lemma raises_only_write_module (f : path) (img : Image Z) (bits : Z)
    (colors : list string) (s : string) (n : Z) :
  raises_only late_exn (write_module f img bits colors s n).
Proof.
  unfold write_module, write_bitmap.
  repeat first
    [ apply raises_only_write
    | apply raises_only_ret
    | apply raises_only_for_each; intros ?
    | apply raises_only_lift; auto with late
    | apply raises_only_bind; [|intros ?]
    | match goal with |- raises_only _ (if ?b then _ else _) => destruct b end ].
Qed.

Variable Path : string -> path.
Variable readable : path -> bool.
Variable decode : string -> option (Image rgb).
Variable luma : rgb -> Z.
Variable to_P : Z -> Z.
Variable quantize : Image rgb -> Z -> list Z * (Z * Z -> Z).

Lemma raises_only_Image_open (p : path) :
  raises_only late_exn (Image_open readable decode p).
Proof.
  unfold Image_open.
  apply raises_only_bind; [apply raises_only_log | intros _].
  apply raises_only_bind; [intros w e w' H; discriminate | intros w0].
  destruct (fs w0 !! p) as [[|c]|].
  - apply raises_only_raise; auto with late.
  - destruct (negb (readable p)); [apply raises_only_raise; auto with late|].
    destruct (decode c) as [img|]; [|apply raises_only_raise; auto with late].
    destruct (zero_size img);
      [apply raises_only_raise; auto with late | apply raises_only_ret].
  - apply raises_only_raise; auto with late.
Qed.

(** With a valid bit depth [convert_image_to_bitmap] raises nothing but
    the later steps' exceptions. *)
Lemma convert_raises_late (image_file : string) (bits : Z)
    (output : option string) :
  1 <= bits <= 8 ->
  raises_only late_exn
    (convert_image_to_bitmap Path readable decode luma to_P quantize
       image_file bits output).
Proof.
  intros Hb. unfold convert_image_to_bitmap.
  rewrite (proj2 (bits_test bits) Hb).
  apply raises_only_bind; [apply raises_only_is_file | intros found].
  destruct (negb found); [apply raises_only_raise; auto with late|].
  repeat first
    [ apply raises_only_ret
    | apply raises_only_lift; auto with late
    | apply raises_only_Image_open
    | apply raises_only_mkdir_parents
    | apply raises_only_open_w
    | apply raises_only_write_module
    | apply raises_only_bind; [|intros ?] ].
Qed.


End Failures.






(** C10. Called with bpp outside 1..8 or with a source path that names no
    file, [convert_image_to_bitmap] raises and leaves the world as it
    was: the same files and directories, and no call recorded, so the
    image was not opened, no directory made and nothing written.  The bit
    depth is checked first: with bpp outside 1..8 the exception is the
    bit-depth [ValueError] whatever the source path. *)
Theorem early_failures_touch_nothing (Path : string -> path) (readable : path -> bool)
    (decode : string -> option (Image rgb)) (luma : rgb -> Z) (to_P : Z -> Z)
    (quantize : Image rgb -> Z -> list Z * (Z * Z -> Z))
    (image_file : string) (bpp : Z) (output : option string) (w : world) :
  ~ 1 <= bpp <= 8 \/ (forall c, fs w !! Path image_file <> Some (File c)) ->
  exists e,
    convert_image_to_bitmap Path readable decode luma to_P quantize
      image_file bpp output w = (Raise e, w) /\
    (~ 1 <= bpp <= 8 -> e = InvalidParameter) /\
    (1 <= bpp <= 8 -> e = SourceNotFound (Path image_file)).
Proof.
  intros H. unfold convert_image_to_bitmap.
  destruct ((bpp <? 1) || (bpp >? 8)) eqn:T.
  - exists InvalidParameter. split; [reflexivity|]. split; [reflexivity|].
    intros Hb. apply bits_test in Hb. congruence.
  - apply bits_test in T. destruct H as [H|H]; [contradiction|].
    exists (SourceNotFound (Path image_file)).
    split; [|split; [contradiction | reflexivity]].
    erewrite bind_run by apply is_file_run.
    destruct (fs w !! Path image_file) as [[|c]|] eqn:E; try reflexivity.
    now destruct (H c).
Qed.

Lemma early_failures_touch_nothing_witness :
  toy_setting convert_image_to_bitmap "img/none.png" 9 (Some "out/deep/a.py")
    toy_world
  = (Raise InvalidParameter, toy_world) /\
  toy_setting convert_image_to_bitmap "img/none.png" 4 (Some "out/deep/a.py")
    toy_world
  = (Raise (SourceNotFound ["img"; "none.png"]), toy_world).
Proof.
  split.
  - destruct (early_failures_touch_nothing split_path all_readable toy_decode luma601
                (fun v => v) ramp_quantize "img/none.png" 9
                (Some "out/deep/a.py") toy_world) as (e & R & B & _);
      [left; lia|].
    unfold toy_setting. rewrite R, B by lia. reflexivity.
  - destruct (early_failures_touch_nothing split_path all_readable toy_decode luma601
                (fun v => v) ramp_quantize "img/none.png" 4
                (Some "out/deep/a.py") toy_world) as (e & R & _ & F);
      [right; intros c; vm_compute; discriminate|].
    unfold toy_setting. rewrite R, F by lia. reflexivity.
Defined.

(** ** Out paths *)

Section OutPaths.

Lemma rfind_dot_stem_py (stem : string) :
  Pathlib.rfind_dot (stem +:+ ".py") = Py.len stem.
Proof.
  unfold Py.len. induction stem as [|c r IH]; [reflexivity|].
  rewrite str_app_cons. cbn [Pathlib.rfind_dot String.length].
  rewrite IH.
  destruct (Z.leb_spec 0 (Z.of_nat (String.length r))); lia.
Qed.

Lemma name_with_name (p : path) (n : string) :
  Pathlib.name (Pathlib.with_name p n) = n.
Proof. unfold Pathlib.name, Pathlib.with_name. apply last_last. Qed.

Lemma suffix_stem_py (p : path) (stem : string) :
  stem <> "" -> Pathlib.suffix (Pathlib.with_name p (stem +:+ ".py")) = ".py".
Proof.
  intros Hne. unfold Pathlib.suffix. rewrite name_with_name, rfind_dot_stem_py.
  unfold Py.len, Py.slice. rewrite str_length_app.
  assert (Hpos : (0 < String.length stem)%nat)
    by (destruct stem; [congruence | simpl; lia]).
  replace (0 <? Z.of_nat (String.length stem)) with true
    by (symmetry; apply Z.ltb_lt; lia).
  replace (Z.of_nat (String.length stem)
           <? Z.of_nat (String.length stem + String.length ".py") - 1)
    with true by (symmetry; apply Z.ltb_lt; simpl; lia).
  cbn [andb]. rewrite Nat2Z.id, substring_app_r, Nat.sub_diag by lia.
  apply substring_all. simpl. lia.
Qed.

Lemma suffix_long (p : path) :
  Pathlib.suffix p <> "" ->
  (0 < String.length (Pathlib.name p) - String.length (Pathlib.suffix p))%nat.
Proof.
  unfold Pathlib.suffix.
  set (n := Pathlib.name p). set (i := Pathlib.rfind_dot n).
  destruct ((0 <? i) && (i <? Py.len n - 1)) eqn:T; [|congruence].
  intros _. apply andb_true_iff in T as [T1 T2].
  apply Z.ltb_lt in T1, T2. unfold Py.len, Py.slice in *.
  rewrite substring_length. lia.
Qed.

(** [with_suffix(".py")] gives a path whose suffix is [.py]. *)
Lemma with_suffix_py (p out : path) :
  Pathlib.with_suffix p ".py" = Some out -> Pathlib.suffix out = ".py".
Proof.
  unfold Pathlib.with_suffix.
  destruct (String.eqb_spec (Pathlib.name p) "") as [|Hn]; [discriminate|].
  destruct (String.eqb_spec (Pathlib.suffix p) "") as [|Hs];
    intros H; injection H as <-; apply suffix_stem_py; [assumption|].
  intros E. apply (f_equal String.length) in E.
  unfold Py.slice, Py.len in E. rewrite substring_length in E.
  pose proof (suffix_long p Hs). simpl in E. lia.
Qed.

Lemma ensure_py_py (p out : path) :
  ensure_py p = Some out -> Pathlib.lower (Pathlib.suffix out) = ".py".
Proof.
  unfold ensure_py.
  destruct (String.eqb_spec (Pathlib.lower (Pathlib.suffix p)) ".py") as [E|E];
    cbn [negb]; intros H.
  - now injection H as <-.
  - apply with_suffix_py in H. now rewrite H.
Qed.

Variable Path : string -> path.

(** The out path of [convert_image_to_bitmap]: without an output it is
    the image path under [with_suffix(".py")]; a given output is kept
    when its suffix is [.py] in any case of letters, and put under
    [with_suffix(".py")] otherwise; the path settled on always ends in
    [.py]. *)
Lemma gui_out_path_rules (image_file : string) (output : option string) :
  (output = None \/ output = Some "" ->
   gui_out_path Path image_file output
   = Pathlib.with_suffix (Path image_file) ".py") /\
  (forall o, output = Some o -> o <> "" ->
     gui_out_path Path image_file output
     = if String.eqb (Pathlib.lower (Pathlib.suffix (Path o))) ".py"
       then Some (Path o)
       else Pathlib.with_suffix (Path o) ".py") /\
  (forall out, gui_out_path Path image_file output = Some out ->
     Pathlib.lower (Pathlib.suffix out) = ".py").
Proof.
  unfold gui_out_path. split; [|split].
  - intros H.
    assert (E : default_out_path Path (Path image_file) output
                = Pathlib.with_suffix (Path image_file) ".py")
      by (destruct H as [-> | ->]; reflexivity).
    rewrite E.
    destruct (Pathlib.with_suffix (Path image_file) ".py") as [out|] eqn:W;
      [|reflexivity].
    cbn. unfold ensure_py. apply with_suffix_py in W. now rewrite W.
  - intros o -> Ho. unfold default_out_path.
    destruct (String.eqb_spec o "") as [|_]; [contradiction|].
    cbn. unfold ensure_py.
    now destruct (String.eqb _ ".py").
  - intros out H.
    destruct (default_out_path Path (Path image_file) output) as [o1|];
      [|discriminate].
    cbn in H. now apply ensure_py_py in H.
Qed.

(** The out path of the script's [main]: a given output is used as it is. *)
Lemma cli_out_path_rules (image_file : string) (output : option string) :
  (output = None \/ output = Some "" ->
   default_out_path Path (Path image_file) output
   = Pathlib.with_suffix (Path image_file) ".py") /\
  (forall o, output = Some o -> o <> "" ->
     default_out_path Path (Path image_file) output = Some (Path o)).
Proof.
  split.
  - intros [-> | ->]; reflexivity.
  - intros o -> Ho. unfold default_out_path.
    now destruct (String.eqb_spec o "").
Qed.

Variable readable : path -> bool.
Variable decode : string -> option (Image rgb).
Variable luma : rgb -> Z.
Variable to_P : Z -> Z.
Variable quantize : Image rgb -> Z -> list Z * (Z * Z -> Z).

(** After [convert_image_to_bitmap] returns, every directory above the
    out path is there, made before the file was opened, and the file
    holds the new text whatever stood at the path before. *)
Lemma convert_makes_parents (image_file : string) (bits : Z)
    (output : option string) (w w' : world) (out : path) :
  convert_image_to_bitmap Path readable decode luma to_P quantize
    image_file bits output w = (Return out, w') ->
  (forall q, In q (ancestors (Pathlib.parent out)) -> fs w' !! q = Some Dir) /\
  exists texts,
    calls w' = (calls w ++ [EvImageOpen (Path image_file);
                            EvMkdir (Pathlib.parent out); EvOpenW out]
                ++ map (EvWrite out) texts)%list /\
    fs w' !! out = Some (File (str_concat texts)).
Proof.
  intros H. pose proof H as H0.
  apply convert_returns in H0
    as (c & src & colors & Hb & Hf & Hd & Hr & Hz & Ho & Hc & Hdirs & Hnodir).
  rewrite (convert_runs Path readable decode luma to_P quantize image_file bits output
             w c src out colors) in H by assumption.
  apply (f_equal snd) in H. cbn [snd] in H. subst w'.
  assert (Hne : out <> []).
  { unfold gui_out_path in Ho.
    destruct (default_out_path Path (Path image_file) output); [|discriminate].
    now apply ensure_py_nonempty in Ho. }
  split.
  - intros q Hq. unfold converted. cbn [fs].
    rewrite lookup_insert_ne.
    + apply make_dirs_made; [assumption | intros t; now apply Hdirs].
    + intros <-. now apply (not_in_ancestors_parent out).
  - eexists. unfold converted. cbn [fs calls]. split; [reflexivity|].
    rewrite lookup_insert_eq, module_texts_artifact. reflexivity.
Qed.

End OutPaths.

(** C7, at the failing input.  Given [-o out.txt] the script's [main]
    writes out.txt as named: no out.py appears.  On the same arguments
    [convert_image_to_bitmap] corrects the name and writes the same text
    to out.py. *)
Theorem cli_keeps_given_extension :
  let cli := toy_setting main "img/a.png" 4 (Some "out.txt") toy_world in
  let gui := toy_setting convert_image_to_bitmap "img/a.png" 4
               (Some "out.txt") toy_world in
  fst cli = Return tt /\
  is_Some (fs (snd cli) !! ["out.txt"]) /\
  fs (snd cli) !! ["out.py"] = None /\
  fst gui = Return ["out.py"] /\
  fs (snd gui) !! ["out.txt"] = None /\
  fs (snd gui) !! ["out.py"] = fs (snd cli) !! ["out.txt"].
Proof.
  cbv zeta. repeat split; try (vm_compute; reflexivity).
  vm_compute. eauto.
Qed.

(** C8, at the failing input.  Given [-o out/deep/a.py] where no
    directory out exists, the script's [main] makes no directory: its
    [open] raises [FileNotFoundError] and the file system is as before.
    On the same arguments [convert_image_to_bitmap] makes out and
    out/deep and writes the file.  Both replace a file that is already
    there. *)
Theorem cli_makes_no_directory :
  let cli := toy_setting main "img/a.png" 4 (Some "out/deep/a.py") toy_world in
  let gui := toy_setting convert_image_to_bitmap "img/a.png" 4
               (Some "out/deep/a.py") toy_world in
  cli = (Raise (FileNotFoundError "out/deep/a.py"),
         mkWorld (fs toy_world)
                 [EvImageOpen ["img"; "a.png"];
                  EvOpenW ["out"; "deep"; "a.py"]]) /\
  fst gui = Return ["out"; "deep"; "a.py"] /\
  fs (snd gui) !! ["out"] = Some Dir /\
  fs (snd gui) !! ["out"; "deep"] = Some Dir /\
  is_Some (fs (snd gui) !! ["out"; "deep"; "a.py"]) /\
  fs (snd (toy_setting main "img/a.png" 4 None toy_world_old))
  = fs (snd (toy_setting main "img/a.png" 4 None toy_world)) /\
  fs (snd (toy_setting convert_image_to_bitmap "img/a.png" 4 None toy_world_old))
  = fs (snd (toy_setting convert_image_to_bitmap "img/a.png" 4 None toy_world)).
Proof.
  cbv zeta. repeat split; try (vm_compute; reflexivity).
  vm_compute. eauto.
Qed.

(** * Further properties *)

(** ** Digits and values *)

Section Digits.

Lemma fold_digits_acc (l : list ascii) (acc : Z) :
  fold_left (fun acc c => 2 * acc + (if Ascii.eqb c "1" then 1 else 0)) l acc
  = acc * 2 ^ Z.of_nat (length l)
    + fold_left (fun acc c => 2 * acc + (if Ascii.eqb c "1" then 1 else 0)) l 0.
Proof.
  revert acc. induction l as [|c l IH]; intros acc.
  - cbn [fold_left length]. change (2 ^ Z.of_nat 0) with 1. lia.
  - cbn [fold_left length].
    rewrite (IH (2 * acc + _)), (IH (2 * 0 + _)).
    rewrite Nat2Z.inj_succ, Z.pow_succ_r by lia. lia.
Qed.

Lemma bits_value_cons (c : ascii) (r : string) :
  bits_value (String c r)
  = (if Ascii.eqb c "1" then 1 else 0) * 2 ^ Z.of_nat (String.length r)
    + bits_value r.
Proof.
  unfold bits_value. cbn [list_ascii_of_string fold_left].
  rewrite fold_digits_acc, chars_length. lia.
Qed.

Lemma pixel_group_succ (k : nat) (pixel : Z) :
  pixel_group (Z.of_nat (S k)) pixel
  = String (if Z.testbit pixel (Z.of_nat k) then "1"%char else "0"%char)
           (pixel_group (Z.of_nat k) pixel).
Proof.
  unfold pixel_group. rewrite !Nat2Z.id.
  change (seq 0 (S k)) with (0%nat :: seq 1 k).
  rewrite <- seq_shift. cbn [map str_concat fold_right]. rewrite map_map.
  replace (Z.of_nat (S k) - 1 - Z.of_nat 0) with (Z.of_nat k) by lia.
  replace (map (fun i : nat => if Z.testbit pixel (Z.of_nat (S k) - 1 - Z.of_nat (S i))
                               then "1" else "0") (seq 0 k))
    with (map (fun i : nat => if Z.testbit pixel (Z.of_nat k - 1 - Z.of_nat i)
                              then "1" else "0") (seq 0 k)).
  - now destruct (Z.testbit pixel (Z.of_nat k)).
  - apply map_ext. intros i.
    now replace (Z.of_nat (S k) - 1 - Z.of_nat (S i))
      with (Z.of_nat k - 1 - Z.of_nat i) by lia.
Qed.

(** The digits of a group read back as the low bits of the pixel. *)
Lemma bits_value_pixel_group (k : nat) (pixel : Z) :
  bits_value (pixel_group (Z.of_nat k) pixel) = pixel mod 2 ^ Z.of_nat k.
Proof.
  induction k as [|k IH].
  - change (2 ^ Z.of_nat 0) with 1. now rewrite Z.mod_1_r.
  - rewrite pixel_group_succ, bits_value_cons, IH, pixel_group_length, Nat2Z.id.
    rewrite Nat2Z.inj_succ, Z.pow_succ_r by lia.
    rewrite (Z.mul_comm 2), Z.rem_mul_r by lia.
    pose proof (Z.testbit_spec' pixel (Z.of_nat k) ltac:(lia)) as T.
    rewrite <- T.
    destruct (Z.testbit pixel (Z.of_nat k)); simpl Z.b2z; simpl Ascii.eqb; lia.
Qed.

(** A string of [n] binary digits is the group of its own value. *)
Lemma pixel_group_bits_value (g : string) :
  bit_string g ->
  pixel_group (Z.of_nat (String.length g)) (bits_value g) = g.
Proof.
  unfold bit_string. induction g as [|c g IH]; intros H; [reflexivity|].
  cbn [list_ascii_of_string] in H. inversion H as [|? ? Hc Hg]; subst.
  cbn [String.length]. rewrite pixel_group_succ.
  pose proof (bits_value_bound g) as B.
  assert (P : 0 < 2 ^ Z.of_nat (String.length g)) by (apply Z.pow_pos_nonneg; lia).
  assert (Elow : pixel_group (Z.of_nat (String.length g)) (bits_value (String c g))
                 = pixel_group (Z.of_nat (String.length g)) (bits_value g)).
  { unfold pixel_group. f_equal. apply map_ext_in. intros i Hi.
    apply in_seq in Hi. rewrite Nat2Z.id in Hi.
    rewrite <- (Z.mod_pow2_bits_low (bits_value (String c g))
                  (Z.of_nat (String.length g))) by lia.
    rewrite bits_value_cons, Z.add_comm, Z.mod_add by lia.
    now rewrite Z.mod_small by lia. }
  rewrite Elow, IH by assumption. f_equal.
  pose proof (Z.testbit_spec' (bits_value (String c g))
                (Z.of_nat (String.length g)) ltac:(lia)) as T.
  rewrite bits_value_cons in T at 2.
  rewrite Z.add_comm, Z.div_add, Z.div_small in T by lia.
  destruct Hc as [-> | ->]; simpl Ascii.eqb in T; simpl (0 + _) in T;
    destruct (Z.testbit _ _); simpl in T; (reflexivity || discriminate).
Qed.

End Digits.

(** X1. The group the inner loop appends for a pixel has [bits]
    characters and reads back, as a binary number, as the pixel modulo
    [2 ^ bits]: an index below [2 ^ bits] is recovered exactly, and of a
    larger value only the low [bits] bits are kept. *)
Theorem pixel_group_reads_back (bits pixel : Z) :
  1 <= bits ->
  Py.len (add_pixel bits pixel "") = bits /\
  Py.int2 (add_pixel bits pixel "") = Some (pixel mod 2 ^ bits) /\
  (0 <= pixel < 2 ^ bits -> Py.int2 (add_pixel bits pixel "") = Some pixel).
Proof.
  intros Hb. rewrite add_pixel_group, str_app_nil_l by lia.
  assert (L : Py.len (pixel_group bits pixel) = bits)
    by (unfold Py.len; rewrite pixel_group_length; lia).
  assert (V : Py.int2 (pixel_group bits pixel) = Some (pixel mod 2 ^ bits)).
  { rewrite int2_bits.
    - rewrite <- (Z2Nat.id bits) at 1 2 by lia.
      now rewrite bits_value_pixel_group, Z2Nat.id by lia.
    - apply bit_string_pixel_group.
    - intros E. rewrite E in L. unfold Py.len in L. simpl in L. lia. }
  split; [exact L|]. split; [exact V|].
  intros Hp. now rewrite V, Z.mod_small.
Qed.

Lemma pixel_group_reads_back_witness :
  Py.int2 (add_pixel 4 11 "") = Some 11 /\
  Py.int2 (add_pixel 4 27 "") = Some (27 mod 2 ^ 4).
Proof.
  destruct (pixel_group_reads_back 4 11 ltac:(lia)) as (_ & _ & E).
  destruct (pixel_group_reads_back 4 27 ltac:(lia)) as (_ & M & _).
  split; [apply E; lia | exact M].
Defined.

(** ** Bytes and bits *)

Section BytesAndBits.

Lemma substring_split (s : string) (n m1 m2 : nat) :
  substring n (m1 + m2) s = substring n m1 s +:+ substring (n + m1) m2 s.
Proof.
  revert n m1. induction s as [|c r IH]; intros n m1.
  - destruct n, m1, m2; reflexivity.
  - destruct n as [|n].
    + destruct m1 as [|m1]; [reflexivity|].
      cbn [Nat.add substring]. rewrite str_app_cons. f_equal.
      apply (IH 0%nat m1).
    + cbn [Nat.add substring]. apply IH.
Qed.

(** The bytes of the groups from group [a] on give back the bit string
    from character [8 * a] on. *)
Lemma unpack_groups (s : string) (n a : nat) :
  bit_string s ->
  unpack (String.length s - 8 * a)
         (map (fun j => bits_value (Py.slice s (Z.of_nat j * 8)
                                             (Z.of_nat j * 8 + 8)))
              (seq a n))
  = substring (8 * a) (8 * n) s.
Proof.
  intros Hs. revert a. induction n as [|n IH]; intros a.
  - cbn [seq map unpack]. change (8 * 0)%nat with 0%nat.
    assert (Z0 : forall t k, substring k 0 t = "")
      by (induction t as [|c t IHt]; intros [|k]; simpl; auto).
    symmetry. apply Z0.
  - change (seq a (S n)) with (a :: seq (S a) n). cbn [map unpack].
    replace (String.length s - 8 * a - 8)%nat
      with (String.length s - 8 * S a)%nat by lia.
    rewrite IH.
    replace (8 * S n)%nat with (8 + 8 * n)%nat by lia.
    rewrite substring_split.
    replace (8 * S a)%nat with (8 * a + 8)%nat by lia.
    f_equal.
    assert (E : Py.slice s (Z.of_nat a * 8) (Z.of_nat a * 8 + 8)
                = substring (8 * a) 8 s).
    { unfold Py.slice. f_equal; lia. }
    rewrite E.
    assert (L : Nat.min 8 (String.length s - 8 * a)
                = String.length (substring (8 * a) 8 s))
      by now rewrite substring_length.
    rewrite L. apply pixel_group_bits_value.
    now apply bit_string_substring.
Qed.

(** From the bytes and the number of bits the bit string is recovered. *)
Lemma unpack_bitmap_bytes (s : string) :
  bit_string s -> unpack (String.length s) (bitmap_bytes s) = s.
Proof.
  intros Hs. unfold bitmap_bytes.
  rewrite range_by_8 by (unfold Py.len; lia).
  rewrite map_map.
  pose proof (unpack_groups s (Z.to_nat ((Py.len s + 7) / 8)) 0 Hs) as U.
  rewrite Nat.sub_0_r in U. rewrite U.
  apply substring_all. unfold Py.len.
  pose proof (Z.mul_succ_div_gt (Z.of_nat (String.length s) + 7) 8 ltac:(lia)).
  assert (0 <= (Z.of_nat (String.length s) + 7) / 8)
    by (apply Z.div_pos; lia).
  lia.
Qed.

End BytesAndBits.

Section LiteralLayout.

(** What the byte loop does to an open file. *)
Lemma write_bitmap_run (f : path) (s : string) (w : world) (c : string) :
  bit_string s -> fs w !! f = Some (File c) ->
  exists texts,
    write_bitmap f s (Py.len s) w
    = (Return tt,
       mkWorld (<[f := File (c +:+ literal_text (bitmap_bytes s))]> (fs w))
               (calls w ++ map (EvWrite f) texts)).
Proof.
  intros Hs Hf. eexists.
  rewrite (write_bitmap_writes f s Hs w c Hf), bitmap_texts_literal.
  reflexivity.
Qed.

Lemma literal_from_app (l1 l2 : list Z) (j : nat) :
  literal_from j (l1 ++ l2)
  = literal_from j l1 +:+ literal_from (j + length l1) l2.
Proof.
  revert j. induction l1 as [|b l1 IH]; intros j.
  - cbn [app literal_from length]. now rewrite Nat.add_0_r.
  - cbn [app literal_from length]. rewrite IH, !str_app_assoc.
    now replace (S j + length l1)%nat with (j + S (length l1))%nat by lia.
Qed.

Lemma literal_from_plain (l : list Z) (j : nat) :
  (forall t, (t < length l)%nat -> ((j + t) mod 16 <> 0)%nat) ->
  literal_from j l = segment_text l.
Proof.
  revert j. induction l as [|b l IH]; intros j H; [reflexivity|].
  cbn [literal_from]. unfold segment_text. cbn [map str_concat fold_right].
  fold (segment_text l).
  assert (H0 : (j mod 16 <> 0)%nat)
    by (specialize (H 0%nat); rewrite Nat.add_0_r in H; apply H; simpl; lia).
  apply Nat.eqb_neq in H0. rewrite H0, andb_false_r, str_app_nil_l.
  rewrite IH; [now rewrite str_app_assoc|].
  intros t Ht. replace (S j + t)%nat with (j + S t)%nat by lia.
  apply H. simpl. lia.
Qed.

(** A run of at most sixteen bytes that starts a segment. *)
Lemma literal_from_segment (l : list Z) (q : nat) :
  l <> [] -> (length l <= 16)%nat ->
  literal_from (16 * q) l
  = (if (q =? 0)%nat then "" else segment_break) +:+ segment_text l.
Proof.
  intros Hne Hlen. destruct l as [|b l]; [congruence|].
  cbn [literal_from]. unfold segment_text. cbn [map str_concat fold_right].
  fold (segment_text l).
  assert (E0 : (16 * q =? 0)%nat = (q =? 0)%nat)
    by (destruct q; [reflexivity | apply Nat.eqb_neq; lia]).
  assert (E16 : ((16 * q) mod 16 =? 0)%nat = true)
    by (apply Nat.eqb_eq; rewrite Nat.mul_comm; apply Nat.Div0.mod_mul).
  rewrite E0, E16, andb_true_r.
  rewrite literal_from_plain.
  - destruct (q =? 0)%nat; cbn [negb];
      now rewrite ?str_app_nil_l, ?str_app_assoc.
  - intros t Ht. simpl in Hlen.
    replace (S (16 * q) + t)%nat with (S t + q * 16)%nat by lia.
    rewrite Nat.Div0.mod_add, Nat.mod_small by lia. lia.
Qed.

Lemma chunks_go_cons {A} (fuel n : nat) (l : list A) :
  l <> [] -> (length l <= fuel)%nat ->
  chunks_go fuel n l
  = firstn n l :: chunks_go (fuel - 1) n (skipn n l).
Proof.
  intros Hne Hlen. destruct fuel as [|f].
  - destruct l; [congruence | simpl in Hlen; lia].
  - destruct l; [congruence|]. cbn [chunks_go].
    now rewrite Nat.sub_succ, Nat.sub_0_r.
Qed.

Lemma literal_from_chunks (fuel : nat) (l : list Z) (q : nat) :
  (length l <= fuel)%nat ->
  literal_from (16 * q) l
  = (if (q =? 0)%nat then "" else
       match l with [] => "" | _ => segment_break end)
    +:+ Py.join segment_break (map segment_text (chunks_go fuel 16 l)).
Proof.
  revert l q. induction fuel as [|f IH]; intros l q Hlen.
  - destruct l; [|simpl in Hlen; lia].
    now destruct (q =? 0)%nat.
  - destruct l as [|b l]; [now destruct (q =? 0)%nat|].
    set (bs := b :: l) in *.
    assert (Hne : bs <> []) by (subst bs; congruence).
    rewrite (chunks_go_cons (S f) 16 bs Hne Hlen).
    rewrite Nat.sub_succ, Nat.sub_0_r.
    rewrite <- (firstn_skipn 16 bs) at 1.
    rewrite literal_from_app.
    assert (Hf : firstn 16 bs <> [])
      by (subst bs; cbn [firstn]; congruence).
    rewrite (literal_from_segment (firstn 16 bs) q Hf)
      by (rewrite length_firstn; lia).
    destruct (skipn 16 bs) as [|b' r] eqn:Er.
    + cbn [literal_from]. rewrite str_app_nil_r.
      replace (chunks_go f 16 []) with (@nil (list Z)) by now destruct f.
      cbn [map Py.join]. subst bs. reflexivity.
    + assert (L16 : length (firstn 16 bs) = 16%nat).
      { rewrite length_firstn.
        assert (length (skipn 16 bs) = S (length r)) by now rewrite Er.
        rewrite length_skipn in H. lia. }
      rewrite L16.
      replace (16 * q + 16)%nat with (16 * S q)%nat by lia.
      assert (Hr : (length (b' :: r) <= f)%nat).
      { rewrite <- Er, length_skipn. subst bs. simpl in *. lia. }
      rewrite (IH (b' :: r) (S q) Hr).
      rewrite (chunks_go_cons f 16 (b' :: r)) by (congruence || exact Hr).
      cbn [map Py.join Nat.eqb].
      subst bs. now rewrite ?str_app_assoc.
Qed.

(** The literal is its segments of sixteen bytes joined by the break. *)
Lemma literal_text_chunks (bytes : list Z) :
  literal_text bytes
  = Py.join segment_break (map segment_text (chunks 16 bytes)).
Proof.
  unfold literal_text, chunks.
  pose proof (literal_from_chunks (length bytes) bytes 0 ltac:(lia)) as E.
  change (16 * 0)%nat with 0%nat in E. rewrite E. reflexivity.
Qed.

(** Chunk [i] holds the bytes [16 * i] to [16 * i + 15], as far as there
    are any. *)
Lemma chunks_go_nth {A} (fuel : nat) (l : list A) (i : nat) :
  (length l <= fuel)%nat ->
  nth_error (chunks_go fuel 16 l) i
  = if (16 * i <? length l)%nat then Some (firstn 16 (skipn (16 * i) l))
    else None.
Proof.
  revert l i. induction fuel as [|f IH]; intros l i Hlen.
  - destruct l; [|simpl in Hlen; lia].
    simpl. now destruct i.
  - destruct l as [|a l].
    + cbn [chunks_go length]. now destruct i.
    + set (bs := a :: l) in *.
      rewrite (chunks_go_cons (S f) 16 bs) by (subst bs; congruence || exact Hlen).
      rewrite Nat.sub_succ, Nat.sub_0_r.
      destruct i as [|i].
      * cbn [nth_error]. change (16 * 0)%nat with 0%nat. cbn [skipn].
        replace (0 <? length bs)%nat with true
          by (symmetry; apply Nat.ltb_lt; subst bs; simpl; lia).
        reflexivity.
      * cbn [nth_error]. rewrite IH by (rewrite length_skipn; subst bs; simpl in *; lia).
        rewrite length_skipn, skipn_skipn.
        replace (16 * i + 16)%nat with (16 * S i)%nat by lia.
        destruct (Nat.ltb_spec (16 * i) (length bs - 16)),
                 (Nat.ltb_spec (16 * S i) (length bs)); (reflexivity || lia).
Qed.

End LiteralLayout.

(** X2. The bytes the loop writes lose nothing of the bit string: for
    the bit string of any image the loop returns and writes the literal
    of [(BITS + 7) / 8] bytes, each a value in 0..255, and a reader who
    knows BITS gets the bit string back from them by taking eight digits
    a byte and, from the last byte, the remaining digits from its low
    end. *)
Theorem bitmap_reads_back (img : Image Z) (bits : Z) (f : path)
    (w : world) (c : string) :
  0 <= bits -> fs w !! f = Some (File c) ->
  let s := image_bitstring img bits in
  exists bytes,
    fst (write_bitmap f s (Py.len s) w) = Return tt /\
    fs (snd (write_bitmap f s (Py.len s) w)) !! f
    = Some (File (c +:+ literal_text bytes)) /\
    List.Forall (fun b => 0 <= b < 256) bytes /\
    Z.of_nat (length bytes) = (Py.len s + 7) / 8 /\
    unpack (String.length s) bytes = s.
Proof.
  intros Hb Hf s.
  assert (Hs : bit_string s)
    by (subst s; rewrite image_bitstring_bitstream by assumption;
        apply bit_string_bitstream).
  destruct (write_bitmap_run f s w c Hs Hf) as (texts & R).
  exists (bitmap_bytes s). rewrite R. cbn [fst snd fs].
  split; [reflexivity|]. split; [apply lookup_insert_eq|].
  split; [apply bitmap_bytes_range|].
  split; [apply bitmap_bytes_length|].
  now apply unpack_bitmap_bytes.
Qed.

Lemma bitmap_reads_back_witness :
  exists bytes,
    fs (snd (write_bitmap ["o.py"] (image_bitstring one_row_123 4) 12
               open_literal)) !! ["o.py"]
    = Some (File ("b'" +:+ literal_text bytes)) /\
    List.Forall (fun b => 0 <= b < 256) bytes /\
    unpack 12 bytes = "000100100011".
Proof.
  destruct (bitmap_reads_back one_row_123 4 ["o.py"] open_literal "b'"
              ltac:(lia) eq_refl) as (bytes & _ & F & R & _ & U).
  exists bytes. split; [exact F | split; [exact R | exact U]].
Defined.

(** X3. The literal is wrapped every sixteen bytes: what the loop writes
    into the open file is the segments of the byte list, each of exactly
    sixteen bytes but the last, every byte as [\xHH], with the text
    quote, backslash, newline, b, quote between two segments and nothing
    after the last. *)
Theorem literal_wraps_at_16 (img : Image Z) (bits : Z) (f : path)
    (w : world) (c : string) :
  0 <= bits -> fs w !! f = Some (File c) ->
  let s := image_bitstring img bits in
  exists bytes,
    fs (snd (write_bitmap f s (Py.len s) w)) !! f
    = Some (File (c +:+ Py.join segment_break
                          (map segment_text (chunks 16 bytes)))) /\
    Z.of_nat (length bytes) = (Py.len s + 7) / 8 /\
    forall i, nth_error (chunks 16 bytes) i
              = if (16 * i <? length bytes)%nat
                then Some (firstn 16 (skipn (16 * i) bytes)) else None.
Proof.
  intros Hb Hf s.
  assert (Hs : bit_string s)
    by (subst s; rewrite image_bitstring_bitstream by assumption;
        apply bit_string_bitstream).
  destruct (write_bitmap_run f s w c Hs Hf) as (texts & R).
  exists (bitmap_bytes s). rewrite R. cbn [snd fs].
  split; [|split].
  - now rewrite lookup_insert_eq, literal_text_chunks.
  - apply bitmap_bytes_length.
  - intros i. unfold chunks. now apply chunks_go_nth.
Qed.

Lemma literal_wraps_at_16_witness :
  exists bytes,
    fs (snd (write_bitmap ["o.py"] (image_bitstring one_row_123 4) 12
               open_literal)) !! ["o.py"]
    = Some (File ("b'" +:+ Py.join segment_break
                             (map segment_text (chunks 16 bytes)))) /\
    Z.of_nat (length bytes) = 2.
Proof.
  destruct (literal_wraps_at_16 one_row_123 4 ["o.py"] open_literal "b'"
              ltac:(lia) eq_refl) as (bytes & F & L & _).
  exists bytes. split; [exact F | exact L].
Defined.

(** ** Palette words *)

Section PaletteWords.

Lemma swap_bytes_twice (c : Z) :
  0 <= c < 65536 -> swap_bytes (swap_bytes c) = c /\ 0 <= swap_bytes c < 65536.
Proof.
  intros H. rewrite (swap_bytes_word c H).
  assert (0 <= c mod 256 < 256) by (apply Z.mod_pos_bound; lia).
  assert (0 <= c / 256 < 256)
    by (split; [apply Z.div_pos | apply Z.div_lt_upper_bound]; lia).
  split; [|lia].
  rewrite swap_bytes_word by lia.
  rewrite (Z.add_comm (c mod 256 * 256)), Z.mod_add, Z.div_add by lia.
  rewrite (Z.mod_small (c / 256)), (Z.div_small (c / 256)) by lia.
  pose proof (Z.div_mod c 256 ltac:(lia)). lia.
Qed.

Lemma hex_go_length (fuel : nat) (n : Z) (k : nat) :
  0 <= n < 16 ^ Z.of_nat k -> (1 <= k)%nat ->
  (String.length (Py.hex_go fuel n) <= k)%nat.
Proof.
  revert n k. induction fuel as [|f IH]; intros n k Hn Hk; [simpl; lia|].
  cbn [Py.hex_go]. destruct (Z.ltb_spec n 16) as [Hs|Hs].
  - unfold Py.hex_digit. simpl. lia.
  - rewrite str_length_app. unfold Py.hex_digit at 1.
    cbn [String.length].
    destruct k as [|[|k]]; [lia | change (16 ^ Z.of_nat 1) with 16 in Hn; lia |].
    assert (Hq : 0 <= n / 16 < 16 ^ Z.of_nat (S k)).
    { rewrite (Nat2Z.inj_succ (S k)), Z.pow_succ_r in Hn by lia.
      split; [apply Z.div_pos | apply Z.div_lt_upper_bound]; lia. }
    specialize (IH (n / 16) (S k) Hq ltac:(lia)). lia.
Qed.

Lemma zeros_length (k : nat) : String.length (Py.zeros k) = k.
Proof. induction k as [|k IH]; simpl; [reflexivity | now rewrite IH]. Qed.

(** A value below [16 ^ w] is rendered in exactly [w] characters. *)
Lemma format_0x_length (w : nat) (n : Z) :
  0 <= n < 16 ^ Z.of_nat w -> (1 <= w)%nat ->
  String.length (Py.format_0x w n) = w.
Proof.
  intros Hn Hw. unfold Py.format_0x.
  rewrite str_length_app, zeros_length.
  pose proof (hex_go_length (S (Z.to_nat (Z.log2 n))) n w Hn Hw).
  unfold Py.hex. lia.
Qed.

(** The loop's list is the accumulator followed by one entry per color
    of the work list, in order. *)
Lemma pack_colors_from_entries (palette : list Z) (todo : list Z)
    (acc colors : list string) :
  pack_colors_from palette todo acc = Some colors ->
  exists made,
    colors = (acc ++ made)%list /\
    Forall2 (fun c t => pack_color palette c = Some t) todo made.
Proof.
  revert acc. induction todo as [|c todo IH]; intros acc H; simpl in H.
  - injection H as <-. exists []. split; [now rewrite app_nil_r | constructor].
  - destruct (pack_color palette c) as [t|] eqn:E; simpl in H; [|discriminate].
    apply IH in H as (made & -> & F).
    exists (t :: made). split; [now rewrite <- app_assoc | now constructor].
Qed.

Lemma pack_color_inv (palette : list Z) (c : Z) (t : string) :
  pack_color palette c = Some t ->
  exists r g b,
    palette_at palette (c * 3) = Some r /\
    palette_at palette (c * 3 + 1) = Some g /\
    palette_at palette (c * 3 + 2) = Some b /\
    t = "0x" +:+ Py.format_0x 4 (swap_bytes (color565 r g b)).
Proof.
  unfold pack_color. intros H.
  destruct (palette_at palette (c * 3)) as [r|]; [|discriminate].
  destruct (palette_at palette (c * 3 + 1)) as [g|]; [|discriminate].
  destruct (palette_at palette (c * 3 + 2)) as [b|]; [|discriminate].
  simpl in H. injection H as <-. now exists r, g, b.
Qed.

(** The word emitted for a color of byte channels fits 16 bits. *)
Lemma packed_word_range (r g b : Z) :
  0 <= r < 256 -> 0 <= g < 256 -> 0 <= b < 256 ->
  0 <= swap_bytes (color565 r g b) < 65536.
Proof.
  intros Hr Hg Hb.
  assert (E : color565 r g b = r / 8 * 2048 + g / 4 * 32 + b / 8)
    by now apply color565_fields.
  assert (0 <= r / 8 < 32)
    by (split; [apply Z.div_pos | apply Z.div_lt_upper_bound]; lia).
  assert (0 <= g / 4 < 64)
    by (split; [apply Z.div_pos | apply Z.div_lt_upper_bound]; lia).
  assert (0 <= b / 8 < 32)
    by (split; [apply Z.div_pos | apply Z.div_lt_upper_bound]; lia).
  apply swap_bytes_twice. lia.
Qed.

End PaletteWords.

(** X4. An emitted palette word gives the color back up to the bits the
    packer drops: swapping the bytes back and splitting the 5-6-5 fields
    recovers each channel with its low three (red, blue) or two (green)
    bits cleared.  So two colors pack to the same word exactly when they
    agree on those leading bits. *)
Theorem palette_word_reads_back (r g b : Z) :
  0 <= r < 256 -> 0 <= g < 256 -> 0 <= b < 256 ->
  let word := swap_bytes (color565 r g b) in
  0 <= word < 65536 /\
  unpack565 word = (r - r mod 8, g - g mod 4, b - b mod 8) /\
  forall r' g' b',
    0 <= r' < 256 -> 0 <= g' < 256 -> 0 <= b' < 256 ->
    (swap_bytes (color565 r' g' b') = word <->
     r' / 8 = r / 8 /\ g' / 4 = g / 4 /\ b' / 8 = b / 8).
Proof.
  intros Hr Hg Hb word.
  assert (F : forall r g b, 0 <= r < 256 -> 0 <= g < 256 -> 0 <= b < 256 ->
              color565 r g b = r / 8 * 2048 + g / 4 * 32 + b / 8 /\
              0 <= r / 8 < 32 /\ 0 <= g / 4 < 64 /\ 0 <= b / 8 < 32).
  { intros r0 g0 b0 H1 H2 H3. split; [now apply color565_fields|].
    repeat split;
      (apply Z.div_pos || apply Z.div_lt_upper_bound); lia. }
  destruct (F r g b Hr Hg Hb) as (E & Br & Bg & Bb).
  assert (Hc : 0 <= color565 r g b < 65536) by lia.
  destruct (swap_bytes_twice _ Hc) as [Back Hw].
  split; [exact Hw|]. split.
  - unfold unpack565. subst word. rewrite Back, E.
    assert (E1 : (r / 8 * 2048 + g / 4 * 32 + b / 8) / 2048 = r / 8).
    { replace (r / 8 * 2048 + g / 4 * 32 + b / 8)
        with (g / 4 * 32 + b / 8 + r / 8 * 2048) by lia.
      rewrite Z.div_add, Z.div_small by lia. lia. }
    assert (E2 : (r / 8 * 2048 + g / 4 * 32 + b / 8) / 32 = r / 8 * 64 + g / 4).
    { replace (r / 8 * 2048 + g / 4 * 32 + b / 8)
        with (b / 8 + (r / 8 * 64 + g / 4) * 32) by lia.
      rewrite Z.div_add, Z.div_small by lia. lia. }
    assert (E3 : (r / 8 * 2048 + g / 4 * 32 + b / 8) mod 32 = b / 8).
    { replace (r / 8 * 2048 + g / 4 * 32 + b / 8)
        with (b / 8 + (r / 8 * 64 + g / 4) * 32) by lia.
      rewrite Z.mod_add, Z.mod_small by lia. lia. }
    rewrite E1, E2, E3.
    rewrite (Z.add_comm (r / 8 * 64)), Z.mod_add, Z.mod_small by lia.
    pose proof (Z.div_mod r 8 ltac:(lia)).
    pose proof (Z.div_mod g 4 ltac:(lia)).
    pose proof (Z.div_mod b 8 ltac:(lia)).
    repeat f_equal; lia.
  - intros r' g' b' Hr' Hg' Hb'.
    destruct (F r' g' b' Hr' Hg' Hb') as (E' & Br' & Bg' & Bb').
    assert (Hc' : 0 <= color565 r' g' b' < 65536) by lia.
    destruct (swap_bytes_twice _ Hc') as [Back' _].
    subst word. split.
    + intros Eq. assert (Ec : color565 r' g' b' = color565 r g b)
        by (rewrite <- Back', Eq, Back; reflexivity).
      rewrite E, E' in Ec. lia.
    + intros (Er & Eg & Eb). f_equal. rewrite E, E', Er, Eg, Eb. reflexivity.
Qed.

Lemma palette_word_reads_back_witness :
  unpack565 (swap_bytes (color565 201 102 53)) = (200, 100, 48) /\
  swap_bytes (color565 207 103 55) = swap_bytes (color565 201 102 53).
Proof.
  destruct (palette_word_reads_back 201 102 53
              ltac:(lia) ltac:(lia) ltac:(lia)) as (_ & U & S).
  split; [exact U|].
  apply (S 207 103 55); try lia. repeat split; reflexivity.
Defined.

(** X5. The palette loop runs through exactly when the palette holds at
    least [3 * 2 ^ bits] values, and raises [IndexError] otherwise; when
    it runs through, entry [i] of the list is made from the values
    [3i], [3i + 1], [3i + 2] of the palette alone, in palette order, and
    for channel values in 0..255 it is the six characters [0x] and four
    hexadecimal digits. *)
Theorem palette_loop_entries (palette : list Z) (bits : Z) :
  0 <= bits ->
  (is_Some (pack_colors palette bits)
   <-> 3 * 2 ^ bits <= Z.of_nat (length palette)) /\
  forall colors, pack_colors palette bits = Some colors ->
    forall i, 0 <= i < 2 ^ bits ->
      exists r g b,
        palette_at palette (i * 3) = Some r /\
        palette_at palette (i * 3 + 1) = Some g /\
        palette_at palette (i * 3 + 2) = Some b /\
        nth_error colors (Z.to_nat i)
        = Some ("0x" +:+ Py.format_0x 4 (swap_bytes (color565 r g b))) /\
        (0 <= r < 256 -> 0 <= g < 256 -> 0 <= b < 256 ->
         String.length ("0x" +:+ Py.format_0x 4 (swap_bytes (color565 r g b)))
         = 6%nat).
Proof.
  intros Hb.
  assert (Hpow : 0 < 2 ^ bits) by (apply Z.pow_pos_nonneg; lia).
  assert (Entries : forall colors, pack_colors palette bits = Some colors ->
            forall i, 0 <= i < 2 ^ bits ->
              exists t, nth_error colors (Z.to_nat i) = Some t /\
                        pack_color palette i = Some t).
  { intros colors H i Hi. unfold pack_colors in H.
    apply pack_colors_from_entries in H as (made & -> & F).
    cbn [app]. rewrite Z.shiftl_1_l, <- (Z2Nat.id (2 ^ bits)), range_nat in F
      by lia.
    assert (Hn : (Z.to_nat i < Z.to_nat (2 ^ bits))%nat) by lia.
    revert F Hn. generalize (Z.to_nat (2 ^ bits)). intros n F Hn.
    assert (G : forall (l : list Z) (m : list string) k c,
              Forall2 (fun c t => pack_color palette c = Some t) l m ->
              nth_error l k = Some c ->
              exists t, nth_error m k = Some t /\ pack_color palette c = Some t).
    { intros l m k c FF. revert k. induction FF as [|x y l' m' Hxy FF IHF];
        intros [|k] Hk; simpl in *; try discriminate.
      - injection Hk as <-. eauto.
      - now apply IHF. }
    destruct (G _ _ (Z.to_nat i) (Z.of_nat (Z.to_nat i)) F) as (t & Ht & Pt).
    - rewrite nth_error_map, nth_error_seq.
      now rewrite (proj2 (Nat.ltb_lt _ _) Hn).
    - rewrite Z2Nat.id in Pt by lia. eauto. }
  split.
  - split.
    + intros [colors H].
      destruct (Entries colors H (2 ^ bits - 1) ltac:(lia)) as (t & _ & Pt).
      apply pack_color_inv in Pt as (r & g & b & _ & _ & Eb & _).
      unfold palette_at in Eb. apply lookup_lt_Some in Eb. lia.
    + now apply pack_colors_some.
  - intros colors H i Hi.
    destruct (Entries colors H i Hi) as (t & Ht & Pt).
    apply pack_color_inv in Pt as (r & g & b & Er & Eg & Eb & ->).
    exists r, g, b. repeat split; try assumption.
    intros Hr Hg Hbl. rewrite str_length_app.
    pose proof (packed_word_range r g b Hr Hg Hbl) as Hw.
    rewrite format_0x_length; [reflexivity | exact Hw | lia].
Qed.

Lemma palette_loop_entries_witness :
  pack_colors [0; 0; 0; 255; 255; 255] 2 = None /\
  exists r g b,
    nth_error (default [] (pack_colors bw_palette 1)) 1
    = Some ("0x" +:+ Py.format_0x 4 (swap_bytes (color565 r g b))).
Proof.
  destruct (palette_loop_entries [0; 0; 0; 255; 255; 255] 2 ltac:(lia))
    as (S2 & _).
  destruct (palette_loop_entries bw_palette 1 ltac:(lia)) as (_ & E1).
  split.
  - destruct (pack_colors [0; 0; 0; 255; 255; 255] 2) eqn:E; [|reflexivity].
    assert (is_Some (Some l)) as X by eauto.
    apply S2 in X. simpl in X. lia.
  - destruct (E1 ["0x0000"; "0xffff"] eq_refl 1 ltac:(lia))
      as (r & g & b & _ & _ & _ & N & _).
    exists r, g, b. exact N.
Defined.

(** ** What a conversion leaves alone *)

Section LeftAlone.

Lemma same_files_refl (m : gmap path node) : same_files m m.
Proof. intros p c. reflexivity. Qed.

Lemma same_files_trans (m1 m2 m3 : gmap path node) :
  same_files m1 m2 -> same_files m2 m3 -> same_files m1 m3.
Proof.
  intros H12 H23 p c. etransitivity; [apply H23 | apply H12].
Qed.

Lemma same_files_mkdir (m : gmap path node) (q : path) :
  m !! q = None -> same_files m (<[q := Dir]> m).
Proof.
  intros Hq p c. destruct (decide (q = p)) as [<-|Hne].
  - rewrite lookup_insert_eq, Hq. split; discriminate.
  - now rewrite lookup_insert_ne.
Qed.

Lemma keeps_files_ret {A} (a : A) : keeps_files (mret a).
Proof. intros w r w' H. injection H as _ <-. apply same_files_refl. Qed.

Lemma keeps_files_raise {A} (e : exn) : keeps_files (@raise A e).
Proof. intros w r w' H. injection H as _ <-. apply same_files_refl. Qed.

Lemma keeps_files_lift {A} (e : exn) (o : option A) : keeps_files (lift e o).
Proof. destruct o; [apply keeps_files_ret | apply keeps_files_raise]. Qed.

Lemma keeps_files_log (ev : event) : keeps_files (log ev).
Proof. intros w r w' H. injection H as _ <-. apply same_files_refl. Qed.

Lemma keeps_files_is_file (p : path) : keeps_files (is_file p).
Proof. intros w r w' H. injection H as _ <-. apply same_files_refl. Qed.

Lemma keeps_files_bind {A B} (m : M A) (k : A -> M B) :
  keeps_files m -> (forall a, keeps_files (k a)) -> keeps_files (m ≫= k).
Proof.
  intros Hm Hk w r w' H. unfold mbind, M_bind, bind in H.
  destruct (m w) as [[a|e] w1] eqn:E.
  - eapply same_files_trans; [eapply Hm; exact E | eapply Hk; exact H].
  - injection H as _ <-. eapply Hm; exact E.
Qed.

Lemma fails_clean_bind {A B} (m : M A) (k : A -> M B) :
  keeps_files m -> (forall a, fails_clean (k a)) -> fails_clean (m ≫= k).
Proof.
  intros Hm Hk w e w' H. unfold mbind, M_bind, bind in H.
  destruct (m w) as [[a|e0] w1] eqn:E.
  - eapply same_files_trans; [eapply Hm; exact E | eapply Hk; exact H].
  - injection H as _ <-. eapply Hm; exact E.
Qed.

Lemma fails_clean_raise {A} (e : exn) : fails_clean (@raise A e).
Proof. intros w e' w' H. injection H as _ <-. apply same_files_refl. Qed.

Lemma keeps_files_for_each {A} (l : list A) (body : A -> M unit) :
  (forall a, keeps_files (body a)) -> keeps_files (for_each l body).
Proof.
  intros H. induction l as [|a l IH]; simpl.
  - apply keeps_files_ret.
  - apply keeps_files_bind; [apply H | intros _; exact IH].
Qed.

(** [mkdir] makes directories only. *)
Lemma keeps_files_mkdir_parents (p : path) : keeps_files (mkdir_parents p).
Proof.
  unfold mkdir_parents.
  apply keeps_files_bind; [apply keeps_files_log | intros _].
  apply keeps_files_for_each. intros q w r w' H. unfold mkdir_one in H.
  destruct (fs w !! q) as [[|c]|] eqn:E; injection H as _ <-;
    try apply same_files_refl.
  cbn [fs]. now apply same_files_mkdir.
Qed.

Variable Path : string -> path.
Variable readable : path -> bool.
Variable decode : string -> option (Image rgb).
Variable luma : rgb -> Z.
Variable to_P : Z -> Z.
Variable quantize : Image rgb -> Z -> list Z * (Z * Z -> Z).

Lemma keeps_files_Image_open (p : path) : keeps_files (Image_open readable decode p).
Proof.
  unfold Image_open.
  apply keeps_files_bind; [apply keeps_files_log | intros _].
  apply keeps_files_bind.
  - intros w r w' H. injection H as _ <-. apply same_files_refl.
  - intros w0. destruct (fs w0 !! p) as [[|c]|];
      [apply keeps_files_raise | | apply keeps_files_raise].
    destruct (negb (readable p)); [apply keeps_files_raise|].
    destruct (decode c) as [img|]; [|apply keeps_files_raise].
    destruct (zero_size img); [apply keeps_files_raise | apply keeps_files_ret].
Qed.

(** The steps up to the open file end where the whole converter does,
    or hand over to its [with] block. *)
Lemma convert_splits (image_file : string) (bits : Z)
    (output : option string) (w : world) :
  convert_image_to_bitmap Path readable decode luma to_P quantize
    image_file bits output w
  = (convert_until_open Path readable decode luma to_P quantize
       image_file bits output
     ≫= convert_after_open bits) w.
Proof.
  unfold convert_image_to_bitmap, convert_until_open, convert_after_open.
  destruct ((bits <? 1) || (bits >? 8)); [reflexivity|].
  unfold mbind, M_bind, bind.
  destruct (is_file (Path image_file) w) as [[found|e] w1]; [|reflexivity].
  destruct (negb found); [reflexivity|].
  destruct (lift empty_name _ w1) as [[o1|e] w2]; [|reflexivity].
  destruct (lift empty_name (ensure_py o1) w2) as [[o2|e] w3]; [|reflexivity].
  destruct (Image_open readable decode (Path image_file) w3)
    as [[img|e] w4]; [|reflexivity].
  destruct (lift IndexError _ w4) as [[colors|e] w5]; [|reflexivity].
  destruct (mkdir_parents (Pathlib.parent o2) w5) as [[u|e] w6];
    [|reflexivity].
  destruct (open_w o2 w6) as [[f|e] w7]; reflexivity.
Qed.

Lemma main_splits (image_file : string) (bits : Z)
    (output : option string) (w : world) :
  main Path readable decode luma to_P quantize image_file bits output w
  = (main_until_open Path readable decode luma to_P quantize
       image_file bits output
     ≫= main_after_open bits) w.
Proof.
  unfold main, main_until_open, main_after_open.
  destruct (negb (existsb (Z.eqb bits) (Py.range3 1 9 1))); [reflexivity|].
  unfold mbind, M_bind, bind.
  destruct (lift empty_name _ w) as [[o1|e] w2]; [|reflexivity].
  destruct (Image_open readable decode (Path image_file) w2)
    as [[img|e] w4]; [|reflexivity].
  destruct (lift IndexError _ w4) as [[colors|e] w5]; [|reflexivity].
  destruct (open_w o1 w5) as [[f|e] w7]; reflexivity.
Qed.

(** [open(p, "w")] that raises has changed nothing. *)
Lemma fails_clean_open_w (out : path) : fails_clean (open_w out).
Proof.
  intros w e w' E.
  unfold open_w in E. unfold mbind, M_bind, bind, log in E.
  cbn in E. unfold create in E. cbn [fs calls] in E.
  destruct out as [|a p]; [injection E as _ <-; apply same_files_refl|].
  destruct (is_dir_in _ _).
  - destruct (fs w !! (a :: p)) as [[|c]|]; try discriminate.
    injection E as _ <-. apply same_files_refl.
  - destruct (fs w !! Pathlib.parent (a :: p)) as [[|c]|];
      injection E as _ <-; apply same_files_refl.
Qed.

Lemma fails_clean_then_ret {A B} (m : M A) (f : A -> B) :
  fails_clean m -> fails_clean (a ← m; mret (f a)).
Proof.
  intros Hm w e w' H. unfold mbind, M_bind, bind in H.
  destruct (m w) as [[a|e0] w1] eqn:E; [discriminate|].
  injection H as _ <-. eapply Hm; exact E.
Qed.

Lemma convert_until_open_fails_clean (image_file : string) (bits : Z)
    (output : option string) :
  fails_clean (convert_until_open Path readable decode luma to_P quantize
                 image_file bits output).
Proof.
  unfold convert_until_open.
  destruct ((bits <? 1) || (bits >? 8)) eqn:T; [apply fails_clean_raise|].
  apply fails_clean_bind; [apply keeps_files_is_file | intros found].
  destruct (negb found); [apply fails_clean_raise|].
  apply fails_clean_bind; [apply keeps_files_lift | intros o1].
  apply fails_clean_bind; [apply keeps_files_lift | intros o2].
  apply fails_clean_bind; [apply keeps_files_Image_open | intros img].
  apply fails_clean_bind; [apply keeps_files_lift | intros colors].
  apply fails_clean_bind; [apply keeps_files_mkdir_parents | intros _].
  apply (fails_clean_then_ret (open_w o2)), fails_clean_open_w.
Qed.

Lemma main_until_open_fails_clean (image_file : string) (bits : Z)
    (output : option string) :
  fails_clean (main_until_open Path readable decode luma to_P quantize
                 image_file bits output).
Proof.
  unfold main_until_open.
  destruct (existsb (Z.eqb bits) (Py.range3 1 9 1)) eqn:T;
    [|apply fails_clean_raise].
  cbn [negb].
  apply fails_clean_bind; [apply keeps_files_lift | intros o1].
  apply fails_clean_bind; [apply keeps_files_Image_open | intros img].
  apply fails_clean_bind; [apply keeps_files_lift | intros colors].
  apply (fails_clean_then_ret (open_w o1)), fails_clean_open_w.
Qed.

End LeftAlone.

(** X6. A conversion that fails before its first [write] has written
    nothing.  [convert_image_to_bitmap] and the script's [main] are
    their lines up to the opening of the out file followed by the
    [with] block; whichever exception those lines raise, that of
    [open] included, every regular file is afterwards what it was
    before, text for text, and no new file exists
    ([convert_image_to_bitmap] may have made directories by then).  A
    failure of [write], of the closing of the file or of [print] is not
    covered. *)
Theorem failure_before_writing (Path : string -> path)
    (readable : path -> bool)
    (decode : string -> option (Image rgb)) (luma : rgb -> Z) (to_P : Z -> Z)
    (quantize : Image rgb -> Z -> list Z * (Z * Z -> Z))
    (image_file : string) (bpp : Z) (output : option string) (w : world) :
  convert_image_to_bitmap Path readable decode luma to_P quantize
    image_file bpp output w
  = (convert_until_open Path readable decode luma to_P quantize
       image_file bpp output
     ≫= convert_after_open bpp) w /\
  main Path readable decode luma to_P quantize image_file bpp output w
  = (main_until_open Path readable decode luma to_P quantize
       image_file bpp output
     ≫= main_after_open bpp) w /\
  forall e w',
    convert_until_open Path readable decode luma to_P quantize
      image_file bpp output w = (Raise e, w')
    \/ main_until_open Path readable decode luma to_P quantize
         image_file bpp output w = (Raise e, w') ->
    (convert_image_to_bitmap Path readable decode luma to_P quantize
       image_file bpp output w = (Raise e, w')
     \/ main Path readable decode luma to_P quantize
          image_file bpp output w = (Raise e, w')) /\
    forall p c, fs w' !! p = Some (File c) <-> fs w !! p = Some (File c).
Proof.
  split; [apply convert_splits|]. split; [apply main_splits|].
  intros e w' [H | H]; split.
  - left. rewrite convert_splits. now apply bind_raise.
  - exact (convert_until_open_fails_clean Path readable decode luma to_P
             quantize image_file bpp output w e w' H).
  - right. rewrite main_splits. now apply bind_raise.
  - exact (main_until_open_fails_clean Path readable decode luma to_P
             quantize image_file bpp output w e w' H).
Qed.

Lemma failure_before_writing_witness :
  (fs (snd (toy_setting convert_image_to_bitmap "img/a.png" 4
              (Some "img/a.png/x.py") toy_world)) !! ["img"; "a.png"]
   = Some (File "AzB")
   <-> fs toy_world !! ["img"; "a.png"] = Some (File "AzB")) /\
  (fs (snd (toy_setting main "img/a.png" 4 (Some "out/deep/a.py") toy_world))
     !! ["out"; "deep"; "a.py"] = Some (File "")
   <-> fs toy_world !! ["out"; "deep"; "a.py"] = Some (File "")).
Proof.
  destruct (failure_before_writing split_path all_readable toy_decode luma601
              (fun v => v) ramp_quantize "img/a.png" 4
              (Some "img/a.png/x.py") toy_world) as (E1 & _ & F1).
  destruct (failure_before_writing split_path all_readable toy_decode luma601
              (fun v => v) ramp_quantize "img/a.png" 4
              (Some "out/deep/a.py") toy_world) as (_ & E2 & F2).
  split.
  - destruct (F1 FileExistsError
                (snd (toy_setting convert_image_to_bitmap "img/a.png" 4
                        (Some "img/a.png/x.py") toy_world))
                ltac:(left; vm_compute; reflexivity)) as [_ G].
    apply G.
  - destruct (F2 (FileNotFoundError "out/deep/a.py")
                (snd (toy_setting main "img/a.png" 4 (Some "out/deep/a.py")
                        toy_world))
                ltac:(right; vm_compute; reflexivity)) as [_ G].
    apply G.
Defined.

Section Reruns.

Variable Path : string -> path.
Variable readable : path -> bool.
Variable decode : string -> option (Image rgb).
Variable luma : rgb -> Z.
Variable to_P : Z -> Z.
Variable quantize : Image rgb -> Z -> list Z * (Z * Z -> Z).

Lemma make_dirs_cons (q : path) (qs : list path) (m : gmap path node) :
  make_dirs (q :: qs) m
  = make_dirs qs (match m !! q with None => <[q := Dir]> m | Some _ => m end).
Proof. reflexivity. Qed.

Lemma make_dirs_id (qs : list path) (m : gmap path node) :
  (forall q, In q qs -> m !! q = Some Dir) -> make_dirs qs m = m.
Proof.
  induction qs as [|q qs IH]; intros H; [reflexivity|].
  rewrite make_dirs_cons, (H q) by now left.
  apply IH. intros q' Hq'. apply H. now right.
Qed.

(** Where a path goes after [mkdir]: kept if it was there, a directory
    if it was missing and is among the directories asked for. *)
Lemma make_dirs_lookup (qs : list path) (m : gmap path node) (p : path) :
  make_dirs qs m !! p = m !! p \/
  (m !! p = None /\ make_dirs qs m !! p = Some Dir /\ In p qs).
Proof.
  revert m. induction qs as [|q qs IH]; intros m; [now left|].
  rewrite make_dirs_cons.
  destruct (m !! q) as [n|] eqn:E.
  - destruct (IH m) as [H | (H1 & H2 & H3)]; [now left|].
    right. repeat split; try assumption. now right.
  - destruct (decide (q = p)) as [<-|Hne].
    + right. split; [assumption|]. split; [|now left].
      apply make_dirs_keeps, lookup_insert_eq.
    + destruct (IH (<[q := Dir]> m)) as [H | (H1 & H2 & H3)].
      * left. now rewrite H, lookup_insert_ne.
      * right. rewrite lookup_insert_ne in H1 by assumption.
        repeat split; try assumption. now right.
Qed.

End Reruns.

(** X7. A conversion that returns touches the out path and nothing
    else but directories on the way to it: after
    [convert_image_to_bitmap] every other path holds what it held
    before, except that a missing directory above the out path has been
    made; after the script's [main] every other path holds what it held
    before. *)
Theorem success_frame (Path : string -> path) (readable : path -> bool)
    (decode : string -> option (Image rgb)) (luma : rgb -> Z) (to_P : Z -> Z)
    (quantize : Image rgb -> Z -> list Z * (Z * Z -> Z))
    (image_file : string) (bpp : Z) (output : option string)
    (w w' : world) (out : path) :
  (convert_image_to_bitmap Path readable decode luma to_P quantize
     image_file bpp output w = (Return out, w') ->
   forall p, p <> out ->
     fs w' !! p = fs w !! p \/
     (fs w !! p = None /\ fs w' !! p = Some Dir /\
      In p (ancestors (Pathlib.parent out)))) /\
  (main Path readable decode luma to_P quantize image_file bpp output w
   = (Return tt, w') ->
   default_out_path Path (Path image_file) output = Some out ->
   forall p, p <> out -> fs w' !! p = fs w !! p).
Proof.
  split.
  - intros H p Hp. pose proof H as H0.
    apply convert_returns in H0
      as (c & src & colors & Hb & Hf & Hd & Hr & Hz & Ho & Hc & Hdirs & Hnodir).
    rewrite (convert_runs Path readable decode luma to_P quantize image_file bpp output
               w c src out colors) in H by assumption.
    apply (f_equal snd) in H. cbn [snd] in H. subst w'.
    unfold converted. cbn [fs]. rewrite lookup_insert_ne by congruence.
    destruct (make_dirs_lookup (ancestors (Pathlib.parent out)) (fs w) p)
      as [E | E]; [now left | now right].
  - intros H Hout p Hp. pose proof H as H0.
    apply main_returns in H0
      as (c & src & colors & out' & Hb & Hf & Hd & Hr & Hz & Ho & Hc & Hne & Hdir & Hnodir).
    assert (out' = out) by congruence. subst out'.
    rewrite (main_runs Path readable decode luma to_P quantize image_file bpp output
               w c src out colors) in H by assumption.
    apply (f_equal snd) in H. cbn [snd] in H. subst w'.
    unfold converted. cbn [fs make_dirs fold_left].
    now rewrite lookup_insert_ne by congruence.
Qed.

Lemma success_frame_witness :
  fs (snd (toy_setting convert_image_to_bitmap "img/a.png" 4
             (Some "out/deep/a.txt") toy_world)) !! ["img"; "a.png"]
  = fs toy_world !! ["img"; "a.png"] /\
  fs (snd (toy_setting main "img/a.png" 4 None toy_world)) !! ["img"; "a.png"]
  = fs toy_world !! ["img"; "a.png"].
Proof.
  split.
  - destruct (success_frame split_path all_readable toy_decode luma601 (fun v => v)
                ramp_quantize "img/a.png" 4 (Some "out/deep/a.txt") toy_world
                (snd (toy_setting convert_image_to_bitmap "img/a.png" 4
                        (Some "out/deep/a.txt") toy_world))
                ["out"; "deep"; "a.py"]) as (G & _).
    destruct (G ltac:(vm_compute; reflexivity) ["img"; "a.png"]
                ltac:(discriminate)) as [E | (E & _)];
      [exact E | vm_compute in E; discriminate].
  - destruct (success_frame split_path all_readable toy_decode luma601 (fun v => v)
                ramp_quantize "img/a.png" 4 None toy_world
                (snd (toy_setting main "img/a.png" 4 None toy_world))
                ["img"; "a.py"]) as (_ & C).
    apply C; [vm_compute; reflexivity | reflexivity | discriminate].
Defined.

(** X8. Converting again changes nothing: when a conversion has returned
    and its out path is not the image file itself, the same call on the
    world it left returns the same out path and leaves the same file
    system.  (With the out path on the image file the first run has
    replaced the image by the module text.) *)
Theorem rerun_changes_nothing (Path : string -> path) (readable : path -> bool)
    (decode : string -> option (Image rgb)) (luma : rgb -> Z) (to_P : Z -> Z)
    (quantize : Image rgb -> Z -> list Z * (Z * Z -> Z))
    (image_file : string) (bpp : Z) (output : option string)
    (w w1 : world) (out : path) :
  out <> Path image_file ->
  (convert_image_to_bitmap Path readable decode luma to_P quantize
     image_file bpp output w = (Return out, w1) ->
   exists w2,
     convert_image_to_bitmap Path readable decode luma to_P quantize
       image_file bpp output w1 = (Return out, w2) /\
     fs w2 = fs w1) /\
  (main Path readable decode luma to_P quantize image_file bpp output w
   = (Return tt, w1) ->
   default_out_path Path (Path image_file) output = Some out ->
   exists w2,
     main Path readable decode luma to_P quantize image_file bpp output w1
     = (Return tt, w2) /\
     fs w2 = fs w1).
Proof.
  intros Hdiff. split.
  - intros H. pose proof H as H0.
    apply convert_returns in H0
      as (c & src & colors & Hb & Hf & Hd & Hr & Hz & Ho & Hc & Hdirs & Hnodir).
    rewrite (convert_runs Path readable decode luma to_P quantize image_file bpp output
               w c src out colors) in H by assumption.
    apply (f_equal snd) in H. cbn [snd] in H. subst w1.
    set (w1 := converted w _ out _ bpp colors _).
    assert (Hne : out <> []).
    { unfold gui_out_path in Ho.
      destruct (default_out_path Path (Path image_file) output);
        [|discriminate].
      now apply ensure_py_nonempty in Ho. }
    assert (Hmade : forall q, In q (ancestors (Pathlib.parent out)) ->
                              fs w1 !! q = Some Dir).
    { intros q Hq. subst w1. unfold converted. cbn [fs].
      rewrite lookup_insert_ne
        by (intros <-; now apply (not_in_ancestors_parent out)).
      apply make_dirs_made; [assumption | intros t; now apply Hdirs]. }
    eexists. split.
    + apply (convert_runs Path readable decode luma to_P quantize image_file bpp output
               w1 c src out colors); try assumption.
      * subst w1. unfold converted. cbn [fs].
        rewrite lookup_insert_ne by congruence.
        now apply make_dirs_keeps.
      * intros q t Hq. rewrite (Hmade q Hq). discriminate.
      * subst w1. unfold converted. cbn [fs].
        rewrite lookup_insert_eq. discriminate.
    + unfold converted at 1. cbn [fs].
      rewrite (make_dirs_id _ (fs w1) Hmade).
      subst w1. unfold converted. cbn [fs].
      now rewrite insert_insert_eq.
  - intros H Hout. pose proof H as H0.
    apply main_returns in H0
      as (c & src & colors & out' & Hb & Hf & Hd & Hr & Hz & Ho & Hc & Hne & Hdir & Hnodir).
    assert (out' = out) by congruence. subst out'.
    rewrite (main_runs Path readable decode luma to_P quantize image_file bpp output
               w c src out colors) in H by assumption.
    apply (f_equal snd) in H. cbn [snd] in H. subst w1.
    set (w1 := mkWorld _ _).
    assert (Hfs : fs w1 = <[out := File (artifact
                     (Z.of_nat (height (to_indexed luma to_P quantize src bpp)))
                     (Z.of_nat (width (to_indexed luma to_P quantize src bpp)))
                     (Z.shiftl 1 bpp)
                     (Py.len (image_bitstring
                                (to_indexed luma to_P quantize src bpp) bpp))
                     bpp colors
                     (bitmap_bytes (image_bitstring
                                (to_indexed luma to_P quantize src bpp) bpp)))]>
                   (fs w)) by reflexivity.
    eexists. split.
    + apply (main_runs Path readable decode luma to_P quantize image_file bpp output
               w1 c src out colors); try assumption.
      * rewrite Hfs, lookup_insert_ne by congruence. assumption.
      * rewrite Hfs. destruct (Pathlib.parent out) as [|a q] eqn:Ep;
          [reflexivity|].
        unfold is_dir_in in *. rewrite lookup_insert_ne; [assumption|].
        intros E. apply (f_equal (@length string)) in E.
        rewrite <- Ep, parent_length in E.
        destruct out; [congruence | simpl in E; lia].
      * rewrite Hfs, lookup_insert_eq. discriminate.
    + cbn [fs]. unfold converted. cbn [fs make_dirs fold_left].
      rewrite Hfs. now rewrite insert_insert_eq.
Qed.

Lemma rerun_changes_nothing_witness :
  let w1 := snd (toy_setting convert_image_to_bitmap "img/a.png" 4
                   (Some "out/deep/a.txt") toy_world) in
  exists w2,
    toy_setting convert_image_to_bitmap "img/a.png" 4 (Some "out/deep/a.txt") w1
    = (Return ["out"; "deep"; "a.py"], w2) /\
    fs w2 = fs w1.
Proof.
  cbv zeta.
  destruct (rerun_changes_nothing split_path all_readable toy_decode luma601 (fun v => v)
              ramp_quantize "img/a.png" 4 (Some "out/deep/a.txt") toy_world
              (snd (toy_setting convert_image_to_bitmap "img/a.png" 4
                      (Some "out/deep/a.txt") toy_world))
              ["out"; "deep"; "a.py"] ltac:(vm_compute; discriminate))
    as (G & _).
  apply G. vm_compute. reflexivity.
Defined.

(** ** The front end *)

Section FrontEndFacts.

Lemma join_lines (m : string) (rest : list string) :
  Py.join nl (m :: rest) = m +:+ str_concat (map (fun x => nl +:+ x) rest).
Proof.
  revert m. induction rest as [|x rest IH]; intros m.
  - cbn [Py.join map str_concat fold_right]. now rewrite str_app_nil_r.
  - change (Py.join nl (m :: x :: rest)) with (m +:+ nl +:+ Py.join nl (x :: rest)).
    rewrite IH. cbn [map str_concat fold_right].
    now rewrite !str_app_assoc.
Qed.

Lemma append_log_fields (message : string) (it : items) :
  image_path_input (append_log message it) = image_path_input it /\
  output_path_input (append_log message it) = output_path_input it /\
  bpp_slider (append_log message it) = bpp_slider it.
Proof. now repeat split. Qed.

Lemma append_log_nonempty (message : string) (it : items) :
  status_log it <> "" ->
  status_log (append_log message it) = status_log it +:+ nl +:+ message.
Proof.
  intros H. unfold append_log. cbn [status_log set_status_log].
  now destruct (String.eqb_spec (status_log it) "").
Qed.

Lemma append_log_empty (message : string) (it : items) :
  status_log it = "" -> status_log (append_log message it) = message.
Proof.
  intros H. unfold append_log. cbn [status_log set_status_log].
  now rewrite H.
Qed.

Lemma str_app_nonempty (a b : string) : a <> "" -> a +:+ b <> "".
Proof. destruct a; [congruence | discriminate]. Qed.

(** Messages appended to a log that is not empty. *)
Lemma append_log_many (msgs : list string) (it : items) :
  status_log it <> "" ->
  status_log (fold_left (fun it m => append_log m it) msgs it)
  = status_log it +:+ str_concat (map (fun x => nl +:+ x) msgs).
Proof.
  revert it. induction msgs as [|m msgs IH]; intros it H.
  - cbn [fold_left map str_concat fold_right]. now rewrite str_app_nil_r.
  - cbn [fold_left map str_concat fold_right].
    rewrite IH by (rewrite append_log_nonempty by assumption;
                   now apply str_app_nonempty).
    rewrite append_log_nonempty by assumption.
    now rewrite !str_app_assoc.
Qed.

End FrontEndFacts.

(** X9. [append_log] keeps the log as lines: on an empty log, messages
    whose first is not empty leave the log holding them joined by line
    ends, with no line end before the first or after the last; the other
    items of the window are not touched.  An empty message on an empty
    log leaves it empty. *)
Theorem append_log_lines (first : string) (rest : list string) (it : items) :
  status_log it = "" -> first <> "" ->
  let it' := fold_left (fun it m => append_log m it) (first :: rest) it in
  status_log it' = Py.join nl (first :: rest) /\
  image_path_input it' = image_path_input it /\
  output_path_input it' = output_path_input it /\
  bpp_slider it' = bpp_slider it /\
  status_log (append_log "" it) = "".
Proof.
  intros Hempty Hfirst it'. subst it'. cbn [fold_left].
  split.
  - rewrite append_log_many by (now rewrite append_log_empty).
    now rewrite append_log_empty, join_lines.
  - assert (F : forall msgs it0,
              let r := fold_left (fun it m => append_log m it) msgs it0 in
              image_path_input r = image_path_input it0 /\
              output_path_input r = output_path_input it0 /\
              bpp_slider r = bpp_slider it0).
    { induction msgs as [|m msgs IH]; intros it0; [now repeat split|].
      cbn [fold_left]. destruct (IH (append_log m it0)) as (A & B & C).
      cbv zeta. now rewrite A, B, C. }
    destruct (F rest (append_log first it)) as (A & B & C).
    repeat split; try assumption.
    now apply append_log_empty.
Qed.

Lemma append_log_lines_witness :
  status_log (fold_left (fun it m => append_log m it)
                        ["Converting:"; ""; "SUCCESS"] toy_items)
  = Py.join nl ["Converting:"; ""; "SUCCESS"].
Proof.
  destruct (append_log_lines "Converting:" [""; "SUCCESS"] toy_items
              eq_refl ltac:(discriminate)) as (E & _).
  exact E.
Defined.

Section Button.

Variable Path : string -> path.
Variable readable : path -> bool.
Variable decode : string -> option (Image rgb).
Variable luma : rgb -> Z.
Variable to_P : Z -> Z.
Variable quantize : Image rgb -> Z -> list Z * (Z * Z -> Z).
Variable strip : string -> string.
Variable exn_text : exn -> string.

(** [convert_image_to_bitmap] never ends the program. *)
Lemma convert_never_exits (image_file : string) (bits : Z)
    (output : option string) (w w' : world) (n : Z) :
  convert_image_to_bitmap Path readable decode luma to_P quantize
    image_file bits output w <> (Raise (SystemExit n), w').
Proof.
  intros H.
  destruct (decide (1 <= bits <= 8)) as [Hb|Hb].
  - apply (convert_raises_late Path readable decode luma to_P quantize
             image_file bits output Hb) in H.
    inversion H.
  - unfold convert_image_to_bitmap in H.
    destruct ((bits <? 1) || (bits >? 8)) eqn:T.
    + discriminate.
    + apply bits_test in T. contradiction.
Qed.

Lemma nonempty_test (c : ascii) (a b : string) :
  String.eqb (String c a +:+ b) "" = false.
Proof. reflexivity. Qed.

Lemma header_logged (image_path output_path : string) (bpp : Z)
    (it : items) (last : string) :
  let it1 := append_log ("Converting:" +:+ nl +:+ "  Image: " +:+ image_path
                          +:+ nl +:+ "  BPP: " +:+ Py.str bpp)
                        (set_status_log "" it) in
  let it2 := if negb (String.eqb output_path "")
             then append_log ("  Output: " +:+ output_path) it1
             else append_log "  Output: <image>.py (auto)" it1 in
  append_log last it2
  = set_status_log
      (Py.join nl (run_header image_path bpp output_path ++ [last])) it.
Proof.
  unfold run_header.
  destruct (String.eqb output_path ""); cbn [negb app Py.join];
    unfold append_log, set_status_log;
    cbn [status_log image_path_input output_path_input bpp_slider];
    f_equal;
    change (String.eqb "" "") with true; cbn [negb];
    rewrite (nonempty_test "C"); cbn [negb];
    rewrite str_app_assoc, (nonempty_test "C"); cbn [negb];
    now rewrite !str_app_assoc.
Qed.

Lemma button_run (g : gui) :
  String.eqb (strip (image_path_input (window g))) "" = false ->
  let image := strip (image_path_input (window g)) in
  let output := strip (output_path_input (window g)) in
  let bpp := bpp_slider (window g) in
  let run := convert_image_to_bitmap Path readable decode luma to_P quantize
               image bpp
               (if negb (String.eqb output "") then Some output else None)
               (disk g) in
  convert_button_callback Path readable decode luma to_P quantize strip exn_text g
  = (Return tt,
     mkGui (set_status_log
              (Py.join nl
                 (run_header image bpp output
                  ++ [outcome_line exn_text (fst run)]))
              (window g))
           (snd run)).
Proof.
  intros Himg image output bpp run.
  subst image output bpp run.
  unfold convert_button_callback. rewrite Himg.
  destruct (convert_image_to_bitmap _ _ _ _ _ _ _ _ _) as [[out|e] w'] eqn:R;
    cbn [fst snd].
  - unfold outcome_line. now rewrite header_logged.
  - destruct e; unfold log_failure, outcome_line, error_line;
      try (now rewrite header_logged).
    exfalso. exact (convert_never_exits _ _ _ _ _ _ R).
Qed.

End Button.

(** X10. The Convert button never raises: every exception of the engine
    is caught and logged (the engine never ends the program), the two
    path fields and the slider are left as they were, and without an
    image path (blank after [strip]) the engine is not run: the disk is
    as before and the log holds the one line asking for an image,
    whatever it held. *)
Theorem convert_button_never_raises (Path : string -> path) (readable : path -> bool)
    (decode : string -> option (Image rgb)) (luma : rgb -> Z) (to_P : Z -> Z)
    (quantize : Image rgb -> Z -> list Z * (Z * Z -> Z))
    (strip : string -> string) (exn_text : exn -> string) (g : gui) :
  let r := convert_button_callback Path readable decode luma to_P quantize
             strip exn_text g in
  fst r = Return tt /\
  image_path_input (window (snd r)) = image_path_input (window g) /\
  output_path_input (window (snd r)) = output_path_input (window g) /\
  bpp_slider (window (snd r)) = bpp_slider (window g) /\
  (strip (image_path_input (window g)) = "" ->
   disk (snd r) = disk g /\
   status_log (window (snd r)) = "ERROR: Please select an image file first.").
Proof.
  intros r. subst r.
  destruct (String.eqb (strip (image_path_input (window g))) "") eqn:E.
  - unfold convert_button_callback. rewrite E. cbn. now repeat split.
  - rewrite button_run by exact E. cbn [fst snd window disk].
    repeat (split; [reflexivity|]).
    intros H. rewrite H in E. discriminate.
Qed.

Lemma convert_button_never_raises_witness :
  fst (toy_gui (mkItems "  " "x.py" 4 "old") toy_world) = Return tt /\
  disk (snd (toy_gui (mkItems "  " "x.py" 4 "old") toy_world)) = toy_world /\
  status_log (window (snd (toy_gui (mkItems "  " "x.py" 4 "old") toy_world)))
  = "ERROR: Please select an image file first.".
Proof.
  destruct (convert_button_never_raises split_path all_readable toy_decode luma601
              (fun v => v) ramp_quantize toy_strip toy_text
              (mkGui (mkItems "  " "x.py" 4 "old") toy_world))
    as (A & _ & _ & _ & E).
  destruct (E ltac:(vm_compute; reflexivity)) as [F G].
  exact (conj A (conj F G)).
Defined.

(** X11. With an image path, the Convert button runs the engine on the
    stripped fields and the slider's value, with no output when the
    output field is blank, and leaves the disk as the engine left it.
    The old log is discarded: the log then holds the two lines naming
    the run and one line for the outcome, [SUCCESS: Wrote] and the out
    path when the engine returned, [ERROR:] and the message when it
    raised, with the exception's type name except for a
    [FileNotFoundError]. *)
Theorem convert_button_reports (Path : string -> path) (readable : path -> bool)
    (decode : string -> option (Image rgb)) (luma : rgb -> Z) (to_P : Z -> Z)
    (quantize : Image rgb -> Z -> list Z * (Z * Z -> Z))
    (strip : string -> string) (exn_text : exn -> string) (g : gui) :
  strip (image_path_input (window g)) <> "" ->
  let image := strip (image_path_input (window g)) in
  let output := strip (output_path_input (window g)) in
  let bpp := bpp_slider (window g) in
  let run := convert_image_to_bitmap Path readable decode luma to_P quantize
               image bpp (if String.eqb output "" then None else Some output)
               (disk g) in
  convert_button_callback Path readable decode luma to_P quantize strip exn_text g
  = (Return tt,
     mkGui (mkItems (image_path_input (window g))
                    (output_path_input (window g)) bpp
                    (Py.join nl (run_header image bpp output
                                 ++ [outcome_line exn_text (fst run)])))
           (snd run)).
Proof.
  intros H image output bpp run.
  rewrite button_run by (now apply String.eqb_neq).
  subst run image output bpp. unfold set_status_log.
  now destruct (String.eqb (strip (output_path_input (window g))) "").
Qed.

Lemma convert_button_reports_witness :
  toy_gui toy_window toy_world
  = (Return tt,
     mkGui (mkItems " img/a.png " "" 4
              (Py.join nl ["Converting:" +:+ nl +:+ "  Image: img/a.png"
                             +:+ nl +:+ "  BPP: 4";
                           "  Output: <image>.py (auto)";
                           "SUCCESS: Wrote img/a.py"]))
           (snd (toy_setting convert_image_to_bitmap "img/a.png" 4 None
                   toy_world))) /\
  snd (toy_gui (mkItems "img/b.png" " out.txt" 9 "") toy_world)
  = mkGui (mkItems "img/b.png" " out.txt" 9
             (Py.join nl ["Converting:" +:+ nl +:+ "  Image: img/b.png"
                            +:+ nl +:+ "  BPP: 9";
                          "  Output: out.txt";
                          "ERROR: ValueError: bits_per_pixel must be between 1 and 8"]))
          toy_world.
Proof.
  split.
  - unfold toy_gui, toy_setting.
    rewrite (convert_button_reports split_path all_readable toy_decode luma601
               (fun v => v) ramp_quantize toy_strip toy_text
               (mkGui toy_window toy_world)) by (vm_compute; discriminate).
    vm_compute. reflexivity.
  - unfold toy_gui, toy_setting.
    rewrite (convert_button_reports split_path all_readable toy_decode luma601
               (fun v => v) ramp_quantize toy_strip toy_text
               (mkGui (mkItems "img/b.png" " out.txt" 9 "") toy_world))
      by (vm_compute; discriminate).
    vm_compute. reflexivity.
Defined.

Section Choosers.

Lemma join_last_nonempty (sep x : string) (l : list string) :
  x <> "" -> Py.join sep (l ++ [x]) <> "".
Proof.
  intros Hx. induction l as [|a l IH]; [exact Hx|].
  change (Py.join sep ((a :: l) ++ [x]))
    with (match (l ++ [x])%list with
          | [] => a
          | _ => a +:+ sep +:+ Py.join sep (l ++ [x])
          end).
  destruct (l ++ [x])%list as [|y r] eqn:E.
  - now destruct l.
  - intros F. apply (f_equal String.length) in F.
    rewrite !str_length_app in F.
    destruct (Py.join sep (y :: r)); [now apply IH | simpl in F; lia].
Qed.

(** The text of a path made by [with_suffix(".py")] is not empty. *)
Lemma suggestion_nonempty (p q : path) :
  Pathlib.with_suffix p ".py" = Some q -> Pathlib.to_str q <> "".
Proof.
  unfold Pathlib.with_suffix.
  assert (N : forall x, x +:+ ".py" <> "").
  { intros x F. apply (f_equal String.length) in F.
    rewrite str_length_app in F. simpl in F. lia. }
  assert (W : forall n, Pathlib.to_str (Pathlib.with_name p (n +:+ ".py")) <> "").
  { intros n. unfold Pathlib.with_name, Pathlib.to_str.
    destruct (removelast p ++ [n +:+ ".py"])%list eqn:E.
    - now destruct (removelast p).
    - rewrite <- E. apply join_last_nonempty, N. }
  destruct (String.eqb (Pathlib.name p) ""); [discriminate|].
  destruct (String.eqb (Pathlib.suffix p) "");
    intros H; injection H as <-; apply W.
Qed.

Variable Path : string -> path.

Lemma take_path_named (p : string) (q : path) (it : items) :
  Pathlib.with_suffix (Path p) ".py" = Some q ->
  take_path Path p it
  = (Return tt,
     mkItems p (if String.eqb (output_path_input it) ""
                then Pathlib.to_str q else output_path_input it)
             (bpp_slider it) (status_log it)).
Proof.
  intros H. unfold take_path. rewrite H.
  unfold set_image_path, set_output_path.
  cbn [output_path_input image_path_input bpp_slider status_log].
  now destruct (String.eqb (output_path_input it) "").
Qed.

Lemma take_path_keeps (p : string) (it : items) :
  output_path_input it <> "" ->
  snd (take_path Path p it)
  = mkItems p (output_path_input it) (bpp_slider it) (status_log it).
Proof.
  intros H. unfold take_path.
  destruct (Pathlib.with_suffix (Path p) ".py"); [|reflexivity].
  unfold set_image_path.
  cbn [output_path_input image_path_input bpp_slider status_log].
  apply String.eqb_neq in H. now rewrite H.
Qed.

End Choosers.

(** X12. The suggested output follows the first image chosen, not the
    last: from an empty output field, choosing image [a] fills the
    field with [a]'s path under [.py]; choosing another image [b]
    afterwards, through the file dialog or the system picker, changes
    the image field to [b] and leaves the output field on [a]'s
    suggestion, whether or not [b] has a file name.  The slider and the
    log are not touched. *)
Theorem suggestion_follows_first_choice (Path : string -> path)
    (data_a data_b : gmap string string) (a b : string) (qa : path)
    (it : items) :
  data_a !! "file_path_name" = Some a -> a <> "" ->
  data_b !! "file_path_name" = Some b -> b <> "" ->
  Pathlib.with_suffix (Path a) ".py" = Some qa ->
  output_path_input it = "" ->
  let r1 := file_dialog_callback Path data_a it in
  let r2 := file_dialog_callback Path data_b (snd r1) in
  r1 = (Return tt,
        mkItems a (Pathlib.to_str qa) (bpp_slider it) (status_log it)) /\
  snd r2 = mkItems b (Pathlib.to_str qa) (bpp_slider it) (status_log it) /\
  open_system_file_picker Path b (snd r1) = r2.
Proof.
  intros Ha Hane Hb Hbne Hqa Hout r1 r2. subst r2 r1.
  unfold file_dialog_callback, open_system_file_picker.
  rewrite Ha, Hb.
  apply String.eqb_neq in Hane, Hbne. rewrite Hane, Hbne.
  rewrite (take_path_named Path a qa it Hqa), Hout.
  change (String.eqb "" "") with true. cbn [snd].
  split; [reflexivity|]. split; [|reflexivity].
  rewrite take_path_keeps; [reflexivity|].
  cbn [output_path_input]. exact (suggestion_nonempty _ _ Hqa).
Qed.

Lemma suggestion_follows_first_choice_witness :
  snd (file_dialog_callback split_path {["file_path_name" := "img/b.png"]}
         (snd (file_dialog_callback split_path
                 {["file_path_name" := "img/a.png"]} toy_items)))
  = mkItems "img/b.png" "img/a.py" 4 "".
Proof.
  refine (proj1 (proj2 (suggestion_follows_first_choice split_path
              {["file_path_name" := "img/a.png"]}
              {["file_path_name" := "img/b.png"]}
              "img/a.png" "img/b.png" ["img"; "a.py"] toy_items
              _ _ _ _ _ _)));
    try discriminate; vm_compute; reflexivity.
Defined.

(** X13. Converting with the suggestion is converting with no output:
    when the image chosen into a window with an empty output field is
    converted, the engine run with the suggestion the chooser filled in
    is the run with no output at all, and the Convert button leaves the
    disk that run leaves; this for a [strip] that leaves the two texts
    alone and a [Path] that reads the suggested text back. *)
Theorem chosen_image_converts_to_default (Path : string -> path) (readable : path -> bool)
    (decode : string -> option (Image rgb)) (luma : rgb -> Z) (to_P : Z -> Z)
    (quantize : Image rgb -> Z -> list Z * (Z * Z -> Z))
    (strip : string -> string) (exn_text : exn -> string)
    (data : gmap string string) (p : string) (q : path) (it : items)
    (w : world) :
  data !! "file_path_name" = Some p -> p <> "" ->
  Pathlib.with_suffix (Path p) ".py" = Some q ->
  output_path_input it = "" ->
  strip p = p -> strip (Pathlib.to_str q) = Pathlib.to_str q ->
  Path (Pathlib.to_str q) = q ->
  let default := convert_image_to_bitmap Path readable decode luma to_P quantize
                   p (bpp_slider it) None w in
  convert_image_to_bitmap Path readable decode luma to_P quantize
    p (bpp_slider it) (Some (Pathlib.to_str q)) w = default /\
  disk (snd (convert_button_callback Path readable decode luma to_P quantize
               strip exn_text
               (mkGui (snd (file_dialog_callback Path data it)) w)))
  = snd default.
Proof.
  intros Hdata Hp Hq Hout Sp Sq Pq default. subst default.
  pose proof (suggestion_nonempty _ _ Hq) as Hne.
  assert (E : convert_image_to_bitmap Path readable decode luma to_P quantize
                p (bpp_slider it) (Some (Pathlib.to_str q)) w
              = convert_image_to_bitmap Path readable decode luma to_P quantize
                  p (bpp_slider it) None w).
  { unfold convert_image_to_bitmap, default_out_path.
    apply String.eqb_neq in Hne. now rewrite Hne, Pq, Hq. }
  split; [exact E|].
  unfold file_dialog_callback. rewrite Hdata.
  pose proof Hp as Hp'. apply String.eqb_neq in Hp'. rewrite Hp'.
  rewrite (take_path_named Path p q it Hq), Hout.
  change (String.eqb "" "") with true. cbn [snd].
  rewrite button_run;
    cbn [window disk image_path_input output_path_input bpp_slider];
    rewrite ?Sp, ?Sq; [|exact Hp'].
  cbn [snd disk].
  apply String.eqb_neq in Hne. rewrite Hne. cbn [negb]. now rewrite E.
Qed.

Lemma chosen_image_converts_to_default_witness :
  toy_setting convert_image_to_bitmap "img/a.png" 4 (Some "img/a.py")
    toy_world
  = toy_setting convert_image_to_bitmap "img/a.png" 4 None toy_world.
Proof.
  refine (proj1 (chosen_image_converts_to_default split_path all_readable toy_decode
              luma601 (fun v => v) ramp_quantize toy_strip toy_text
              {["file_path_name" := "img/a.png"]} "img/a.png"
              ["img"; "a.py"] toy_items toy_world _ _ _ _ _ _ _));
    try discriminate; vm_compute; reflexivity.
Defined.

(** X14. Where the two converters agree: for an out path that ends in
    [.py] and whose directories are all there, the script's [main]
    returns exactly when [convert_image_to_bitmap] does, the path
    returned is that out path, and the two leave the same file
    system. *)
Theorem converters_agree (Path : string -> path) (readable : path -> bool)
    (decode : string -> option (Image rgb)) (luma : rgb -> Z) (to_P : Z -> Z)
    (quantize : Image rgb -> Z -> list Z * (Z * Z -> Z))
    (image_file : string) (bpp : Z) (output : option string)
    (out : path) (w : world) :
  default_out_path Path (Path image_file) output = Some out ->
  Pathlib.lower (Pathlib.suffix out) = ".py" ->
  (forall q, In q (ancestors (Pathlib.parent out)) -> fs w !! q = Some Dir) ->
  (forall w1,
     main Path readable decode luma to_P quantize image_file bpp output w
     = (Return tt, w1) ->
     exists w2,
       convert_image_to_bitmap Path readable decode luma to_P quantize
         image_file bpp output w = (Return out, w2) /\ fs w2 = fs w1) /\
  (forall o w2,
     convert_image_to_bitmap Path readable decode luma to_P quantize
       image_file bpp output w = (Return o, w2) ->
     o = out /\
     exists w1,
       main Path readable decode luma to_P quantize image_file bpp output w
       = (Return tt, w1) /\ fs w1 = fs w2).
Proof.
  intros Hout Hpy Hdirs.
  assert (Hgui : gui_out_path Path image_file output = Some out).
  { unfold gui_out_path. rewrite Hout. cbn. unfold ensure_py.
    rewrite Hpy. reflexivity. }
  assert (Hfiles : forall q t, In q (ancestors (Pathlib.parent out)) ->
                               fs w !! q <> Some (File t)).
  { intros q t Hq. rewrite (Hdirs q Hq). discriminate. }
  split.
  - intros w1 Hmain.
    pose proof Hmain as Hm.
    apply main_returns in Hm
      as (c & src & colors & out' & Hb & Hf & Hd & Hr & Hz & Ho & Hc & Hne & Hdir & Hnd).
    rewrite Hout in Ho. injection Ho as <-.
    rewrite (main_runs Path readable decode luma to_P quantize image_file bpp output
               w c src out colors Hb Hf Hd Hr Hz Hout Hc Hne Hdir Hnd) in Hmain.
    apply (f_equal snd) in Hmain. cbn [snd] in Hmain. subst w1.
    eexists. split.
    + exact (convert_runs Path readable decode luma to_P quantize image_file bpp
               output w c src out colors Hb Hf Hd Hr Hz Hgui Hc Hfiles Hnd).
    + unfold converted. cbn [fs make_dirs fold_left].
      now rewrite make_dirs_id.
  - intros o w2 Hconv.
    pose proof Hconv as Hc0.
    apply convert_returns in Hc0
      as (c & src & colors & Hb & Hf & Hd & Hr & Hz & Ho & Hc & _ & Hnd).
    rewrite Hgui in Ho. injection Ho as <-.
    split; [reflexivity|].
    rewrite (convert_runs Path readable decode luma to_P quantize image_file bpp
               output w c src out colors Hb Hf Hd Hr Hz Hgui Hc Hfiles Hnd)
      in Hconv.
    apply (f_equal snd) in Hconv. cbn [snd] in Hconv. subst w2.
    assert (Hne : out <> []).
    { unfold gui_out_path in Hgui. rewrite Hout in Hgui.
      exact (ensure_py_nonempty _ _ Hgui). }
    assert (Hdir : is_dir_in (fs w) (Pathlib.parent out) = true).
    { unfold is_dir_in. destruct (Pathlib.parent out) as [|a r] eqn:E;
        [reflexivity|].
      rewrite (Hdirs (a :: r)); [reflexivity|].
      rewrite <- E. apply in_ancestors_self. rewrite E. discriminate. }
    eexists. split.
    + exact (main_runs Path readable decode luma to_P quantize image_file bpp output
               w c src out colors Hb Hf Hd Hr Hz Hout Hc Hne Hdir Hnd).
    + unfold converted. cbn [fs make_dirs fold_left].
      now rewrite make_dirs_id.
Qed.

Lemma converters_agree_witness :
  exists w2,
    toy_setting convert_image_to_bitmap "img/a.png" 4 None toy_world
    = (Return ["img"; "a.py"], w2) /\
    fs w2 = fs (snd (toy_setting main "img/a.png" 4 None toy_world)).
Proof.
  refine (proj1 (converters_agree split_path all_readable toy_decode luma601
                   (fun v => v) ramp_quantize "img/a.png" 4 None
                   ["img"; "a.py"] toy_world _ _ _) _ _).
  - reflexivity.
  - reflexivity.
  - intros q [<- | []]. vm_compute. reflexivity.
  - vm_compute. reflexivity.
Defined.
